(** * spam-channel-bot: duplicate detection and statistics

    A shallow embedding of [src/bot.js] (the polling bot): the fingerprint
    distance, the similarity scan over the [media] collection, the message
    handler with its three MongoDB collections, and the statistics report.
    The window-filtered report of the webhook variants ([generateWeeklyStats]
    in the two larger scripts) is embedded in [Module Webhook], their message
    and reaction handlers in [Module WebhookBot], and the handlers of the two
    older scripts in [Module Legacy].

    Conventions.
    - A MongoDB collection is the list of its documents in natural (insertion)
      order; [insertOne] appends, [findOne] returns the first match, and
      [updateOne] rewrites the first match.
    - [new Date()] is the [now] field of the incoming event (milliseconds).
    - Calls to the platform and to the store are taken to succeed; the
      exceptions the handler's [try/catch] swallows are modelled where the
      handler's own code raises them (an empty [msg.photo] array).
    - A string is the sequence of its UTF-16 code units, each below 256.
    - The two hashing libraries are parameters: [imageHash] (the perceptual
      hash of the image-hash package, [None] when its callback reports an
      error) and [sha256hex] (Node's [crypto] SHA-256 digest in hex).
      [src/bot.js] calls image-hash with the buffer, the webhook scripts with
      the path of a temporary file: where the scripts are compared these are
      two parameters. *)

From Stdlib Require Import ZArith List String Ascii Bool Arith Lia.
From Stdlib Require Import Permutation DecimalString DecimalZ.
Import ListNotations.

Set Implicit Arguments.

Local Open Scope list_scope.

(** ** JavaScript values used by the bot *)

Definition Buffer := list Byte.byte.

(** Truthiness of a possibly missing string: [undefined], [null] and the empty
    string are falsy. *)
Definition truthy (s : option string) : bool :=
  match s with
  | Some (String _ _) => true
  | _ => false
  end.

(** [a !== b] on the results of indexing a string ([undefined] out of range). *)
Definition strictNeq (a b : option ascii) : bool :=
  match a, b with
  | Some x, Some y => negb (Ascii.eqb x y)
  | None, None => false
  | _, _ => true
  end.

(** The media types the handler assigns, and ['text'] for statistics. *)
Inductive MediaType := Photo | Video | Document | Text.

Definition MediaType_eqb (a b : MediaType) : bool :=
  match a, b with
  | Photo, Photo | Video, Video | Document, Document | Text, Text => true
  | _, _ => false
  end.

(** A JavaScript number that is either a count or [Infinity]. *)
Inductive Distance := Finite (d : nat) | Infinity.

(** ** Documents of the three collections *)

Module Media.
Record t := mk {
  hash : string;
  originalMessageId : Z;
  userId : Z;
  username : string;
  mediaType : MediaType;
  timestamp : Z;
  chatId : Z
}.
End Media.

Module UserStats.
(** A counter is [None] while the document has no such field: the document
    [trackDuplicate] upserts carries only [userId], [duplicatesPosted],
    [username] and [lastActive]. *)
Record t := mk {
  userId : Z;
  username : string;
  photoCount : option nat;
  videoCount : option nat;
  documentCount : option nat;
  textCount : option nat;
  duplicatesPosted : option nat;
  totalMessages : option nat;
  firstSeen : option Z;
  lastActive : Z
}.
End UserStats.

Module DuplicateEntry.
Record t := mk {
  userId : Z;
  username : string;
  timestamp : Z
}.
End DuplicateEntry.

Record Db := mkDb {
  media : list Media.t;
  userStats : list UserStats.t;
  duplicateTracking : list DuplicateEntry.t
}.

Definition emptyDb : Db := mkDb [] [] [].

(** ** calculateHashDistance ([src/bot.js], lines 111-123) *)

(** The body of the [for] loop at index [i]. *)
Definition distanceStep (hash1 hash2 : string) (distance i : nat) : nat :=
  if strictNeq (String.get i hash1) (String.get i hash2) then S distance else distance.

Definition calculateHashDistance (hash1 hash2 : option string) : Distance :=
  match hash1, hash2 with
  | Some h1, Some h2 =>
      if negb (truthy hash1) || negb (truthy hash2)
         || negb (String.length h1 =? String.length h2)
      then Infinity
      else Finite (fold_left (distanceStep h1 h2) (seq 0 (String.length h1)) 0)
  | _, _ => Infinity
  end.

(** ** findSimilarMedia ([src/bot.js], lines 126-152) *)

Definition defaultSimilarityThreshold : nat := 5.

(** [mediaType === 'photo' || mediaType === 'document'] *)
Definition isPerceptualType (mediaType : MediaType) : bool :=
  match mediaType with
  | Photo | Document => true
  | _ => false
  end.

(** One iteration of [for (const media of allMedia)], on the pair
    [(mostSimilar, lowestDistance)]. *)
Definition similarityStep (hash : string) (similarityThreshold : nat)
    (acc : option Media.t * nat) (media : Media.t) : option Media.t * nat :=
  match calculateHashDistance (Some hash) (Some (Media.hash media)) with
  | Finite distance =>
      if (distance <=? similarityThreshold) && (distance <? snd acc)
      then (Some media, distance)
      else acc
  | Infinity => acc
  end.

(** [find({ mediaType: { $in: ['photo', 'document'] } }).toArray()] *)
Definition perceptualMedia (db : Db) : list Media.t :=
  filter (fun m => isPerceptualType (Media.mediaType m)) (media db).

Definition findSimilarMedia (db : Db) (hash : string) (mediaType : MediaType)
    (similarityThreshold : nat) : option Media.t :=
  if negb (isPerceptualType mediaType)
  then find (fun m => String.eqb (Media.hash m) hash) (media db)
  else fst (fold_left (similarityStep hash similarityThreshold)
                      (perceptualMedia db)
                      (None, similarityThreshold + 1)).

(** ** updateUserStatistics and trackDuplicate ([src/bot.js], lines 174-230) *)

(** [findOne({ userId })] and [updateOne({ userId }, ...)] on [userStats]. *)
Definition findOneUser (userId : Z) (stats : list UserStats.t) : option UserStats.t :=
  find (fun u => Z.eqb (UserStats.userId u) userId) stats.

Fixpoint updateOneUser (userId : Z) (update : UserStats.t -> UserStats.t)
    (stats : list UserStats.t) : list UserStats.t :=
  match stats with
  | [] => []
  | u :: rest =>
      if Z.eqb (UserStats.userId u) userId
      then update u :: rest
      else u :: updateOneUser userId update rest
  end.

(** A counter read the way the report reads it: [user.photoCount || 0]. *)
Definition orZero (counter : option nat) : nat :=
  match counter with
  | Some n => n
  | None => 0
  end.

(** [$inc: { field: 1 }]: a missing field is created with value 1. *)
Definition inc (counter : option nat) : option nat := Some (S (orZero counter)).

(** The update document of [updateUserStatistics]:
    [$inc: { [`${mediaType}Count`]: 1, totalMessages: 1 }] and
    [$set: { username, lastActive: new Date() }]. *)
Definition countMessage (username : string) (mediaType : MediaType) (now : Z)
    (u : UserStats.t) : UserStats.t :=
  UserStats.mk (UserStats.userId u) username
    (if MediaType_eqb mediaType Photo then inc (UserStats.photoCount u)
     else UserStats.photoCount u)
    (if MediaType_eqb mediaType Video then inc (UserStats.videoCount u)
     else UserStats.videoCount u)
    (if MediaType_eqb mediaType Document then inc (UserStats.documentCount u)
     else UserStats.documentCount u)
    (if MediaType_eqb mediaType Text then inc (UserStats.textCount u)
     else UserStats.textCount u)
    (UserStats.duplicatesPosted u)
    (inc (UserStats.totalMessages u))
    (UserStats.firstSeen u)
    now.

(** The document [updateUserStatistics] inserts for a user seen for the first
    time. *)
Definition newUserStats (userId : Z) (username : string) (mediaType : MediaType)
    (now : Z) : UserStats.t :=
  UserStats.mk userId username
    (Some (if MediaType_eqb mediaType Photo then 1 else 0))
    (Some (if MediaType_eqb mediaType Video then 1 else 0))
    (Some (if MediaType_eqb mediaType Document then 1 else 0))
    (Some (if MediaType_eqb mediaType Text then 1 else 0))
    (Some 0)
    (Some 1)
    (Some now)
    now.

Definition updateUserStatistics (db : Db) (userId : Z) (username : string)
    (mediaType : MediaType) (now : Z) : Db :=
  match findOneUser userId (userStats db) with
  | Some _ =>
      mkDb (media db)
           (updateOneUser userId (countMessage username mediaType now) (userStats db))
           (duplicateTracking db)
  | None =>
      mkDb (media db)
           (userStats db ++ [newUserStats userId username mediaType now])
           (duplicateTracking db)
  end.

(** The update document of [trackDuplicate]: [$inc: { duplicatesPosted: 1 }]
    and [$set: { username, lastActive: new Date() }]. *)
Definition countDuplicate (username : string) (now : Z) (u : UserStats.t) : UserStats.t :=
  UserStats.mk (UserStats.userId u) username
    (UserStats.photoCount u) (UserStats.videoCount u)
    (UserStats.documentCount u) (UserStats.textCount u)
    (inc (UserStats.duplicatesPosted u))
    (UserStats.totalMessages u)
    (UserStats.firstSeen u)
    now.

(** The document an upsert creates when no document of the user exists: the
    filter's [userId] and the fields the update names. *)
Definition upsertedStats (userId : Z) (username : string) (now : Z) : UserStats.t :=
  UserStats.mk userId username None None None None (Some 1) None None now.

Definition trackDuplicate (db : Db) (userId : Z) (username : string) (now : Z) : Db :=
  mkDb (media db)
       (match findOneUser userId (userStats db) with
        | Some _ => updateOneUser userId (countDuplicate username now) (userStats db)
        | None => userStats db ++ [upsertedStats userId username now]
        end)
       (duplicateTracking db ++ [DuplicateEntry.mk userId username now]).

(** ** generateWeeklyStats ([src/bot.js], lines 233-277) *)

(** [user.username || user.userId] *)
Inductive Label := Name (s : string) | Id (z : Z).

Definition labelOf (username : string) (userId : Z) : Label :=
  if truthy (Some username) then Name username else Id userId.

(** [Array.prototype.sort] is stable; [comesAfter a b] reads [compare(a, b) > 0].
    The element is inserted before the first element it need not follow. *)
Section StableSort.
Variable A : Type.
Variable comesAfter : A -> A -> bool.

Fixpoint insertSorted (x : A) (sorted : list A) : list A :=
  match sorted with
  | [] => [x]
  | y :: rest => if comesAfter x y then y :: insertSorted x rest else x :: sorted
  end.

Definition stableSort (l : list A) : list A := fold_right insertSorted [] l.
End StableSort.

(** [(a, b) => b.totalMessages - a.totalMessages] is positive exactly when both
    fields are numbers and [b]'s is larger; a missing field gives [NaN], which
    [sort] reads as +0. *)
Definition fewer (x y : option nat) : bool :=
  match x, y with
  | Some a, Some b => a <? b
  | _, _ => false
  end.

Record Report := mkReport {
  topContributors : list (Label * option nat);
  totalPhotos : nat;
  totalVideos : nat;
  totalDocs : nat;
  totalTexts : nat;
  duplicateOffenders : list (Label * option nat)
}.

(** [stats.reduce((sum, user) => sum + (user.field || 0), 0)] *)
Definition sumOf (field : UserStats.t -> option nat) (stats : list UserStats.t) : nat :=
  fold_left (fun sum user => sum + orZero (field user)) stats 0.

(** The report lists the lines of [statsMessage], given the array [stats] as
    [stats.sort(...)] has left it: the first five users, the four totals, and
    the first three offenders (an empty list stands for the line "No
    duplicates posted this week!"). The offenders all have a number as
    [duplicatesPosted], so their comparison is a consistent one. *)
Definition reportOver (stats : list UserStats.t) : Report :=
  let line (count : UserStats.t -> option nat) (user : UserStats.t) :=
    (labelOf (UserStats.username user) (UserStats.userId user), count user) in
  let offenders :=
    stableSort (fun a b => fewer (UserStats.duplicatesPosted a) (UserStats.duplicatesPosted b))
               (filter (fun user => 0 <? orZero (UserStats.duplicatesPosted user)) stats) in
  mkReport (map (line UserStats.totalMessages) (firstn 5 stats))
           (sumOf UserStats.photoCount stats)
           (sumOf UserStats.videoCount stats)
           (sumOf UserStats.documentCount stats)
           (sumOf UserStats.textCount stats)
           (map (line UserStats.duplicatesPosted) (firstn 3 offenders)).

(** [stats.sort((a, b) => b.totalMessages - a.totalMessages)]. While every
    document has the field (every document [updateUserStatistics] has
    written) the comparison is a consistent one, and the order is the one any
    stable sort gives, [stableSort]'s. With a document that lacks the field
    (one [trackDuplicate] has upserted and [updateUserStatistics] never
    touched) next to documents with different numbers, the comparison is not
    consistent and ECMAScript leaves the order to the implementation: the
    report is then [reportOver] of whatever permutation the engine leaves,
    which need not be the one [stableSort] gives. What holds of
    [reportOver] for every permutation is stated apart
    ([report_in_any_order]); what is stated of the order of the lines of
    [generateWeeklyStats] is stated for documents that have the field. *)
Definition generateWeeklyStats (db : Db) : Report :=
  reportOver
    (stableSort (fun a b => fewer (UserStats.totalMessages a) (UserStats.totalMessages b))
                (userStats db)).

(** ** Incoming messages *)

Module Msg.
(** The fields of a Telegram message the handler reads. [photo] lists the
    [file_id] of each size, [video] is [msg.video.file_id], and [document] is
    [msg.document.file_id] with [msg.document.mime_type]. *)
Record t := mk {
  chat_id : Z;
  from_id : Z;
  from_username : option string;
  first_name : string;
  last_name : option string;
  message_id : Z;
  text : option string;
  photo : option (list string);
  video : option string;
  document : option (string * option string)
}.
End Msg.

(** A message together with what the platform answers while it is handled:
    the result of [isGroup(chatId)], the bytes [fetch] downloads for the
    media file, and the clock. *)
Record Event := mkEvent {
  msg : Msg.t;
  chatIsGroup : bool;
  mediaBuffer : Buffer;
  now : Z
}.

(** [s.startsWith('/')] and [s.split(' ')[0].substring(1)] *)
Definition startsWithSlash (s : string) : bool := String.prefix "/" s.

Fixpoint firstWord (s : string) : string :=
  match s with
  | EmptyString => EmptyString
  | String c rest => if Ascii.eqb c " " then EmptyString else String c (firstWord rest)
  end.

Definition commandOf (text : string) : string :=
  match firstWord text with
  | EmptyString => EmptyString
  | String _ rest => rest
  end.

(** [msg.text && msg.text.startsWith('/')] *)
Definition isCommand (m : Msg.t) : bool :=
  match Msg.text m with
  | Some t => truthy (Some t) && startsWithSlash t
  | None => false
  end.

(** [msg.text && !msg.text.startsWith('/')] *)
Definition isPlainText (m : Msg.t) : bool :=
  match Msg.text m with
  | Some t => truthy (Some t) && negb (startsWithSlash t)
  | None => false
  end.

(** [String.prototype.trim]. A string of the model is a sequence of code
    units below 256, so of the white space and line terminators of
    ECMAScript it holds TAB, LF, VT, FF, CR, SP and NBSP (U+00A0); the others
    (U+FEFF, U+1680, U+2000 to U+200A, U+2028, U+2029, U+202F, U+205F,
    U+3000) are no characters of such a string. *)
Definition isWhiteSpace (c : ascii) : bool :=
  let n := nat_of_ascii c in
  (n =? 32) || ((9 <=? n) && (n <=? 13)) || (n =? 160).

Fixpoint trimStart (s : string) : string :=
  match s with
  | EmptyString => EmptyString
  | String c rest => if isWhiteSpace c then trimStart rest else s
  end.

Fixpoint trimEnd (s : string) : string :=
  match s with
  | EmptyString => EmptyString
  | String c rest =>
      match trimEnd rest with
      | EmptyString => if isWhiteSpace c then EmptyString else String c EmptyString
      | kept => String c kept
      end
  end.

Definition trim (s : string) : string := trimEnd (trimStart s).

(** [msg.from.username || `${first_name} ${last_name || ''}`.trim()] *)
Definition senderName (m : Msg.t) : string :=
  match Msg.from_username m with
  | Some (String c rest) => String c rest
  | _ =>
      trim (Msg.first_name m ++ " " ++
            match Msg.last_name m with
            | Some l => l
            | None => EmptyString
            end)%string
  end.

(** The file and media type the handler picks, in the order of its
    [if / else if] chain. [msg.photo[msg.photo.length - 1].file_id] raises a
    [TypeError] on an empty array; a document whose MIME type does not start
    with ['image/'] leaves [mediaFileId] undefined. *)
Inductive Picked :=
| Raises
| NoFile
| File (mediaFileId : string) (mediaType : MediaType).

Definition pickMedia (m : Msg.t) : Picked :=
  match Msg.photo m, Msg.video m, Msg.document m with
  | Some sizes, _, _ =>
      match rev sizes with
      | [] => Raises
      | largest :: _ => File largest Photo
      end
  | None, Some file_id, _ => File file_id Video
  | None, None, Some (file_id, mime_type) =>
      if String.prefix "image/" (match mime_type with Some mt => mt | None => EmptyString end)
      then File file_id Document
      else NoFile
  | None, None, None => NoFile
  end.

(** [msg.photo || msg.video || msg.document] *)
Definition hasMedia (m : Msg.t) : bool :=
  match Msg.photo m, Msg.video m, Msg.document m with
  | None, None, None => false
  | _, _, _ => true
  end.

(** What the handler does that the chat can see, and which write path it took. *)
Inductive Outcome :=
| Ignored
| Threw
| RepliedStats (statsMessage : Report)
| RepliedHelp
| DuplicateNotice (mediaType : MediaType) (existingMedia : Media.t) (reply_to_message_id : Z)
| Stored (record : Media.t)
| CountedText.

(** The commands that answer and return; any other command falls through. *)
Inductive Command := StatsCommand | HelpCommand.

Definition answeredCommand (m : Msg.t) : option Command :=
  match Msg.text m with
  | Some t =>
      if isCommand m then
        if String.eqb (commandOf t) "stats" then Some StatsCommand
        else if String.eqb (commandOf t) "help" then Some HelpCommand
        else None
      else None
  | None => None
  end.

(** The media type under which the handler takes a message up to
    [hashMedia] and [findSimilarMedia]: the message is not ignored as private
    chatter, is not an answered command, and carries a file the handler
    picks. *)
Definition postedKind (ev : Event) : option MediaType :=
  if negb (chatIsGroup ev) && negb (isCommand (msg ev)) then None
  else
    match answeredCommand (msg ev) with
    | Some _ => None
    | None =>
        if hasMedia (msg ev) then
          match pickMedia (msg ev) with
          | File mediaFileId mediaType =>
              if truthy (Some mediaFileId) then Some mediaType else None
          | _ => None
          end
        else None
    end.

(** ** hashMedia (lines 45-75) and the message handler (lines 302-419) *)

Section Handler.

(** [imageHash media bits precise] is the hash the image-hash callback
    receives, [None] when it receives an error (or the call throws);
    [sha256hex] is [crypto.createHash('sha256').update(media).digest('hex')]. *)
Variable imageHash : Buffer -> nat -> bool -> option string.
Variable sha256hex : Buffer -> string.

Definition hashMedia (media : Buffer) (mediaType : MediaType) : string :=
  let cryptoHash := sha256hex media in
  if isPerceptualType mediaType then
    match imageHash media 16 true with
    | None => cryptoHash
    | Some hash => hash
    end
  else cryptoHash.

(** The record [insertOne] stores for an accepted post. *)
Definition recordOf (ev : Event) (mediaHash : string) (mediaType : MediaType) : Media.t :=
  Media.mk mediaHash (Msg.message_id (msg ev)) (Msg.from_id (msg ev))
           (senderName (msg ev)) mediaType (now ev) (Msg.chat_id (msg ev)).

(** The two branches after [const existingMedia = await findSimilarMedia(...)]. *)
Definition settleMedia (db : Db) (ev : Event) (mediaHash : string)
    (mediaType : MediaType) (existingMedia : option Media.t) : Db * Outcome :=
  let userId := Msg.from_id (msg ev) in
  let username := senderName (msg ev) in
  match existingMedia with
  | Some existing =>
      (trackDuplicate db userId username (now ev),
       DuplicateNotice mediaType existing (Msg.message_id (msg ev)))
  | None =>
      let record := recordOf ev mediaHash mediaType in
      (updateUserStatistics
         (mkDb (media db ++ [record]) (userStats db) (duplicateTracking db))
         userId username mediaType (now ev),
       Stored record)
  end.

(** The body of [if (msg.photo || msg.video || msg.document) ... else if ...]. *)
Definition processContent (db : Db) (ev : Event) : Db * Outcome :=
  let m := msg ev in
  if hasMedia m then
    match pickMedia m with
    | Raises => (db, Threw)
    | NoFile => (db, Ignored)
    | File mediaFileId mediaType =>
        if truthy (Some mediaFileId) then
          let mediaHash := hashMedia (mediaBuffer ev) mediaType in
          settleMedia db ev mediaHash mediaType
            (findSimilarMedia db mediaHash mediaType defaultSimilarityThreshold)
        else (db, Ignored)
    end
  else if isPlainText m then
    (updateUserStatistics db (Msg.from_id m) (senderName m) Text (now ev), CountedText)
  else (db, Ignored).

(** [bot.on('message', async (msg) => { ... })] *)
Definition onMessage (db : Db) (ev : Event) : Db * Outcome :=
  if negb (chatIsGroup ev) && negb (isCommand (msg ev)) then (db, Ignored)
  else
    match answeredCommand (msg ev) with
    | Some StatsCommand => (db, RepliedStats (generateWeeklyStats db))
    | Some HelpCommand => (db, RepliedHelp)
    | None => processContent db ev
    end.

(** The handler run on a sequence of events, one after the other, with the
    outcome of each. *)
Fixpoint run (db : Db) (events : list Event) : Db * list (Event * Outcome) :=
  match events with
  | [] => (db, [])
  | ev :: rest =>
      let (db1, outcome) := onMessage db ev in
      let (db2, trace) := run db1 rest in
      (db2, (ev, outcome) :: trace)
  end.

(** ** Two handlers in flight

    The handler is [async]: it gives up control at every [await], so the
    handlers of two messages can alternate between their awaits. A task is a
    handler cut at the await that separates the lookup from the writes:
    [Waiting] before [findSimilarMedia] has answered, [Looked] once it has and
    the branch on [existingMedia] has not yet written, [Finished] after. *)

(** The fingerprint and media type with which the handler calls
    [findSimilarMedia], when it gets that far. *)
Definition mediaQuery (ev : Event) : option (string * MediaType) :=
  match postedKind ev with
  | Some mediaType => Some (hashMedia (mediaBuffer ev) mediaType, mediaType)
  | None => None
  end.

Inductive Task :=
| Waiting (ev : Event)
| Looked (ev : Event) (existingMedia : option Media.t)
| Finished (outcome : Outcome).

Definition stepTask (db : Db) (task : Task) : Db * Task :=
  match task with
  | Waiting ev =>
      match mediaQuery ev with
      | Some (mediaHash, mediaType) =>
          (db, Looked ev (findSimilarMedia db mediaHash mediaType defaultSimilarityThreshold))
      | None => let (db1, outcome) := onMessage db ev in (db1, Finished outcome)
      end
  | Looked ev existingMedia =>
      match mediaQuery ev with
      | Some (mediaHash, mediaType) =>
          let (db1, outcome) := settleMedia db ev mediaHash mediaType existingMedia in
          (db1, Finished outcome)
      | None => (db, task)
      end
  | Finished _ => (db, task)
  end.

(** The task at position [i] takes its next step. *)
Fixpoint stepAt (db : Db) (tasks : list Task) (i : nat) : Db * list Task :=
  match tasks, i with
  | [], _ => (db, [])
  | task :: rest, 0 => let (db1, task1) := stepTask db task in (db1, task1 :: rest)
  | task :: rest, S j => let (db1, rest1) := stepAt db rest j in (db1, task :: rest1)
  end.

(** A schedule names, step by step, the task that runs next. *)
Fixpoint interleave (db : Db) (tasks : list Task) (schedule : list nat) : Db * list Task :=
  match schedule with
  | [] => (db, tasks)
  | i :: later => let (db1, tasks1) := stepAt db tasks i in interleave db1 tasks1 later
  end.

End Handler.

(** ** generateWeeklyStats of the webhook variants

    The two larger scripts ([src/unnamed/part_000], lines 307-454, and
    [src/unnamed/part_001], lines 290-434) keep a [textMessages] collection,
    store duplicate entries in [duplicates], and build the report from the
    documents whose [timestamp] is at least [now - 7 days], with the same
    three loops. They differ in how they print it. [part_001] passes every
    name through [escapeMarkdown], which accepts a number, and prints four
    totals: [Webhook.generateWeeklyStats] is its report. [part_000] calls
    [includes] on the name, which a number does not have, and prints three
    totals: [Webhook.Part000.generateWeeklyStats] is its report, [None] when
    it raises. *)

Module Webhook.

Module TextMessage.
Record t := mk {
  userId : Z;
  username : string;
  messageId : Z;
  timestamp : Z;
  chatId : Z
}.
End TextMessage.

Module Reaction.
(** A [messageReactions] document; the keys are the decimal strings of the
    two numbers, which identify them. *)
Record t := mk {
  chatId : Z;
  messageId : Z;
  totalReactions : nat
}.
End Reaction.

Record Store := mkStore {
  media : list Media.t;
  textMessages : list TextMessage.t;
  duplicates : list DuplicateEntry.t;
  messageReactions : list Reaction.t
}.

(** [getMessageReactions(chatId, messageId)] *)
Definition getMessageReactions (st : Store) (chatId messageId : Z) : nat :=
  match find (fun r => Z.eqb (Reaction.chatId r) chatId && Z.eqb (Reaction.messageId r) messageId)
             (messageReactions st) with
  | Some reactionData => Reaction.totalReactions reactionData
  | None => 0
  end.

(** A JavaScript object keyed by user id, as the list of its entries in the
    order they were created. [if (!obj[k]) obj[k] = init; update(obj[k])] *)
Fixpoint touch {E : Type} (k : Z) (init : E) (update : E -> E) (obj : list (Z * E))
    : list (Z * E) :=
  match obj with
  | [] => [(k, update init)]
  | (k1, e) :: rest =>
      if Z.eqb k1 k then (k1, update e) :: rest
      else (k1, e) :: touch k init update rest
  end.

(** [Object.values]: the keys that are array indices (integers from 0 to
    2^32 - 2) come first in ascending order, the others follow in creation
    order. *)
Definition isArrayIndex (k : Z) : bool := (0 <=? k)%Z && (k <? 4294967295)%Z.

Definition objectValues {E : Type} (obj : list (Z * E)) : list E :=
  map snd
    (stableSort (fun a b => (fst b <? fst a)%Z) (filter (fun kv => isArrayIndex (fst kv)) obj)
     ++ filter (fun kv => negb (isArrayIndex (fst kv))) obj).

Record WeeklyEntry := mkEntry {
  userId : Z;
  username : Label;
  photoCount : nat;
  videoCount : nat;
  documentCount : nat;
  textCount : option nat;
  totalMessages : nat
}.

(** [entry[`${mediaType}Count`]++; entry.totalMessages++]. The [media]
    collection holds photos, videos and documents only. *)
Definition countMedia (mediaType : MediaType) (e : WeeklyEntry) : WeeklyEntry :=
  mkEntry (userId e) (username e)
    (if MediaType_eqb mediaType Photo then S (photoCount e) else photoCount e)
    (if MediaType_eqb mediaType Video then S (videoCount e) else videoCount e)
    (if MediaType_eqb mediaType Document then S (documentCount e) else documentCount e)
    (textCount e)
    (S (totalMessages e)).

(** [entry.textCount = (entry.textCount || 0) + 1; entry.totalMessages++] *)
Definition countText (e : WeeklyEntry) : WeeklyEntry :=
  mkEntry (userId e) (username e) (photoCount e) (videoCount e) (documentCount e)
    (Some (S (orZero (textCount e))))
    (S (totalMessages e)).

Record Tally := mkTally {
  tallyUserId : Z;
  tallyUsername : Label;
  tally : nat
}.

Definition addTally (n : nat) (t : Tally) : Tally :=
  mkTally (tallyUserId t) (tallyUsername t) (tally t + n).

Record Report := mkReport {
  topContributors : list (Label * nat);
  topReactor : option (Label * nat);
  totalPhotos : nat;
  totalVideos : nat;
  totalDocs : nat;
  totalTexts : nat;
  duplicateOffenders : list (Label * nat)
}.

Definition oneWeek : Z := 7 * 24 * 60 * 60 * 1000.

(** [{ timestamp: { $gte: oneWeekAgo } }] *)
Definition sinceOneWeekAgo (now timestamp : Z) : bool := (now - oneWeek <=? timestamp)%Z.

Definition weeklyMedia (now : Z) (st : Store) : list Media.t :=
  filter (fun m => sinceOneWeekAgo now (Media.timestamp m)) (media st).

Definition weeklyTextMessages (now : Z) (st : Store) : list TextMessage.t :=
  filter (fun m => sinceOneWeekAgo now (TextMessage.timestamp m)) (textMessages st).

Definition weeklyDuplicates (now : Z) (st : Store) : list DuplicateEntry.t :=
  filter (fun d => sinceOneWeekAgo now (DuplicateEntry.timestamp d)) (duplicates st).

(** The first loop, over [weeklyMedia], on [userWeeklyStats] and
    [userReactionStats]. *)
Definition mediaLoop (st : Store)
    (acc : list (Z * WeeklyEntry) * list (Z * Tally)) (m : Media.t)
    : list (Z * WeeklyEntry) * list (Z * Tally) :=
  let uid := Media.userId m in
  let name := labelOf (Media.username m) uid in
  let stats :=
    touch uid (mkEntry uid name 0 0 0 None 0) (countMedia (Media.mediaType m)) (fst acc) in
  let reactionCount := getMessageReactions st (Media.chatId m) (Media.originalMessageId m) in
  (stats,
   if 0 <? reactionCount
   then touch uid (mkTally uid name 0) (addTally reactionCount) (snd acc)
   else snd acc).

(** The second loop, over [weeklyTextMessages]. *)
Definition textLoop (stats : list (Z * WeeklyEntry)) (t : TextMessage.t)
    : list (Z * WeeklyEntry) :=
  let uid := TextMessage.userId t in
  touch uid (mkEntry uid (labelOf (TextMessage.username t) uid) 0 0 0 (Some 0) 0)
        countText stats.

(** The third loop, over [weeklyDuplicates]. *)
Definition duplicateLoop (stats : list (Z * Tally)) (d : DuplicateEntry.t)
    : list (Z * Tally) :=
  let uid := DuplicateEntry.userId d in
  touch uid (mkTally uid (labelOf (DuplicateEntry.username d) uid) 0) (addTally 1) stats.

(** The report of [part_001] (lines 290-434): every name goes through
    [escapeMarkdown], which prints a number as well as a string. *)
Definition generateWeeklyStats (now : Z) (st : Store) : Report :=
  let afterMedia := fold_left (mediaLoop st) (weeklyMedia now st) ([], []) in
  let userWeeklyStats := fold_left textLoop (weeklyTextMessages now st) (fst afterMedia) in
  let weeklyStatsArray :=
    stableSort (fun a b => totalMessages a <? totalMessages b) (objectValues userWeeklyStats) in
  let reactionStatsArray :=
    stableSort (fun a b => tally a <? tally b) (objectValues (snd afterMedia)) in
  let duplicateStats := fold_left duplicateLoop (weeklyDuplicates now st) [] in
  let offenders :=
    stableSort (fun a b => tally a <? tally b)
               (filter (fun t => 0 <? tally t) (objectValues duplicateStats)) in
  mkReport
    (map (fun e => (username e, totalMessages e)) (firstn 5 weeklyStatsArray))
    (match reactionStatsArray with
     | [] => None
     | top :: _ => Some (tallyUsername top, tally top)
     end)
    (fold_left (fun sum e => sum + photoCount e) weeklyStatsArray 0)
    (fold_left (fun sum e => sum + videoCount e) weeklyStatsArray 0)
    (fold_left (fun sum e => sum + documentCount e) weeklyStatsArray 0)
    (fold_left (fun sum e => sum + orZero (textCount e)) weeklyStatsArray 0)
    (map (fun t => (tallyUsername t, tally t)) (firstn 3 offenders)).

(** *** The report of [part_000] (lines 307-454) *)

Module Part000.

(** The lines [statsMessage] gets in [part_000]: no total of the documents. *)
Record Report := mkReport {
  topContributors : list (Label * nat);
  topReactor : option (Label * nat);
  totalPhotos : nat;
  totalVideos : nat;
  totalTexts : nat;
  duplicateOffenders : list (Label * nat)
}.

(** [user.username && !user.username.includes(' ') ? `@${user.username}`
    : (user.username || user.userId)], where [user.username] is a non-empty
    string or, for a document whose [username] is empty, the number
    [userId]. A number other than 0 is truthy and has no method [includes]:
    the call raises a [TypeError] ([None]). The number 0 is falsy: the display
    name is the number 0 itself, of which [escapeHtml] makes the empty
    string. Of a name the report keeps the label, without the [@] put before
    a name that has no space. *)
Definition displayName (username : Label) : option Label :=
  match username with
  | Name s => Some (Name s)
  | Id userId => if Z.eqb userId 0 then Some (Id userId) else None
  end.

(** A loop that prints one line for each element, up to the first that
    raises. *)
Fixpoint displayLines (lines : list (Label * nat)) : option (list (Label * nat)) :=
  match lines with
  | [] => Some []
  | (username, count) :: rest =>
      match displayName username with
      | Some shown =>
          match displayLines rest with
          | Some printed => Some ((shown, count) :: printed)
          | None => None
          end
      | None => None
      end
  end.

Definition generateWeeklyStats (now : Z) (st : Store) : option Report :=
  let afterMedia := fold_left (mediaLoop st) (weeklyMedia now st) ([], []) in
  let userWeeklyStats := fold_left textLoop (weeklyTextMessages now st) (fst afterMedia) in
  let weeklyStatsArray :=
    stableSort (fun a b => totalMessages a <? totalMessages b) (objectValues userWeeklyStats) in
  match displayLines (map (fun e => (username e, totalMessages e))
                          (firstn 5 weeklyStatsArray)) with
  | None => None
  | Some contributors =>
      let reactionStatsArray :=
        stableSort (fun a b => tally a <? tally b) (objectValues (snd afterMedia)) in
      match
        match reactionStatsArray with
        | [] => Some None
        | top :: _ =>
            match displayName (tallyUsername top) with
            | Some shown => Some (Some (shown, tally top))
            | None => None
            end
        end
      with
      | None => None
      | Some reactor =>
          let photos := fold_left (fun sum e => sum + photoCount e) weeklyStatsArray 0 in
          let videos := fold_left (fun sum e => sum + videoCount e) weeklyStatsArray 0 in
          let texts :=
            fold_left (fun sum e => sum + orZero (textCount e)) weeklyStatsArray 0 in
          let duplicateStats := fold_left duplicateLoop (weeklyDuplicates now st) [] in
          let offenders :=
            stableSort (fun a b => tally a <? tally b)
                       (filter (fun t => 0 <? tally t) (objectValues duplicateStats)) in
          match displayLines (map (fun t => (tallyUsername t, tally t))
                                  (firstn 3 offenders)) with
          | None => None
          | Some listed => Some (mkReport contributors reactor photos videos texts listed)
          end
      end
  end.

End Part000.

End Webhook.

(** ** Vocabulary of the statements *)

(** The number of positions at which two strings differ. *)
Fixpoint differingPositions (a b : string) : nat :=
  match a, b with
  | String x a1, String y b1 => (if Ascii.eqb x y then 0 else 1) + differingPositions a1 b1
  | _, _ => 0
  end.

(** The distance of a stored record from a query fingerprint, and whether it
    is within a threshold. *)
Definition distanceTo (hash : string) (m : Media.t) : Distance :=
  calculateHashDistance (Some hash) (Some (Media.hash m)).

Definition withinThreshold (hash : string) (threshold : nat) (m : Media.t) : bool :=
  match distanceTo hash m with
  | Finite d => d <=? threshold
  | Infinity => false
  end.

(** What the loop of [findSimilarMedia] holds after it has gone through [l]:
    nothing while no record was within the threshold, otherwise the first of
    the closest records. *)
Definition scanned (hash : string) (threshold : nat) (l : list Media.t)
    (acc : option Media.t * nat) : Prop :=
  match fst acc with
  | None =>
      snd acc = threshold + 1
      /\ forall m, In m l -> withinThreshold hash threshold m = false
  | Some r =>
      exists pre post,
        l = pre ++ r :: post
        /\ distanceTo hash r = Finite (snd acc)
        /\ snd acc <= threshold
        /\ (forall m d, In m pre -> distanceTo hash m = Finite d -> snd acc < d)
        /\ (forall m d, In m post -> distanceTo hash m = Finite d -> snd acc <= d)
  end.

(** Records stored in the order of their timestamps. *)
Fixpoint chronological (l : list Media.t) : Prop :=
  match l with
  | [] => True
  | m :: rest =>
      (forall m1, In m1 rest -> (Media.timestamp m <= Media.timestamp m1)%Z)
      /\ chronological rest
  end.

(** The bits a hexadecimal string encodes, four per character, and the
    Hamming distance of two bit strings. [digest('hex')] writes lower case. *)
Definition hexDigit (c : ascii) : option nat :=
  let n := nat_of_ascii c in
  if (48 <=? n) && (n <=? 57) then Some (n - 48)
  else if (97 <=? n) && (n <=? 102) then Some (n - 87)
  else None.

Definition nibbleBits (v : nat) : list bool :=
  [Nat.testbit v 3; Nat.testbit v 2; Nat.testbit v 1; Nat.testbit v 0].

Fixpoint hexBits (s : string) : list bool :=
  match s with
  | EmptyString => []
  | String c rest =>
      match hexDigit c with
      | Some v => nibbleBits v
      | None => []
      end ++ hexBits rest
  end.

Fixpoint isHex (s : string) : bool :=
  match s with
  | EmptyString => true
  | String c rest =>
      match hexDigit c with
      | Some _ => isHex rest
      | None => false
      end
  end.

Fixpoint bitDistance (a b : list bool) : nat :=
  match a, b with
  | x :: a1, y :: b1 => (if Bool.eqb x y then 0 else 1) + bitDistance a1 b1
  | _, _ => 0
  end.

(** Counting the outcomes of a run, per user. *)
Definition sentBy (uid : Z) (ev : Event) : bool := Z.eqb (Msg.from_id (msg ev)) uid.

Definition isStored (kind : option MediaType) (o : Outcome) : bool :=
  match o with
  | Stored record =>
      match kind with
      | Some mt => MediaType_eqb (Media.mediaType record) mt
      | None => true
      end
  | _ => false
  end.

Definition isCountedText (o : Outcome) : bool :=
  match o with
  | CountedText => true
  | _ => false
  end.

Definition isDuplicate (o : Outcome) : bool :=
  match o with
  | DuplicateNotice _ _ _ => true
  | _ => false
  end.

Definition countOf (uid : Z) (which : Outcome -> bool) (trace : list (Event * Outcome)) : nat :=
  List.length (filter (fun eo => sentBy uid (fst eo) && which (snd eo)) trace).

(** A counter of a user's [userStats] document, 0 while the document or the
    field does not exist. *)
Definition statOf (field : UserStats.t -> option nat) (db : Db) (uid : Z) : nat :=
  match findOneUser uid (userStats db) with
  | Some u => orZero (field u)
  | None => 0
  end.

(** How much the six counters of a user grew between two states. *)
Definition countersGained (before after : Db) (uid : Z)
    (photos videos documents texts duplicates total : nat) : Prop :=
  statOf UserStats.photoCount after uid = statOf UserStats.photoCount before uid + photos
  /\ statOf UserStats.videoCount after uid = statOf UserStats.videoCount before uid + videos
  /\ statOf UserStats.documentCount after uid
     = statOf UserStats.documentCount before uid + documents
  /\ statOf UserStats.textCount after uid = statOf UserStats.textCount before uid + texts
  /\ statOf UserStats.duplicatesPosted after uid
     = statOf UserStats.duplicatesPosted before uid + duplicates
  /\ statOf UserStats.totalMessages after uid
     = statOf UserStats.totalMessages before uid + total.

(** A truth value as the number it adds to a count. *)
Definition oneIf (b : bool) : nat := if b then 1 else 0.

(** The records and the duplicate entries a run has written, in order. *)
Definition storedRecords (trace : list (Event * Outcome)) : list Media.t :=
  flat_map (fun eo => match snd eo with
                      | Stored record => [record]
                      | _ => []
                      end) trace.

Definition duplicateEntries (trace : list (Event * Outcome)) : list DuplicateEntry.t :=
  flat_map (fun eo => match snd eo with
                      | DuplicateNotice _ _ _ =>
                          [DuplicateEntry.mk (Msg.from_id (msg (fst eo)))
                                             (senderName (msg (fst eo))) (now (fst eo))]
                      | _ => []
                      end) trace.

(** Every stored record was new when it was stored: the lookup over the
    records before it found nothing for its fingerprint and media type. *)
Inductive storedWhenNew : list Media.t -> Prop :=
| storedWhenNew_nil : storedWhenNew []
| storedWhenNew_snoc (stored : list Media.t) (record : Media.t) :
    storedWhenNew stored ->
    findSimilarMedia (mkDb stored [] []) (Media.hash record) (Media.mediaType record)
                     defaultSimilarityThreshold = None ->
    storedWhenNew (stored ++ [record]).

(** A record as it would be had it been posted in another chat. *)
Definition inChat (rename : Z -> Z) (m : Media.t) : Media.t :=
  Media.mk (Media.hash m) (Media.originalMessageId m) (Media.userId m) (Media.username m)
           (Media.mediaType m) (Media.timestamp m) (rename (Media.chatId m)).

(** The fields [totalMessages] and [duplicatesPosted] of a user's document as
    they are stored: [None] while the user has no document, a field [None]
    while the document has no such field. *)
Definition storedCounters (db : Db) (uid : Z) : option (option nat * option nat) :=
  option_map (fun u => (UserStats.totalMessages u, UserStats.duplicatesPosted u))
             (findOneUser uid (userStats db)).

(** What [updateUserStatistics] and [trackDuplicate] make of them. *)
Definition messageCounted (counters : option (option nat * option nat))
    : option (option nat * option nat) :=
  match counters with
  | None => Some (Some 1, Some 0)
  | Some (total, duplicates) => Some (inc total, duplicates)
  end.

Definition duplicateCounted (counters : option (option nat * option nat))
    : option (option nat * option nat) :=
  match counters with
  | None => Some (None, Some 1)
  | Some (total, duplicates) => Some (total, inc duplicates)
  end.

(** The two fields after [accepted] counted messages and [duplicates]
    duplicates, in whatever order. *)
Definition countersAfter (accepted duplicates : nat) : option (option nat * option nat) :=
  if accepted + duplicates =? 0 then None
  else Some (if accepted =? 0 then None else Some accepted, Some duplicates).


(** ** Sample data *)

(** A 64-character hexadecimal string that starts with [prefix]. *)
Fixpoint zeros (n : nat) : string :=
  match n with
  | 0 => EmptyString
  | S k => String "0" (zeros k)
  end.

Definition pad64 (prefix : string) : string :=
  (prefix ++ zeros (64 - String.length prefix))%string.

(** Stand-ins for the two hashing libraries, to run the handler on concrete
    events: a buffer decodes as an image unless it is empty or starts with
    the byte [0xff]; the fingerprint of an image spells its first 32 bytes in
    hexadecimal, the digest of a buffer its first 31 bytes after a ["d5"]. *)
Definition hexChar (n : nat) : ascii :=
  ascii_of_nat (if n <? 10 then 48 + n else 87 + n).

Definition hexOfByte (b : Byte.byte) : string :=
  let n := nat_of_ascii (ascii_of_byte b) in
  String (hexChar (n / 16)) (String (hexChar (n mod 16)) EmptyString).

Definition hexOfBytes (bytes : list Byte.byte) : string :=
  concat EmptyString (map hexOfByte bytes).

Definition sampleImageHash (media : Buffer) (bits : nat) (precise : bool) : option string :=
  match media with
  | [] => None
  | b :: _ => if Byte.eqb b Byte.xff then None else Some (pad64 (hexOfBytes (firstn 32 media)))
  end.

Definition sampleDigest (media : Buffer) : string :=
  pad64 ("d5" ++ hexOfBytes (firstn 31 media))%string.

Definition sampleMsg (chat user message : Z) : Msg.t :=
  Msg.mk chat user (Some "user"%string) "User"%string None message None None None None.

Definition withText (t : string) (m : Msg.t) : Msg.t :=
  Msg.mk (Msg.chat_id m) (Msg.from_id m) (Msg.from_username m) (Msg.first_name m)
         (Msg.last_name m) (Msg.message_id m) (Some t) None None None.

Definition withPhoto (file_id : string) (m : Msg.t) : Msg.t :=
  Msg.mk (Msg.chat_id m) (Msg.from_id m) (Msg.from_username m) (Msg.first_name m)
         (Msg.last_name m) (Msg.message_id m) None (Some [file_id]) None None.

Definition withVideo (file_id : string) (m : Msg.t) : Msg.t :=
  Msg.mk (Msg.chat_id m) (Msg.from_id m) (Msg.from_username m) (Msg.first_name m)
         (Msg.last_name m) (Msg.message_id m) None None (Some file_id) None.

Definition withDocument (file_id mime_type : string) (m : Msg.t) : Msg.t :=
  Msg.mk (Msg.chat_id m) (Msg.from_id m) (Msg.from_username m) (Msg.first_name m)
         (Msg.last_name m) (Msg.message_id m) None None None (Some (file_id, Some mime_type)).

Definition samplePhoto (hash : string) (user timestamp : Z) : Media.t :=
  Media.mk hash 1 user "user"%string Photo timestamp (-100).

(** ** Vocabulary of the further properties *)

(** Whether a stored record answers a query: an image query is answered by an
    image record within the default threshold, any other query by a record,
    of whatever media type, with the very same fingerprint. *)
Definition matches (fingerprint : string) (mediaType : MediaType) (m : Media.t) : bool :=
  if isPerceptualType mediaType
  then isPerceptualType (Media.mediaType m)
       && withinThreshold fingerprint defaultSimilarityThreshold m
  else String.eqb (Media.hash m) fingerprint.


Definition duplicatesOf (uid : Z) (l : list DuplicateEntry.t) : list DuplicateEntry.t :=
  filter (fun d => Z.eqb (DuplicateEntry.userId d) uid) l.

(** The records of one media type. *)
Definition recordsOfType (mediaType : MediaType) (l : list Media.t) : list Media.t :=
  filter (fun m => MediaType_eqb (Media.mediaType m) mediaType) l.

(** A list of numbers that never goes up. *)
Fixpoint nonIncreasing (l : list nat) : Prop :=
  match l with
  | [] => True
  | x :: rest => (forall y, In y rest -> y <= x) /\ nonIncreasing rest
  end.

(** One document's six counters are each at least another's. *)
Definition countersAtLeast (u u1 : UserStats.t) : Prop :=
  orZero (UserStats.photoCount u) <= orZero (UserStats.photoCount u1)
  /\ orZero (UserStats.videoCount u) <= orZero (UserStats.videoCount u1)
  /\ orZero (UserStats.documentCount u) <= orZero (UserStats.documentCount u1)
  /\ orZero (UserStats.textCount u) <= orZero (UserStats.textCount u1)
  /\ orZero (UserStats.duplicatesPosted u) <= orZero (UserStats.duplicatesPosted u1)
  /\ orZero (UserStats.totalMessages u) <= orZero (UserStats.totalMessages u1).

(** The one kind of write the handler makes on [userStats]: the sender's
    document is rewritten by [f], or [init] is appended when there is none. *)
Definition writtenFor (sender : Z) (f : UserStats.t -> UserStats.t) (init : UserStats.t)
    (before : list UserStats.t) : list UserStats.t :=
  match findOneUser sender before with
  | Some _ => updateOneUser sender f before
  | None => before ++ [init]
  end.

(** ** escapeMarkdown ([src/bot.js], lines 78-99) and escapeHtml
    ([src/unnamed/part_000], lines 165-173) *)

(** [text.replace(/c/g, replacement)] for a pattern that is one character. *)
Fixpoint replaceAll (c : ascii) (replacement text : string) : string :=
  match text with
  | EmptyString => EmptyString
  | String x rest =>
      if Ascii.eqb x c
      then (replacement ++ replaceAll c replacement rest)%string
      else String x (replaceAll c replacement rest)
  end.

(** A chain of such calls, each applied to the result of the one before. *)
Definition replaceChain (rules : list (ascii * string)) (text : string) : string :=
  fold_left (fun replaced rule => replaceAll (fst rule) (snd rule) replaced) rules text.

Definition markdownRules : list (ascii * string) :=
  [("_"%char, "\_"%string); ("*"%char, "\*"%string); ("["%char, "\["%string);
   ("]"%char, "\]"%string); ("("%char, "\("%string); (")"%char, "\)"%string);
   ("~"%char, "\~"%string); ("`"%char, "\`"%string); (">"%char, "\>"%string);
   ("#"%char, "\#"%string); ("+"%char, "\+"%string); ("="%char, "\="%string);
   ("|"%char, "\|"%string); ("{"%char, "\{"%string); ("}"%char, "\}"%string);
   ("."%char, "\."%string); ("!"%char, "\!"%string); ("-"%char, "\-"%string)].

(** [text] is a string: the callers pass a user name ([if (!text) return '']
    answers the empty one). *)
Definition escapeMarkdown (text : string) : string :=
  if truthy (Some text) then replaceChain markdownRules text else EmptyString.

(** The double quote, which a string literal cannot hold here. *)
Definition doubleQuote : ascii := ascii_of_nat 34.

Definition htmlRules : list (ascii * string) :=
  [("&"%char, "&amp;"%string); ("<"%char, "&lt;"%string); (">"%char, "&gt;"%string);
   (doubleQuote, "&quot;"%string); ("'"%char, "&#39;"%string)].

Definition escapeHtml (text : string) : string :=
  if truthy (Some text) then replaceChain htmlRules text else EmptyString.

(** One pass over the text that rewrites each character by the first rule
    for it; and whether a character occurs in a text. *)
Fixpoint substitute (rules : list (ascii * string)) (text : string) : string :=
  match text with
  | EmptyString => EmptyString
  | String x rest =>
      match find (fun rule => Ascii.eqb (fst rule) x) rules with
      | Some rule => (snd rule ++ substitute rules rest)%string
      | None => String x (substitute rules rest)
      end
  end.

Fixpoint occurs (c : ascii) (text : string) : bool :=
  match text with
  | EmptyString => false
  | String x rest => Ascii.eqb x c || occurs c rest
  end.

(** How many characters of a text have a rule. *)
Fixpoint ruledCharacters (rules : list (ascii * string)) (text : string) : nat :=
  match text with
  | EmptyString => 0
  | String x rest =>
      (if existsb (fun rule => Ascii.eqb (fst rule) x) rules then 1 else 0)
      + ruledCharacters rules rest
  end.

(** The rules of a chain that can be run as one pass. *)
Fixpoint independentRules (earlier later : list (ascii * string)) : Prop :=
  match later with
  | [] => True
  | (c, replacement) :: rest =>
      (forall rule, In rule earlier ->
                    Ascii.eqb (fst rule) c = false /\ occurs c (snd rule) = false)
      /\ independentRules (earlier ++ [(c, replacement)]) rest
  end.

(** ** The webhook scripts ([src/unnamed/part_000] and [src/unnamed/part_001])

    The two scripts share [hashMedia], [calculateHashDistance],
    [findSimilarMedia], [updateUserStatistics] and [trackDuplicate] with
    [src/bot.js], except that [hashMedia] hands image-hash a temporary file
    holding the bytes, and that [trackDuplicate] inserts into the collection
    [duplicates]. They keep two more collections, [textMessages] and
    [messageReactions]. *)

Module WebhookBot.

Inductive Script := Part000 | Part001.

Record State := mkState {
  stats : list UserStats.t;
  store : Webhook.Store
}.

Definition emptyState : State := mkState [] (Webhook.mkStore [] [] [] []).

(** The three collections the shared functions read and write, with
    [duplicates] in the place of [duplicateTracking]. *)
Definition dbOf (st : State) : Db :=
  mkDb (Webhook.media (store st)) (stats st) (Webhook.duplicates (store st)).

Definition withDb (st : State) (db : Db) : State :=
  mkState (userStats db)
          (Webhook.mkStore (media db) (Webhook.textMessages (store st))
                           (duplicateTracking db) (Webhook.messageReactions (store st))).

(** *** Reactions ([part_000], lines 772-889; [part_001], lines 588-680)

    Of a [messageReactions] document the scripts read [totalReactions] only
    (and [/debug_reactions] the five latest documents); [reactions] and
    [lastUpdated] are left out. *)

(** An element of [new_reaction] or of [reactions], by its [total_count]
    field, which the reaction of a single user does not have. The callback of
    [reduce] in [updateMessageReactions] of [part_000]: *)
Definition addReaction (sum : nat) (total_count : option nat) : nat :=
  match total_count with
  | Some (S n) => sum + S n
  | _ => sum + 1
  end.

Definition totalReactionsOf (script : Script) (reactions : list (option nat)) : nat :=
  match script with
  | Part000 => fold_left addReaction reactions 0
  | Part001 => List.length reactions
  end.

(** [updateOne({ chatId, messageId }, { $set: { totalReactions, ... } },
    { upsert: true })] *)
Fixpoint setTotalReactions (chatId messageId : Z) (totalReactions : nat)
    (documents : list Webhook.Reaction.t) : list Webhook.Reaction.t :=
  match documents with
  | [] => [Webhook.Reaction.mk chatId messageId totalReactions]
  | r :: rest =>
      if Z.eqb (Webhook.Reaction.chatId r) chatId
         && Z.eqb (Webhook.Reaction.messageId r) messageId
      then Webhook.Reaction.mk (Webhook.Reaction.chatId r) (Webhook.Reaction.messageId r)
                               totalReactions :: rest
      else r :: setTotalReactions chatId messageId totalReactions rest
  end.

Definition withReactions (st : Webhook.Store) (documents : list Webhook.Reaction.t)
    : Webhook.Store :=
  Webhook.mkStore (Webhook.media st) (Webhook.textMessages st) (Webhook.duplicates st)
                  documents.

Definition updateMessageReactions (script : Script) (st : Webhook.Store)
    (chatId messageId : Z) (reactions : list (option nat)) : Webhook.Store :=
  withReactions st
    (setTotalReactions chatId messageId (totalReactionsOf script reactions)
                       (Webhook.messageReactions st)).

(** [x || []] *)
Definition orEmpty {A : Type} (x : option (list A)) : list A :=
  match x with
  | Some l => l
  | None => []
  end.

(** [bot.on('message_reaction', ...)] *)
Definition onMessageReaction (script : Script) (st : Webhook.Store)
    (chatId messageId : Z) (new_reaction : option (list (option nat))) : Webhook.Store :=
  updateMessageReactions script st chatId messageId (orEmpty new_reaction).

(** [bot.on('message_reaction_count', ...)]; every element of [reactions]
    has a [total_count]. *)
Definition onMessageReactionCount (st : Webhook.Store)
    (chatId messageId : Z) (reactions : option (list nat)) : Webhook.Store :=
  let totalReactions := fold_left (fun sum total_count => sum + total_count)
                                  (orEmpty reactions) 0 in
  withReactions st
    (setTotalReactions chatId messageId totalReactions (Webhook.messageReactions st)).

(** *** generatePetushokStats ([part_000], lines 457-505) *)

Definition petushokLoop (st : Webhook.Store) (userReactionStats : list (Z * Webhook.Tally))
    (m : Media.t) : list (Z * Webhook.Tally) :=
  let uid := Media.userId m in
  let name := labelOf (Media.username m) uid in
  let reactionCount :=
    Webhook.getMessageReactions st (Media.chatId m) (Media.originalMessageId m) in
  if 0 <? reactionCount
  then Webhook.touch uid (Webhook.mkTally uid name 0) (Webhook.addTally reactionCount)
                     userReactionStats
  else userReactionStats.

(** What the function resolves: [Some (Some (name, count))] for the message
    that names the top reactor, [Some None] for the message that nobody has
    got reactions this week, and [None] when it raises: the name is printed
    as in the report of [part_000], with [includes] called on it. *)
Definition generatePetushokStats (now : Z) (st : Webhook.Store)
    : option (option (Label * nat)) :=
  let userReactionStats := fold_left (petushokLoop st) (Webhook.weeklyMedia now st) [] in
  let reactionStatsArray :=
    stableSort (fun a b => Webhook.tally a <? Webhook.tally b)
               (Webhook.objectValues userReactionStats) in
  match reactionStatsArray with
  | [] => Some None
  | topReactor :: _ =>
      match Webhook.Part000.displayName (Webhook.tallyUsername topReactor) with
      | Some shown => Some (Some (shown, Webhook.tally topReactor))
      | None => None
      end
  end.

(** *** The message handler ([part_000], lines 530-769; [part_001], lines
    459-586) *)

Inductive Command :=
| StatsCommand
| PetushokCommand
| HelpCommand
| DebugReactionsCommand
| WebhookInfoCommand
| GroupInfoCommand.

(** The commands a script answers before it returns. *)
Definition answeredCommand (script : Script) (m : Msg.t) : option Command :=
  match Msg.text m with
  | Some t =>
      if isCommand m then
        let command := commandOf t in
        match script with
        | Part000 =>
            if String.eqb command "stats" then Some StatsCommand
            else if String.eqb command "petushok" then Some PetushokCommand
            else if String.eqb command "help" then Some HelpCommand
            else if String.eqb command "debug_reactions" then Some DebugReactionsCommand
            else if String.eqb command "webhook_info" then Some WebhookInfoCommand
            else if String.eqb command "group_info" then Some GroupInfoCommand
            else None
        | Part001 =>
            if String.eqb command "stats" then Some StatsCommand
            else if String.eqb command "help" then Some HelpCommand
            else None
        end
      else None
  | None => None
  end.

(** [ReportRaised]: [generateWeeklyStats] or [generatePetushokStats] of
    [part_000] raised, the handler's [catch] logs the error and nothing is
    sent. *)
Inductive Outcome :=
| Ignored
| Threw
| RepliedStats (statsMessage : Webhook.Report)
| RepliedStats000 (statsMessage : Webhook.Part000.Report)
| RepliedPetushok (topReactor : option (Label * nat))
| ReportRaised
| RepliedHelp
| RepliedDebugReactions (reactionCount : nat)
| RepliedWebhookInfo
| RepliedGroupInfo
| DuplicateNotice (mediaType : MediaType) (existingMedia : Media.t) (reply_to_message_id : Z)
| Stored (record : Media.t)
| LoggedText (entry : Webhook.TextMessage.t)
| CountedTextThenThrew.

(** The two branches after [findSimilarMedia] has answered. *)
Definition settleMedia (st : State) (ev : Event) (mediaHash : string)
    (mediaType : MediaType) (existingMedia : option Media.t) : State * Outcome :=
  let userId := Msg.from_id (msg ev) in
  let username := senderName (msg ev) in
  let db := dbOf st in
  match existingMedia with
  | Some existing =>
      (withDb st (trackDuplicate db userId username (now ev)),
       DuplicateNotice mediaType existing (Msg.message_id (msg ev)))
  | None =>
      let record := Media.mk mediaHash (Msg.message_id (msg ev)) userId username
                             mediaType (now ev) (Msg.chat_id (msg ev)) in
      (withDb st (updateUserStatistics
                    (mkDb (media db ++ [record]) (userStats db) (duplicateTracking db))
                    userId username mediaType (now ev)),
       Stored record)
  end.

(** [db.collection('textMessages').insertOne(...)] *)
Definition logText (st : State) (entry : Webhook.TextMessage.t) : State :=
  mkState (stats st)
          (Webhook.mkStore (Webhook.media (store st))
                           (Webhook.textMessages (store st) ++ [entry])
                           (Webhook.duplicates (store st))
                           (Webhook.messageReactions (store st))).

Section Handler.

(** [imageHash media bits precise] is what image-hash answers for the
    temporary file the scripts write [media] to. *)
Variable imageHash : Buffer -> nat -> bool -> option string.
Variable sha256hex : Buffer -> string.

(** In [part_001] the handler declares [const db] inside the block of
    [if (mediaFileId)]: in the branch of a text message [db] is not defined,
    so [db.collection('textMessages')] raises a [ReferenceError] after
    [updateUserStatistics] has run, and the handler's [catch] logs it. *)
Definition processContent (script : Script) (st : State) (ev : Event) : State * Outcome :=
  let m := msg ev in
  if hasMedia m then
    match pickMedia m with
    | Raises => (st, Threw)
    | NoFile => (st, Ignored)
    | File mediaFileId mediaType =>
        if truthy (Some mediaFileId) then
          let mediaHash := hashMedia imageHash sha256hex (mediaBuffer ev) mediaType in
          settleMedia st ev mediaHash mediaType
            (findSimilarMedia (dbOf st) mediaHash mediaType defaultSimilarityThreshold)
        else (st, Ignored)
    end
  else if isPlainText m then
    let counted :=
      withDb st (updateUserStatistics (dbOf st) (Msg.from_id m) (senderName m) Text (now ev)) in
    match script with
    | Part000 =>
        let entry := Webhook.TextMessage.mk (Msg.from_id m) (senderName m)
                                            (Msg.message_id m) (now ev) (Msg.chat_id m) in
        (logText counted entry, LoggedText entry)
    | Part001 => (counted, CountedTextThenThrew)
    end
  else (st, Ignored).

(** [bot.on('message', async (msg) => { ... })] *)
Definition onMessage (script : Script) (st : State) (ev : Event) : State * Outcome :=
  if negb (chatIsGroup ev) && negb (isCommand (msg ev)) then (st, Ignored)
  else
    match answeredCommand script (msg ev) with
    | Some StatsCommand =>
        match script with
        | Part000 =>
            match Webhook.Part000.generateWeeklyStats (now ev) (store st) with
            | Some statsMessage => (st, RepliedStats000 statsMessage)
            | None => (st, ReportRaised)
            end
        | Part001 => (st, RepliedStats (Webhook.generateWeeklyStats (now ev) (store st)))
        end
    | Some PetushokCommand =>
        match generatePetushokStats (now ev) (store st) with
        | Some petushokMessage => (st, RepliedPetushok petushokMessage)
        | None => (st, ReportRaised)
        end
    | Some HelpCommand => (st, RepliedHelp)
    | Some DebugReactionsCommand =>
        (st, RepliedDebugReactions (List.length (Webhook.messageReactions (store st))))
    | Some WebhookInfoCommand => (st, RepliedWebhookInfo)
    | Some GroupInfoCommand => (st, RepliedGroupInfo)
    | None => processContent script st ev
    end.

Fixpoint run (script : Script) (st : State) (events : list Event)
    : State * list (Event * Outcome) :=
  match events with
  | [] => (st, [])
  | ev :: rest =>
      let (st1, outcome) := onMessage script st ev in
      let (st2, trace) := run script st1 rest in
      (st2, (ev, outcome) :: trace)
  end.

End Handler.

End WebhookBot.

(** A message as the platform sends it carries text or a file, never both (a
    file comes with a caption); what matters here is that no command comes
    with a file. *)
Definition textOrMedia (ev : Event) : bool :=
  negb (hasMedia (msg ev)) || negb (isCommand (msg ev)).

(** The text messages logged for a user. *)
Definition textsOf (uid : Z) (l : list Webhook.TextMessage.t) : list Webhook.TextMessage.t :=
  filter (fun t => Z.eqb (Webhook.TextMessage.userId t) uid) l.

(** The reaction count stored for the message of a record, and the sum of
    these counts over the records of a user in a list. *)
Definition reactionsOf (st : Webhook.Store) (m : Media.t) : nat :=
  Webhook.getMessageReactions st (Media.chatId m) (Media.originalMessageId m).

Definition reactionsFor (st : Webhook.Store) (uid : Z) (l : list Media.t) : nat :=
  list_sum (map (reactionsOf st) (filter (fun m => Z.eqb (Media.userId m) uid) l)).

(** What [userReactionStats] holds after the loop has run over [l]. *)
Definition tallied (st : Webhook.Store) (l : list Media.t)
    (table : list (Z * Webhook.Tally)) : Prop :=
  NoDup (map fst table)
  /\ forall k,
       match find (fun kv => Z.eqb (fst kv) k) table with
       | Some (k1, t) =>
           k1 = k /\ Webhook.tally t = reactionsFor st k l /\ 0 < Webhook.tally t
           /\ exists m, In m l /\ Media.userId m = k
                        /\ Webhook.tallyUsername t = labelOf (Media.username m) k
       | None => reactionsFor st k l = 0
       end.

(** ** Vocabulary for the webhook scripts *)

(** The outcome of [src/bot.js] that stands for the same writes on [media],
    [userStats] and the duplicate entries. *)
Definition asBotJs (o : WebhookBot.Outcome) : Outcome :=
  match o with
  | WebhookBot.Threw => Threw
  | WebhookBot.DuplicateNotice mediaType existing reply_to =>
      DuplicateNotice mediaType existing reply_to
  | WebhookBot.Stored record => Stored record
  | WebhookBot.LoggedText _ | WebhookBot.CountedTextThenThrew => CountedText
  | _ => Ignored
  end.

(** The document [part_000] inserts into [textMessages] for a message. *)
Definition textEntry (ev : Event) : Webhook.TextMessage.t :=
  Webhook.TextMessage.mk (Msg.from_id (msg ev)) (senderName (msg ev))
                         (Msg.message_id (msg ev)) (now ev) (Msg.chat_id (msg ev)).

(** The text messages a run has logged, in order. *)
Definition loggedTexts (trace : list (Event * WebhookBot.Outcome))
    : list Webhook.TextMessage.t :=
  flat_map (fun eo => match snd eo with
                      | WebhookBot.LoggedText entry => [entry]
                      | _ => []
                      end) trace.

(** An outcome of [src/bot.js] by its writes alone: a reply writes nothing. *)
Definition written (o : Outcome) : Outcome :=
  match o with
  | RepliedStats _ | RepliedHelp => Ignored
  | _ => o
  end.

(** [src/bot.js] hands image-hash the buffer, the webhook scripts a temporary
    file that holds the bytes: two calls, [imageHashBuffer] and
    [imageHashFile], whose answers can differ. Whether they give a message
    the handler takes up the same fingerprint: *)
Definition sameFingerprint (imageHashBuffer imageHashFile : Buffer -> nat -> bool -> option string)
    (sha256hex : Buffer -> string) (ev : Event) : bool :=
  match postedKind ev with
  | Some mediaType =>
      String.eqb (hashMedia imageHashBuffer sha256hex (mediaBuffer ev) mediaType)
                 (hashMedia imageHashFile sha256hex (mediaBuffer ev) mediaType)
  | None => true
  end.

(** A text that is no command, without a file, in a group or supergroup. *)
Definition plainTextInGroup (ev : Event) : bool :=
  chatIsGroup ev && negb (hasMedia (msg ev)) && isPlainText (msg ev).

(** The name a table of the report keeps for a user: [doc.username || userId]
    of the first document of that user the loops meet. *)
Definition firstName (uid : Z) (documents : list (Z * string)) : Label :=
  match find (fun d => Z.eqb (fst d) uid) documents with
  | Some d => labelOf (snd d) uid
  | None => Id uid
  end.

(** The users and names of the documents of the last seven days, in the
    order of the loops: the records, then the text messages; and those of
    the duplicate entries. *)
Definition weeklyPosters (now : Z) (st : Webhook.Store) : list (Z * string) :=
  map (fun m => (Media.userId m, Media.username m)) (Webhook.weeklyMedia now st)
  ++ map (fun t => (Webhook.TextMessage.userId t, Webhook.TextMessage.username t))
         (Webhook.weeklyTextMessages now st).

Definition weeklyOffenders (now : Z) (st : Webhook.Store) : list (Z * string) :=
  map (fun d => (DuplicateEntry.userId d, DuplicateEntry.username d))
      (Webhook.weeklyDuplicates now st).

(** A document without a name of a user whose number is not 0: the one kind
    of document over whose user [part_000] can raise. *)
Definition unnamed (d : Z * string) : bool :=
  negb (truthy (Some (snd d))) && negb (Z.eqb (fst d) 0).

(** Whether printing a name raises in [part_000], whether one of the names of
    a report does, and the lines [part_000] prints of a report. *)
Definition nameRaises (name : Label) : bool :=
  match Webhook.Part000.displayName name with
  | Some _ => false
  | None => true
  end.

Definition reportRaises (report : Webhook.Report) : bool :=
  existsb (fun line => nameRaises (fst line)) (Webhook.topContributors report)
  || match Webhook.topReactor report with
     | Some (name, _) => nameRaises name
     | None => false
     end
  || existsb (fun line => nameRaises (fst line)) (Webhook.duplicateOffenders report).

Definition printed000 (report : Webhook.Report) : Webhook.Part000.Report :=
  Webhook.Part000.mkReport
    (Webhook.topContributors report) (Webhook.topReactor report)
    (Webhook.totalPhotos report) (Webhook.totalVideos report) (Webhook.totalTexts report)
    (Webhook.duplicateOffenders report).

(** A ranking of at most [n] lines by a count per user. The lines are those
    of distinct users, each with that user's name and that user's count; the
    counts never go up and are above 0; and a user with a count above 0 is
    left out only when the [n] lines are taken by users who count at least
    as much. *)
Definition ranking (name : Z -> Label) (count : Z -> nat) (n : nat)
    (lines : list (Label * nat)) : Prop :=
  exists users,
    NoDup users
    /\ List.length users <= n
    /\ lines = map (fun uid => (name uid, count uid)) users
    /\ nonIncreasing (map count users)
    /\ (forall uid, In uid users -> 0 < count uid)
    /\ (forall uid, ~ In uid users -> 0 < count uid ->
          List.length users = n
          /\ forall listed, In listed users -> count uid <= count listed).

(** ** isGroup (lines 280-288) and the weekly job ([src/bot.js], lines 422-465) *)

(** [chat.type] *)
Inductive ChatType := PrivateChat | GroupChat | SupergroupChat | ChannelChat.

(** Where a report is sent: to a [chatId] read from [media], or to the
    configured [groupId], the string of the environment. *)
Inductive Target := ToChat (chatId : Z) | ToConfigured (groupId : string).

Section WeeklyJob.

(** [getChat chatId] is the type of the chat [bot.getChat] resolves, [None]
    when the call throws; [parseInt] is the built-in function, [None] for
    [NaN]. *)
Variable getChat : Z -> option ChatType.
Variable parseInt : string -> option Z.

Definition isGroup (chatId : Z) : bool :=
  match getChat chatId with
  | Some GroupChat | Some SupergroupChat => true
  | _ => false
  end.

(** [db.collection('media').distinct('chatId')]; the order of the values is
    the store's. *)
Definition uniqueChats (db : Db) : list Z := nodup Z.eq_dec (map Media.chatId (media db)).

(** [uniqueChats.includes(parseInt(groupId))]; [uniqueChats.includes(groupId)]
    is false, a string being no element of an array of numbers. *)
Definition includesConfigured (db : Db) (groupId : string) : bool :=
  match parseInt groupId with
  | Some n => existsb (Z.eqb n) (uniqueChats db)
  | None => false
  end.

(** The messages the job sends, in order, each with its report.
    [generateWeeklyStats] takes no parameter: the [chatId] it is called with
    is dropped. *)
Definition weeklyJob (groupId : option string) (db : Db) : list (Target * Report) :=
  flat_map (fun chatId =>
              if isGroup chatId then [(ToChat chatId, generateWeeklyStats db)] else [])
           (uniqueChats db)
  ++ match groupId with
     | Some g =>
         if truthy (Some g) && negb (includesConfigured db g)
         then [(ToConfigured g, generateWeeklyStats db)]
         else []
     | None => []
     end.

End WeeklyJob.

(** The chat a message of the job goes to; [resolve] is the chat the platform
    takes a configured id for (the chat of that number, or the chat of that
    public name). *)
Definition chatOf (resolve : string -> Z) (target : Target) : Z :=
  match target with
  | ToChat chatId => chatId
  | ToConfigured groupId => resolve groupId
  end.

(** ** The two older scripts ([src/unnamed/part_002])

    The file holds two scripts: the first (lines 1-267) serves a channel, the
    second (lines 268-619) groups. Both fingerprint every file with SHA-256
    and look a fingerprint up by equality; [updateUserStatistics],
    [trackDuplicate] and [generateWeeklyStats] are those of [src/bot.js]. *)

Module Legacy.

(** [chatId.toString()], for the integers that print without an exponent. *)
Definition decimal (z : Z) : string := NilZero.string_of_int (Z.to_int z).

(** What the handler of the second script does: what [src/bot.js] can do, or
    the answer to [/stats] from a user who is no administrator. *)
Inductive GroupOutcome :=
| Answered (outcome : Outcome)
| RefusedStats.

Section Handler.

(** [isAdmin chatId userId] is what [isAdmin(chatId, userId)] resolves. *)
Variable sha256hex : Buffer -> string.
Variable isAdmin : Z -> Z -> bool.

Definition hashMedia (media : Buffer) : string := sha256hex media.

(** [db.collection('media').findOne({ hash: mediaHash })] *)
Definition findByHash (db : Db) (mediaHash : string) : option Media.t :=
  find (fun m => String.eqb (Media.hash m) mediaHash) (media db).

(** The block of [if (msg.photo || msg.video || msg.document)]. *)
Definition processMedia (db : Db) (ev : Event) : Db * Outcome :=
  match pickMedia (msg ev) with
  | Raises => (db, Threw)
  | NoFile => (db, Ignored)
  | File mediaFileId mediaType =>
      if truthy (Some mediaFileId) then
        let mediaHash := hashMedia (mediaBuffer ev) in
        settleMedia db ev mediaHash mediaType (findByHash db mediaHash)
      else (db, Ignored)
  end.

(** The handler of the first script (lines 176-245): no chat is excluded, no
    command is answered, and [else if (msg.text)] takes every text. *)
Definition onChannelMessage (db : Db) (ev : Event) : Db * Outcome :=
  let m := msg ev in
  if hasMedia m then processMedia db ev
  else if truthy (Msg.text m) then
    (updateUserStatistics db (Msg.from_id m) (senderName m) Text (now ev), CountedText)
  else (db, Ignored).

(** [!(groupId && chatId.toString() !== groupId.toString())] *)
Definition inConfiguredGroup (groupId : option string) (chatId : Z) : bool :=
  negb (truthy groupId)
  || match groupId with
     | Some g => String.eqb (decimal chatId) g
     | None => false
     end.

(** The handler of the second script (lines 463-571). *)
Definition onGroupMessage (groupId : option string) (db : Db) (ev : Event)
    : Db * GroupOutcome :=
  let m := msg ev in
  if negb (chatIsGroup ev) then (db, Answered Ignored)
  else if negb (inConfiguredGroup groupId (Msg.chat_id m)) then (db, Answered Ignored)
  else
    match answeredCommand m with
    | Some StatsCommand =>
        if isAdmin (Msg.chat_id m) (Msg.from_id m)
        then (db, Answered (RepliedStats (generateWeeklyStats db)))
        else (db, RefusedStats)
    | Some HelpCommand => (db, Answered RepliedHelp)
    | None =>
        if hasMedia m then
          let (db1, outcome) := processMedia db ev in (db1, Answered outcome)
        else if isPlainText m then
          (updateUserStatistics db (Msg.from_id m) (senderName m) Text (now ev),
           Answered CountedText)
        else (db, Answered Ignored)
    end.

End Handler.

(** A handler run on a sequence of events, one after the other. *)
Fixpoint run {O : Type} (handler : Db -> Event -> Db * O) (db : Db) (events : list Event)
    : Db * list (Event * O) :=
  match events with
  | [] => (db, [])
  | ev :: rest =>
      let (db1, outcome) := handler db ev in
      let (db2, trace) := run handler db1 rest in
      (db2, (ev, outcome) :: trace)
  end.

End Legacy.

(** A message the second of the older scripts takes up. *)
Definition inScope (groupId : option string) (ev : Event) : bool :=
  chatIsGroup ev && Legacy.inConfiguredGroup groupId (Msg.chat_id (msg ev)).

(** A text without a file, a command or not. *)
Definition anyText (ev : Event) : bool :=
  negb (hasMedia (msg ev)) && truthy (Msg.text (msg ev)).

(** Whether every character of a text that has a rule in [markdownRules]
    comes right after a backslash; [previous] is the character before the
    text. *)
Fixpoint escapedAfter (previous : option ascii) (text : string) : bool :=
  match text with
  | EmptyString => true
  | String x rest =>
      (negb (existsb (fun rule => Ascii.eqb (fst rule) x) markdownRules)
       || match previous with
          | Some p => Ascii.eqb p "\"
          | None => false
          end)
      && escapedAfter (Some x) rest
  end.

(** * Properties *)

Unset Implicit Arguments.

(** ** The fingerprint distance *)

Lemma distanceStep_shift (c1 c2 : ascii) (t1 t2 : string) (l : list nat) (acc : nat) :
  fold_left (distanceStep (String c1 t1) (String c2 t2)) (map S l) acc
  = fold_left (distanceStep t1 t2) l acc.
Proof.
  revert acc; induction l as [|i l IH]; intros acc; simpl; [reflexivity|].
  now rewrite IH.
Qed.

Lemma distance_loop_counts (h1 h2 : string) (acc : nat) :
  String.length h1 = String.length h2 ->
  fold_left (distanceStep h1 h2) (seq 0 (String.length h1)) acc
  = acc + differingPositions h1 h2.
Proof.
  revert h2 acc; induction h1 as [|c1 t1 IH]; intros [|c2 t2] acc Hlen;
    simpl in Hlen; try discriminate.
  - simpl; lia.
  - injection Hlen as Hlen.
    cbn [String.length seq fold_left].
    rewrite <- seq_shift, distanceStep_shift, IH by assumption.
    unfold distanceStep; cbn [String.get strictNeq differingPositions].
    destruct (Ascii.eqb c1 c2); simpl; lia.
Qed.

Lemma calculateHashDistance_comparable (h1 h2 : string) :
  h1 <> EmptyString ->
  String.length h1 = String.length h2 ->
  calculateHashDistance (Some h1) (Some h2) = Finite (differingPositions h1 h2).
Proof.
  intros Hne Hlen. unfold calculateHashDistance.
  destruct h1 as [|c1 t1]; [congruence|].
  destruct h2 as [|c2 t2]; [discriminate|].
  cbn [truthy negb orb]. rewrite Hlen, Nat.eqb_refl. cbn [negb].
  f_equal. rewrite <- Hlen. now rewrite distance_loop_counts.
Qed.

Lemma calculateHashDistance_finite (hash1 hash2 : option string) (d : nat) :
  calculateHashDistance hash1 hash2 = Finite d ->
  exists h1 h2,
    hash1 = Some h1 /\ hash2 = Some h2 /\ h1 <> EmptyString /\ h2 <> EmptyString
    /\ String.length h1 = String.length h2 /\ d = differingPositions h1 h2.
Proof.
  unfold calculateHashDistance.
  destruct hash1 as [h1|], hash2 as [h2|]; try discriminate.
  destruct (negb (truthy (Some h1)) || negb (truthy (Some h2))
            || negb (String.length h1 =? String.length h2)) eqn:Hguard; [discriminate|].
  apply orb_false_iff in Hguard as [Hguard Hlen].
  apply orb_false_iff in Hguard as [Ht1 Ht2].
  apply negb_false_iff in Ht1, Ht2, Hlen. apply Nat.eqb_eq in Hlen.
  intros [= <-]. exists h1, h2.
  rewrite distance_loop_counts by assumption.
  repeat split; try reflexivity; try assumption.
  - destruct h1; [discriminate|congruence].
  - destruct h2; [discriminate|congruence].
Qed.

Lemma calculateHashDistance_incomparable (hash1 hash2 : option string) :
  truthy hash1 = false \/ truthy hash2 = false
  \/ (exists h1 h2, hash1 = Some h1 /\ hash2 = Some h2
                    /\ String.length h1 <> String.length h2) ->
  calculateHashDistance hash1 hash2 = Infinity.
Proof.
  unfold calculateHashDistance.
  intros [H|[H|(h1 & h2 & -> & -> & Hlen)]].
  - destruct hash1 as [h1|]; [|reflexivity]. destruct hash2; [|reflexivity].
    now rewrite H.
  - destruct hash1 as [h1|]; [|reflexivity]. destruct hash2 as [h2|]; [|reflexivity].
    rewrite H. cbn [negb]. now rewrite orb_true_r.
  - apply Nat.eqb_neq in Hlen. rewrite Hlen. cbn [negb]. now rewrite orb_true_r.
Qed.

Lemma differingPositions_refl (h : string) : differingPositions h h = 0.
Proof.
  induction h as [|c t IH]; simpl; [reflexivity|].
  now rewrite Ascii.eqb_refl.
Qed.

Lemma differingPositions_zero (h1 h2 : string) :
  String.length h1 = String.length h2 -> differingPositions h1 h2 = 0 -> h1 = h2.
Proof.
  revert h2; induction h1 as [|c1 t1 IH]; intros [|c2 t2] Hlen Hd;
    simpl in *; try discriminate; [reflexivity|].
  destruct (Ascii.eqb c1 c2) eqn:Hc; [|discriminate].
  apply Ascii.eqb_eq in Hc. subst. f_equal. apply IH; [lia|assumption].
Qed.

(** ** The similarity scan *)

Lemma scan_invariant (hash : string) (threshold : nat) (l : list Media.t) :
  scanned hash threshold l
    (fold_left (similarityStep hash threshold) l (None, threshold + 1)).
Proof.
  induction l as [|x l IH] using rev_ind.
  - simpl. split; [reflexivity|]. intros m [].
  - rewrite fold_left_app. cbn [fold_left].
    destruct (fold_left (similarityStep hash threshold) l (None, threshold + 1))
      as [best low].
    unfold scanned in IH |- *. unfold similarityStep.
    fold (distanceTo hash x). cbn [fst snd] in IH |- *.
    destruct (distanceTo hash x) as [d|] eqn:Hx.
    + destruct ((d <=? threshold) && (d <? low)) eqn:Hcmp.
      * apply andb_true_iff in Hcmp as [Hle Hlt].
        apply Nat.leb_le in Hle. apply Nat.ltb_lt in Hlt.
        cbn [fst snd]. exists l, []. repeat split; try assumption.
        -- intros m d' Hin Hm.
           destruct best as [r|].
           ++ destruct IH as (pre & post & -> & Hr & Hlow & Hpre & Hpost).
              apply in_app_or in Hin as [Hin|[<-|Hin]].
              ** specialize (Hpre _ _ Hin Hm). lia.
              ** rewrite Hr in Hm. injection Hm as <-. lia.
              ** specialize (Hpost _ _ Hin Hm). lia.
           ++ destruct IH as [-> Hnone]. specialize (Hnone _ Hin).
              unfold withinThreshold in Hnone. rewrite Hm in Hnone.
              apply Nat.leb_gt in Hnone. lia.
        -- intros m d' [].
      * cbn [fst snd]. destruct best as [r|].
        -- destruct IH as (pre & post & -> & Hr & Hlow & Hpre & Hpost).
           exists pre, (post ++ [x]). rewrite <- app_assoc. repeat split; try assumption.
           intros m d' Hin Hm. apply in_app_or in Hin as [Hin|[<-|[]]].
           ++ now apply (Hpost m).
           ++ rewrite Hx in Hm. injection Hm as <-.
              apply andb_false_iff in Hcmp as [Hcmp|Hcmp].
              ** apply Nat.leb_gt in Hcmp. lia.
              ** apply Nat.ltb_ge in Hcmp. lia.
        -- destruct IH as [-> Hnone]. split; [reflexivity|].
           intros m Hin. apply in_app_or in Hin as [Hin|[<-|[]]]; [now apply Hnone|].
           unfold withinThreshold. rewrite Hx.
           apply andb_false_iff in Hcmp as [Hcmp|Hcmp]; [assumption|].
           apply Nat.ltb_ge in Hcmp. apply Nat.leb_gt. lia.
    + cbn [fst snd]. destruct best as [r|].
      * destruct IH as (pre & post & -> & Hr & Hlow & Hpre & Hpost).
        exists pre, (post ++ [x]). rewrite <- app_assoc. repeat split; try assumption.
        intros m d' Hin Hm. apply in_app_or in Hin as [Hin|[<-|[]]].
        -- now apply (Hpost m).
        -- congruence.
      * destruct IH as [-> Hnone]. split; [reflexivity|].
        intros m Hin. apply in_app_or in Hin as [Hin|[<-|[]]]; [now apply Hnone|].
        unfold withinThreshold. now rewrite Hx.
Qed.

Lemma chronological_filter (keep : Media.t -> bool) (l : list Media.t) :
  chronological l -> chronological (filter keep l).
Proof.
  induction l as [|m l IH]; simpl; [trivial|].
  intros [Hm Hl]. destruct (keep m); simpl; [|now apply IH].
  split; [|now apply IH].
  intros m1 Hin. apply filter_In in Hin as [Hin _]. now apply Hm.
Qed.

Lemma chronological_app (pre : list Media.t) (r : Media.t) (post : list Media.t) :
  chronological (pre ++ r :: post) ->
  forall m, In m (r :: post) -> (Media.timestamp r <= Media.timestamp m)%Z.
Proof.
  induction pre as [|p pre IH]; simpl.
  - intros [Hr _] m [<-|Hin]; [lia|now apply Hr].
  - intros [_ Hrest]. now apply IH.
Qed.

(** The answer of the scan: nothing when no stored image record is within the
    threshold, otherwise the first of the closest ones. *)
Lemma findSimilarMedia_scan
    (db : Db) (hash : string) (mediaType : MediaType) (threshold : nat) :
  isPerceptualType mediaType = true ->
  match findSimilarMedia db hash mediaType threshold with
  | None => forall m, In m (perceptualMedia db) -> withinThreshold hash threshold m = false
  | Some r =>
      exists pre post d,
        perceptualMedia db = pre ++ r :: post
        /\ distanceTo hash r = Finite d
        /\ d <= threshold
        /\ (forall m d1, In m pre -> distanceTo hash m = Finite d1 -> d < d1)
        /\ (forall m d1, In m post -> distanceTo hash m = Finite d1 -> d <= d1)
  end.
Proof.
  intros Hkind. unfold findSimilarMedia. rewrite Hkind. cbn [negb].
  pose proof (scan_invariant hash threshold (perceptualMedia db)) as Hscan.
  destruct (fold_left (similarityStep hash threshold) (perceptualMedia db)
                      (None, threshold + 1)) as [best low].
  unfold scanned in Hscan. cbn [fst snd] in Hscan |- *.
  destruct best as [r|]; [|now destruct Hscan].
  destruct Hscan as (pre & post & Hsplit & Hr & Hlow & Hpre & Hpost).
  now exists pre, post, low.
Qed.

(** C1, as the code has it: for a photo or an image document the scan goes
    over all stored photo and document records and returns a record at the
    smallest distance among those within the threshold; of several records at
    that distance it returns the one stored first, which is the one posted
    earliest whenever the collection holds its records in the order of their
    timestamps. It returns nothing exactly when no such record is within the
    threshold. *)
Theorem findSimilarMedia_closest_stored_first
    (db : Db) (hash : string) (mediaType : MediaType) (threshold : nat) :
  isPerceptualType mediaType = true ->
  match findSimilarMedia db hash mediaType threshold with
  | None => forall m, In m (perceptualMedia db) -> withinThreshold hash threshold m = false
  | Some r =>
      exists pre post d,
        perceptualMedia db = pre ++ r :: post
        /\ distanceTo hash r = Finite d
        /\ d <= threshold
        /\ (forall m d1, In m pre -> distanceTo hash m = Finite d1 -> d < d1)
        /\ (forall m d1, In m post -> distanceTo hash m = Finite d1 -> d <= d1)
        /\ (chronological (media db) ->
            forall m, In m (perceptualMedia db) -> distanceTo hash m = Finite d ->
                      (Media.timestamp r <= Media.timestamp m)%Z)
  end.
Proof.
  intros Hkind.
  pose proof (findSimilarMedia_scan db hash mediaType threshold Hkind) as Hscan.
  destruct (findSimilarMedia db hash mediaType threshold) as [r|]; [|exact Hscan].
  destruct Hscan as (pre & post & d & Hsplit & Hr & Hlow & Hpre & Hpost).
  exists pre, post, d. repeat split; try assumption.
  intros Hsorted m Hin Hm.
  apply (chronological_filter (fun m => isPerceptualType (Media.mediaType m))) in Hsorted.
  fold (perceptualMedia db) in Hsorted. rewrite Hsplit in Hsorted, Hin.
  apply in_app_or in Hin as [Hin|Hin].
  - specialize (Hpre _ _ Hin Hm). lia.
  - now apply (@chronological_app pre r post Hsorted).
Qed.

(** C1, the tie: two photos as far from each other as six positions are both
    stored; the one stored first carries the later timestamp (the clock was
    set back between the two posts). A third photo three positions from both
    is reported as a duplicate of the one stored first, not of the one
    posted earliest. *)
Lemma findSimilarMedia_tie_ignores_timestamp :
  let post user message (bytes : Buffer) clock :=
    mkEvent (withPhoto "file" (sampleMsg (-100) user message)) true bytes clock in
  let first := post 1%Z 10%Z [Byte.x11; Byte.x10; Byte.x00] 2000%Z in
  let second := post 2%Z 11%Z [Byte.x00; Byte.x01; Byte.x11] 1000%Z in
  let query := pad64 "000000" in
  let storedFirst := Media.mk (pad64 "111000") 10 1 "user" Photo 2000 (-100) in
  let postedFirst := Media.mk (pad64 "000111") 11 2 "user" Photo 1000 (-100) in
  let db := fst (run sampleImageHash sampleDigest emptyDb [first; second]) in
  media db = [storedFirst; postedFirst]
  /\ distanceTo query storedFirst = Finite 3
  /\ distanceTo query postedFirst = Finite 3
  /\ (Media.timestamp postedFirst < Media.timestamp storedFirst)%Z
  /\ findSimilarMedia db query Photo defaultSimilarityThreshold = Some storedFirst.
Proof.
  cbv zeta. repeat split; vm_compute; reflexivity.
Qed.

Lemma findSimilarMedia_closest_stored_first_witness :
  let stored := [samplePhoto (pad64 "000111") 2 1000; samplePhoto (pad64 "111000") 1 2000] in
  exists r,
    findSimilarMedia (mkDb stored [] []) (pad64 "000000") Photo 5 = Some r
    /\ forall m, In m stored -> distanceTo (pad64 "000000") m = Finite 3 ->
                 (Media.timestamp r <= Media.timestamp m)%Z.
Proof.
  cbv zeta.
  pose proof (@findSimilarMedia_closest_stored_first
                (mkDb [samplePhoto (pad64 "000111") 2 1000;
                       samplePhoto (pad64 "111000") 1 2000] [] [])
                (pad64 "000000") Photo 5 eq_refl) as Hscan.
  destruct (findSimilarMedia _ _ _ _) as [r|] eqn:Hfound.
  - exists r. split; [reflexivity|].
    destruct Hscan as (pre & post & d & _ & Hd & _ & _ & _ & Hfirst).
    assert (d = 3) as ->.
    { vm_compute in Hfound. injection Hfound as <-. vm_compute in Hd. congruence. }
    intros m Hin Hm. apply Hfirst; [| exact Hin | exact Hm].
    cbn. repeat split; try lia. intros m1 [<-|[]]. cbn. lia.
  - vm_compute in Hfound. discriminate.
Defined.

(** ** Characters and bits *)

Lemma hexDigit_bound (c : ascii) (v : nat) : hexDigit c = Some v -> v < 16.
Proof.
  unfold hexDigit.
  destruct ((48 <=? nat_of_ascii c) && (nat_of_ascii c <=? 57)) eqn:Hd.
  - apply andb_true_iff in Hd as [H1 H2].
    apply Nat.leb_le in H1, H2. intros [= <-]. lia.
  - destruct ((97 <=? nat_of_ascii c) && (nat_of_ascii c <=? 102)) eqn:Hl; [|discriminate].
    apply andb_true_iff in Hl as [H1 H2].
    apply Nat.leb_le in H1, H2. intros [= <-]. lia.
Qed.

Lemma hexDigit_inj (c1 c2 : ascii) (v : nat) :
  hexDigit c1 = Some v -> hexDigit c2 = Some v -> c1 = c2.
Proof.
  intros H1 H2.
  rewrite <- (ascii_nat_embedding c1), <- (ascii_nat_embedding c2). f_equal.
  revert H1 H2. unfold hexDigit.
  repeat match goal with
         | |- context [(?a <=? ?b) && (?c <=? ?d)] =>
             let E := fresh "E" in
             destruct ((a <=? b) && (c <=? d)) eqn:E;
             [apply andb_true_iff in E as [? ?]
             |apply andb_false_iff in E]
         end;
    repeat match goal with
           | H : (_ <=? _) = true |- _ => apply Nat.leb_le in H
           | H : (_ <=? _) = false \/ (_ <=? _) = false |- _ =>
               destruct H as [H|H]; apply Nat.leb_gt in H
           end;
    intros; try discriminate;
    repeat match goal with
           | H : Some _ = Some _ |- _ => injection H as H
           end; lia.
Qed.

Lemma nibbleBits_differ (v1 v2 : nat) :
  v1 < 16 -> v2 < 16 -> v1 <> v2 -> 1 <= bitDistance (nibbleBits v1) (nibbleBits v2).
Proof.
  intros H1 H2 Hne.
  do 16 (destruct v1 as [|v1];
         [do 16 (destruct v2 as [|v2]; [first [congruence | cbv; lia]|]); lia|]).
  lia.
Qed.

Lemma nibbleBits_at_most_four (v1 v2 : nat) :
  bitDistance (nibbleBits v1) (nibbleBits v2) <= 4.
Proof.
  unfold nibbleBits. cbn [bitDistance].
  repeat match goal with
         | |- context [Bool.eqb ?a ?b] => destruct (Bool.eqb a b)
         end; lia.
Qed.

Lemma bitDistance_refl (l : list bool) : bitDistance l l = 0.
Proof.
  induction l as [|b l IH]; simpl; [reflexivity|].
  now rewrite Bool.eqb_reflx.
Qed.

Lemma bitDistance_app (a b a1 b1 : list bool) :
  List.length a = List.length b ->
  bitDistance (a ++ a1) (b ++ b1) = bitDistance a b + bitDistance a1 b1.
Proof.
  revert b; induction a as [|x a IH]; intros [|y b] Hlen; simpl in *;
    try discriminate; [reflexivity|].
  rewrite IH by lia. lia.
Qed.

Lemma hexBits_length (h : string) :
  isHex h = true -> List.length (hexBits h) = 4 * String.length h.
Proof.
  induction h as [|c t IH]; simpl; [reflexivity|].
  destruct (hexDigit c); [|discriminate].
  intros Ht. rewrite length_app, IH by assumption. simpl. lia.
Qed.

Lemma hex_distance_bounds (h1 h2 : string) :
  isHex h1 = true -> isHex h2 = true -> String.length h1 = String.length h2 ->
  differingPositions h1 h2 <= bitDistance (hexBits h1) (hexBits h2)
  /\ bitDistance (hexBits h1) (hexBits h2) <= 4 * differingPositions h1 h2.
Proof.
  revert h2; induction h1 as [|c1 t1 IH]; intros [|c2 t2]; simpl; try discriminate.
  - intros _ _ _. lia.
  - destruct (hexDigit c1) as [v1|] eqn:E1; [|discriminate].
    destruct (hexDigit c2) as [v2|] eqn:E2; [|discriminate].
    intros Hx1 Hx2 Hlen.
    destruct (IH t2 Hx1 Hx2 ltac:(lia)) as [Hlow Hhigh].
    rewrite bitDistance_app by reflexivity.
    pose proof (nibbleBits_at_most_four v1 v2) as Hfour.
    destruct (Ascii.eqb c1 c2) eqn:Hc.
    + apply Ascii.eqb_eq in Hc. subst c2. rewrite E1 in E2. injection E2 as <-.
      rewrite bitDistance_refl. lia.
    + assert (v1 <> v2) as Hne.
      { intros ->. apply Ascii.eqb_neq in Hc. apply Hc.
        exact (hexDigit_inj _ _ _ E1 E2). }
      pose proof (nibbleBits_differ _ _ (hexDigit_bound _ _ E1) (hexDigit_bound _ _ E2) Hne).
      lia.
Qed.

Lemma findSimilarMedia_comparable (db : Db) (hash : string) (mediaType : MediaType)
    (threshold : nat) (r : Media.t) :
  isPerceptualType mediaType = true ->
  findSimilarMedia db hash mediaType threshold = Some r ->
  hash <> EmptyString /\ String.length (Media.hash r) = String.length hash.
Proof.
  intros Hkind Hfound.
  pose proof (findSimilarMedia_scan db hash mediaType threshold Hkind) as Hscan.
  rewrite Hfound in Hscan.
  destruct Hscan as (pre & post & d & _ & Hd & _).
  unfold distanceTo in Hd.
  apply calculateHashDistance_finite in Hd
    as (h1 & h2 & [= <-] & [= <-] & Hne & _ & Hlen & _).
  split; [assumption|congruence].
Qed.

(** C2, the units: the fingerprints are hexadecimal strings and the distance
    counts characters. Two 64-character fingerprints (256 bits each) that
    differ in five characters are at distance 5, within the default
    threshold, and are matched, although 20 of their 256 bits differ. *)
Lemma calculateHashDistance_counts_characters :
  let a := pad64 "fffff" in
  let b := pad64 "00000" in
  String.length a = 64 /\ String.length b = 64
  /\ List.length (hexBits a) = 256 /\ List.length (hexBits b) = 256
  /\ calculateHashDistance (Some a) (Some b) = Finite 5
  /\ bitDistance (hexBits a) (hexBits b) = 20
  /\ findSimilarMedia (mkDb [samplePhoto b 1 0] [] []) a Photo defaultSimilarityThreshold
     = Some (samplePhoto b 1 0).
Proof.
  cbv zeta. repeat split; vm_compute; reflexivity.
Qed.

(** C2, as the code has it: the handler asks the hashing library for a 16 by
    16 grid and keeps the fingerprint as the string it gets (the SHA-256
    fallback is 64 hexadecimal characters, four bits each). The distance of two
    non-empty strings of equal length is the number of character positions at
    which they differ, which for hexadecimal strings lies between a quarter of
    the number of differing bits and that number; the default threshold is 5
    positions. Fingerprints of unequal length, or a missing or empty one, are at
    distance [Infinity], and a record is never matched by a fingerprint of
    another length, whatever the threshold. *)
Theorem fingerprint_distance_counts_positions :
  defaultSimilarityThreshold = 5
  /\ (forall imageHash sha256hex media mediaType,
        isPerceptualType mediaType = true ->
        hashMedia imageHash sha256hex media mediaType
        = match imageHash media 16 true with
          | Some hash => hash
          | None => sha256hex media
          end)
  /\ (forall h1 h2,
        h1 <> EmptyString -> String.length h1 = String.length h2 ->
        calculateHashDistance (Some h1) (Some h2) = Finite (differingPositions h1 h2))
  /\ (forall h1 h2,
        isHex h1 = true -> isHex h2 = true -> String.length h1 = String.length h2 ->
        List.length (hexBits h1) = 4 * String.length h1
        /\ differingPositions h1 h2 <= bitDistance (hexBits h1) (hexBits h2)
        /\ bitDistance (hexBits h1) (hexBits h2) <= 4 * differingPositions h1 h2)
  /\ (forall hash1 hash2,
        truthy hash1 = false \/ truthy hash2 = false
        \/ (exists h1 h2, hash1 = Some h1 /\ hash2 = Some h2
                          /\ String.length h1 <> String.length h2) ->
        calculateHashDistance hash1 hash2 = Infinity)
  /\ (forall db hash mediaType threshold r,
        isPerceptualType mediaType = true ->
        findSimilarMedia db hash mediaType threshold = Some r ->
        hash <> EmptyString /\ String.length (Media.hash r) = String.length hash).
Proof.
  split; [reflexivity|].
  split.
  { intros imageHash sha256hex media mediaType Hkind.
    unfold hashMedia. rewrite Hkind. now destruct (imageHash media 16 true). }
  split; [exact calculateHashDistance_comparable|].
  split.
  { intros h1 h2 Hx1 Hx2 Hlen. split; [now apply hexBits_length|].
    now apply hex_distance_bounds. }
  split; [exact calculateHashDistance_incomparable|].
  exact findSimilarMedia_comparable.
Qed.

Lemma fingerprint_distance_counts_positions_witness :
  calculateHashDistance (Some (pad64 "a1")) (Some (pad64 "b2")) = Finite 2
  /\ calculateHashDistance (Some (pad64 "a1")) (Some "a1"%string) = Infinity
  /\ calculateHashDistance (Some (pad64 "a1")) None = Infinity.
Proof.
  destruct fingerprint_distance_counts_positions
    as (_ & _ & Hcount & _ & Hinf & _).
  split; [|split].
  - rewrite Hcount; [reflexivity | discriminate | reflexivity].
  - apply Hinf. right; right. exists (pad64 "a1"), "a1"%string.
    repeat split. vm_compute. discriminate.
  - apply Hinf. right; left. reflexivity.
Defined.

(** ** The handler, one message at a time *)

Section HandlerFacts.

Variable imageHash : Buffer -> nat -> bool -> option string.
Variable sha256hex : Buffer -> string.

Lemma postedKind_not_text (ev : Event) : postedKind ev <> Some Text.
Proof.
  unfold postedKind.
  destruct (negb (chatIsGroup ev) && negb (isCommand (msg ev))); [discriminate|].
  destruct (answeredCommand (msg ev)); [discriminate|].
  destruct (hasMedia (msg ev)); [|discriminate].
  unfold pickMedia.
  destruct (Msg.photo (msg ev)) as [sizes|].
  - destruct (rev sizes) as [|largest ?]; [discriminate|].
    destruct (truthy (Some largest)); discriminate.
  - destruct (Msg.video (msg ev)) as [file_id|].
    + destruct (truthy (Some file_id)); discriminate.
    + destruct (Msg.document (msg ev)) as [[file_id mime_type]|]; [|discriminate].
      destruct (String.prefix _ _); [|discriminate].
      destruct (truthy (Some file_id)); discriminate.
Qed.

Lemma onMessage_posted (db : Db) (ev : Event) (mediaType : MediaType) :
  postedKind ev = Some mediaType ->
  onMessage imageHash sha256hex db ev
  = settleMedia db ev (hashMedia imageHash sha256hex (mediaBuffer ev) mediaType) mediaType
      (findSimilarMedia db (hashMedia imageHash sha256hex (mediaBuffer ev) mediaType)
                        mediaType defaultSimilarityThreshold).
Proof.
  unfold postedKind, onMessage, processContent.
  destruct (negb (chatIsGroup ev) && negb (isCommand (msg ev))); [discriminate|].
  destruct (answeredCommand (msg ev)); [discriminate|].
  destruct (hasMedia (msg ev)); [|discriminate].
  destruct (pickMedia (msg ev)) as [| |mediaFileId mt]; try discriminate.
  destruct (truthy (Some mediaFileId)); [|discriminate].
  now intros [= <-].
Qed.

Lemma onMessage_query (db : Db) (ev : Event) (mediaHash : string) (mediaType : MediaType) :
  mediaQuery imageHash sha256hex ev = Some (mediaHash, mediaType) ->
  onMessage imageHash sha256hex db ev
  = settleMedia db ev mediaHash mediaType
      (findSimilarMedia db mediaHash mediaType defaultSimilarityThreshold).
Proof.
  unfold mediaQuery. destruct (postedKind ev) as [mt|] eqn:Hk; [|discriminate].
  intros [= <- <-]. now apply onMessage_posted.
Qed.

Lemma mediaQuery_kind (ev : Event) (mediaHash : string) (mediaType : MediaType) :
  mediaQuery imageHash sha256hex ev = Some (mediaHash, mediaType) ->
  mediaType <> Text /\ mediaHash = hashMedia imageHash sha256hex (mediaBuffer ev) mediaType.
Proof.
  unfold mediaQuery. destruct (postedKind ev) as [mt|] eqn:Hk; [|discriminate].
  intros [= <- <-]. split; [|reflexivity].
  intros ->. now apply (postedKind_not_text ev).
Qed.

(** What a handled message leaves behind, by outcome. *)
Lemma onMessage_effect (db : Db) (ev : Event) :
  let db1 := fst (onMessage imageHash sha256hex db ev) in
  let userId := Msg.from_id (msg ev) in
  let username := senderName (msg ev) in
  match snd (onMessage imageHash sha256hex db ev) with
  | Stored record =>
      exists mediaHash mediaType,
        mediaQuery imageHash sha256hex ev = Some (mediaHash, mediaType)
        /\ findSimilarMedia db mediaHash mediaType defaultSimilarityThreshold = None
        /\ record = recordOf ev mediaHash mediaType
        /\ db1 = updateUserStatistics
                   (mkDb (media db ++ [record]) (userStats db) (duplicateTracking db))
                   userId username mediaType (now ev)
  | DuplicateNotice mediaType existing reply_to =>
      exists mediaHash,
        mediaQuery imageHash sha256hex ev = Some (mediaHash, mediaType)
        /\ findSimilarMedia db mediaHash mediaType defaultSimilarityThreshold = Some existing
        /\ reply_to = Msg.message_id (msg ev)
        /\ db1 = trackDuplicate db userId username (now ev)
  | CountedText =>
      mediaQuery imageHash sha256hex ev = None
      /\ db1 = updateUserStatistics db userId username Text (now ev)
  | _ => mediaQuery imageHash sha256hex ev = None /\ db1 = db
  end.
Proof.
  cbv zeta.
  destruct (mediaQuery imageHash sha256hex ev) as [[mediaHash mediaType]|] eqn:Hq.
  - rewrite (onMessage_query db ev _ _ Hq). unfold settleMedia.
    destruct (findSimilarMedia db mediaHash mediaType defaultSimilarityThreshold)
      as [existing|] eqn:Hfound; cbn [fst snd].
    + exists mediaHash. now rewrite Hfound.
    + exists mediaHash, mediaType. now rewrite Hfound.
  - revert Hq. unfold mediaQuery, postedKind, onMessage, processContent.
    destruct (negb (chatIsGroup ev) && negb (isCommand (msg ev))); [now split|].
    destruct (answeredCommand (msg ev)) as [[|]|]; [now split|now split|].
    destruct (hasMedia (msg ev)).
    + destruct (pickMedia (msg ev)) as [| |mediaFileId mt]; [now split|now split|].
      destruct (truthy (Some mediaFileId)); [discriminate|now split].
    + destruct (isPlainText (msg ev)); now split.
Qed.

End HandlerFacts.

(** ** The counters of [userStats] *)

Lemma findOneUser_app (l : list UserStats.t) (x : UserStats.t) (uid : Z) :
  findOneUser uid (l ++ [x])
  = match findOneUser uid l with
    | Some u => Some u
    | None => if Z.eqb (UserStats.userId x) uid then Some x else None
    end.
Proof.
  unfold findOneUser. induction l as [|u l IH]; simpl.
  - now destruct (Z.eqb (UserStats.userId x) uid).
  - now destruct (Z.eqb (UserStats.userId u) uid).
Qed.

Lemma findOneUser_updateOneUser (uid1 uid : Z) (f : UserStats.t -> UserStats.t)
    (l : list UserStats.t) :
  (forall u, UserStats.userId (f u) = UserStats.userId u) ->
  findOneUser uid (updateOneUser uid1 f l)
  = if Z.eqb uid1 uid then option_map f (findOneUser uid l) else findOneUser uid l.
Proof.
  intros Hid. unfold findOneUser. induction l as [|u l IH]; simpl.
  - now destruct (Z.eqb uid1 uid).
  - destruct (Z.eqb (UserStats.userId u) uid1) eqn:E1; simpl.
    + rewrite Hid. apply Z.eqb_eq in E1. rewrite E1.
      destruct (Z.eqb uid1 uid) eqn:E; [reflexivity|].
      reflexivity.
    + destruct (Z.eqb (UserStats.userId u) uid) eqn:E2; [|exact IH].
      destruct (Z.eqb uid1 uid) eqn:E; [|reflexivity].
      apply Z.eqb_eq in E, E2. apply Z.eqb_neq in E1. congruence.
Qed.

(** One upsert-like write on [userStats]: the document of [uid1] is updated by
    [f], or [init] is appended when there is none. A counter that [f] raises
    by [k] and [init] sets to [k] grows by [k] for [uid1] and stays for all
    others. *)
Lemma statOf_write (field : UserStats.t -> option nat) (f : UserStats.t -> UserStats.t)
    (init : UserStats.t) (k : nat) (before after : Db) (uid1 uid : Z) :
  (forall u, UserStats.userId (f u) = UserStats.userId u) ->
  (forall u, orZero (field (f u)) = orZero (field u) + k) ->
  UserStats.userId init = uid1 ->
  orZero (field init) = k ->
  userStats after
  = match findOneUser uid1 (userStats before) with
    | Some _ => updateOneUser uid1 f (userStats before)
    | None => userStats before ++ [init]
    end ->
  statOf field after uid = statOf field before uid + oneIf (Z.eqb uid1 uid) * k.
Proof.
  intros Hid Hf Hinit Hk Hafter. unfold statOf. rewrite Hafter.
  destruct (findOneUser uid1 (userStats before)) as [u1|] eqn:Hfound.
  - rewrite findOneUser_updateOneUser by assumption.
    destruct (Z.eqb uid1 uid) eqn:E; simpl.
    + apply Z.eqb_eq in E. subst uid. rewrite Hfound. simpl. rewrite Hf. lia.
    + lia.
  - rewrite findOneUser_app, Hinit.
    destruct (Z.eqb uid1 uid) eqn:E; simpl.
    + apply Z.eqb_eq in E. subst uid. rewrite Hfound, Hk. lia.
    + destruct (findOneUser uid (userStats before)); lia.
Qed.

Lemma updateUserStatistics_stat (field : UserStats.t -> option nat) (k : nat)
    (db : Db) (uid1 : Z) (username : string) (mediaType : MediaType) (now uid : Z) :
  (forall u, orZero (field (countMessage username mediaType now u)) = orZero (field u) + k) ->
  orZero (field (newUserStats uid1 username mediaType now)) = k ->
  statOf field (updateUserStatistics db uid1 username mediaType now) uid
  = statOf field db uid + oneIf (Z.eqb uid1 uid) * k.
Proof.
  intros Hf Hinit.
  apply statOf_write with (f := countMessage username mediaType now)
                          (init := newUserStats uid1 username mediaType now);
    try assumption; try reflexivity.
  unfold updateUserStatistics. now destruct (findOneUser uid1 (userStats db)).
Qed.

Lemma trackDuplicate_stat (field : UserStats.t -> option nat) (k : nat)
    (db : Db) (uid1 : Z) (username : string) (now uid : Z) :
  (forall u, orZero (field (countDuplicate username now u)) = orZero (field u) + k) ->
  orZero (field (upsertedStats uid1 username now)) = k ->
  statOf field (trackDuplicate db uid1 username now) uid
  = statOf field db uid + oneIf (Z.eqb uid1 uid) * k.
Proof.
  intros Hf Hinit.
  apply statOf_write with (f := countDuplicate username now)
                          (init := upsertedStats uid1 username now);
    try assumption; reflexivity.
Qed.

Lemma updateUserStatistics_counters (db : Db) (uid1 : Z) (username : string)
    (mediaType : MediaType) (now : Z) (uid : Z) :
  let mine := oneIf (Z.eqb uid1 uid) in
  countersGained db (updateUserStatistics db uid1 username mediaType now) uid
    (mine * oneIf (MediaType_eqb mediaType Photo))
    (mine * oneIf (MediaType_eqb mediaType Video))
    (mine * oneIf (MediaType_eqb mediaType Document))
    (mine * oneIf (MediaType_eqb mediaType Text))
    0
    mine.
Proof.
  cbv zeta. unfold countersGained. repeat split.
  - apply updateUserStatistics_stat; [intros u|]; destruct mediaType; cbn; lia.
  - apply updateUserStatistics_stat; [intros u|]; destruct mediaType; cbn; lia.
  - apply updateUserStatistics_stat; [intros u|]; destruct mediaType; cbn; lia.
  - apply updateUserStatistics_stat; [intros u|]; destruct mediaType; cbn; lia.
  - rewrite (updateUserStatistics_stat UserStats.duplicatesPosted 0);
      [lia | intros u; cbn; lia | reflexivity].
  - rewrite (updateUserStatistics_stat UserStats.totalMessages 1);
      [lia | intros u; cbn; lia | reflexivity].
Qed.

Lemma trackDuplicate_counters (db : Db) (uid1 : Z) (username : string) (now : Z) (uid : Z) :
  countersGained db (trackDuplicate db uid1 username now) uid
    0 0 0 0 (oneIf (Z.eqb uid1 uid)) 0.
Proof.
  unfold countersGained. repeat split.
  - rewrite (trackDuplicate_stat UserStats.photoCount 0);
      [lia | intros u; cbn; lia | reflexivity].
  - rewrite (trackDuplicate_stat UserStats.videoCount 0);
      [lia | intros u; cbn; lia | reflexivity].
  - rewrite (trackDuplicate_stat UserStats.documentCount 0);
      [lia | intros u; cbn; lia | reflexivity].
  - rewrite (trackDuplicate_stat UserStats.textCount 0);
      [lia | intros u; cbn; lia | reflexivity].
  - rewrite (trackDuplicate_stat UserStats.duplicatesPosted 1);
      [lia | intros u; cbn; lia | reflexivity].
  - rewrite (trackDuplicate_stat UserStats.totalMessages 0);
      [lia | intros u; cbn; lia | reflexivity].
Qed.

Lemma countersGained_refl (db : Db) (uid : Z) : countersGained db db uid 0 0 0 0 0 0.
Proof. unfold countersGained. repeat split; lia. Qed.


Lemma countersGained_from (a a1 b : Db) (uid : Z) (p v d t x m : nat) :
  userStats a1 = userStats a ->
  countersGained a1 b uid p v d t x m -> countersGained a b uid p v d t x m.
Proof.
  unfold countersGained, statOf. now intros ->.
Qed.

Lemma countOf_cons (uid : Z) (which : Outcome -> bool) (ev : Event) (o : Outcome)
    (trace : list (Event * Outcome)) :
  countOf uid which ((ev, o) :: trace)
  = oneIf (sentBy uid ev && which o) + countOf uid which trace.
Proof.
  unfold countOf. cbn [filter fst snd].
  now destruct (sentBy uid ev && which o).
Qed.

Lemma findSimilarMedia_stored (db : Db) (hash : string) (mediaType : MediaType)
    (threshold : nat) (r : Media.t) :
  findSimilarMedia db hash mediaType threshold = Some r -> In r (media db).
Proof.
  destruct (isPerceptualType mediaType) eqn:Hkind.
  - intros Hfound.
    pose proof (findSimilarMedia_scan db hash mediaType threshold Hkind)
      as Hscan.
    rewrite Hfound in Hscan. destruct Hscan as (pre & post & d & Hsplit & _).
    assert (In r (perceptualMedia db)) as Hin
        by (rewrite Hsplit; apply in_or_app; right; now left).
    apply filter_In in Hin. tauto.
  - unfold findSimilarMedia. rewrite Hkind. cbn [negb].
    intros Hfound. now apply find_some in Hfound.
Qed.

Lemma lookup_finds_a_match (db : Db) (fingerprint : string) (mediaType : MediaType)
    (r : Media.t) :
  findSimilarMedia db fingerprint mediaType defaultSimilarityThreshold = Some r ->
  In r (media db) /\ matches fingerprint mediaType r = true.
Proof.
  intros Hfound. split; [now apply findSimilarMedia_stored in Hfound|].
  unfold matches. destruct (isPerceptualType mediaType) eqn:Hkind.
  - pose proof (findSimilarMedia_scan db fingerprint mediaType defaultSimilarityThreshold
                  Hkind) as Hscan.
    rewrite Hfound in Hscan. destruct Hscan as (pre & post & d & Hsplit & Hd & Hle & _).
    assert (In r (perceptualMedia db)) as Hin
        by (rewrite Hsplit; apply in_or_app; right; now left).
    apply filter_In in Hin as [_ ->]. unfold withinThreshold. rewrite Hd.
    now apply Nat.leb_le.
  - revert Hfound. unfold findSimilarMedia. rewrite Hkind. cbn [negb].
    intros Hfound. now apply find_some in Hfound.
Qed.

Lemma lookup_misses_no_match (db : Db) (fingerprint : string) (mediaType : MediaType) :
  findSimilarMedia db fingerprint mediaType defaultSimilarityThreshold = None ->
  forall m, In m (media db) -> matches fingerprint mediaType m = false.
Proof.
  intros Hnone m Hin. unfold matches.
  destruct (isPerceptualType mediaType) eqn:Hkind.
  - pose proof (findSimilarMedia_scan db fingerprint mediaType defaultSimilarityThreshold
                  Hkind) as Hscan.
    rewrite Hnone in Hscan.
    destruct (isPerceptualType (Media.mediaType m)) eqn:Hm; [|reflexivity].
    apply Hscan. apply filter_In. now split.
  - revert Hnone. unfold findSimilarMedia. rewrite Hkind. cbn [negb].
    intros Hnone. exact (find_none _ _ Hnone m Hin).
Qed.

Section RunFacts.

Variable imageHash : Buffer -> nat -> bool -> option string.
Variable sha256hex : Buffer -> string.

Lemma onMessage_counters (db : Db) (ev : Event) (uid : Z) :
  let o := snd (onMessage imageHash sha256hex db ev) in
  let mine (which : Outcome -> bool) := oneIf (sentBy uid ev && which o) in
  countersGained db (fst (onMessage imageHash sha256hex db ev)) uid
    (mine (isStored (Some Photo))) (mine (isStored (Some Video)))
    (mine (isStored (Some Document))) (mine isCountedText)
    (mine isDuplicate)
    (mine (isStored None) + mine isCountedText).
Proof.
  cbv zeta. pose proof (onMessage_effect imageHash sha256hex db ev) as Heff.
  cbv zeta in Heff.
  destruct (onMessage imageHash sha256hex db ev) as [db1 o]. cbn [fst snd] in Heff |- *.
  unfold sentBy.
  destruct o as [| | | |mediaType existing reply_to|record|];
    try (destruct Heff as [_ ->]; cbn [isStored isCountedText isDuplicate];
         rewrite !andb_false_r; apply countersGained_refl).
  - destruct Heff as (mediaHash & _ & _ & _ & ->).
    cbn [isStored isCountedText isDuplicate]. rewrite !andb_false_r, andb_true_r.
    apply trackDuplicate_counters.
  - destruct Heff as (mediaHash & mediaType & Hq & _ & -> & ->).
    apply mediaQuery_kind in Hq as [Hkind _].
    cbn [isStored isCountedText isDuplicate recordOf Media.mediaType].
    rewrite !andb_false_r, andb_true_r.
    pose proof (updateUserStatistics_counters
                  (mkDb (media db ++ [recordOf ev mediaHash mediaType])
                        (userStats db) (duplicateTracking db))
                  (Msg.from_id (msg ev)) (senderName (msg ev)) mediaType (now ev) uid)
      as Hupd.
    cbv zeta in Hupd.
    apply (countersGained_from db _ _ uid _ _ _ _ _ _ eq_refl) in Hupd.
    unfold countersGained in Hupd |- *.
    destruct (Z.eqb (Msg.from_id (msg ev)) uid), mediaType; cbn in Hupd |- *;
      try congruence; repeat split; lia.
  - destruct Heff as [_ ->].
    cbn [isStored isCountedText isDuplicate]. rewrite !andb_false_r, andb_true_r.
    pose proof (updateUserStatistics_counters db (Msg.from_id (msg ev))
                  (senderName (msg ev)) Text (now ev) uid) as Hupd.
    cbv zeta in Hupd. unfold countersGained in Hupd |- *.
    destruct (Z.eqb (Msg.from_id (msg ev)) uid); cbn in Hupd |- *;
      repeat split; lia.
Qed.


Lemma onMessage_writes (db : Db) (ev : Event) :
  let db1 := fst (onMessage imageHash sha256hex db ev) in
  let o := snd (onMessage imageHash sha256hex db ev) in
  media db1 = media db ++ storedRecords [(ev, o)]
  /\ duplicateTracking db1 = duplicateTracking db ++ duplicateEntries [(ev, o)].
Proof.
  cbv zeta. pose proof (onMessage_effect imageHash sha256hex db ev) as Heff.
  cbv zeta in Heff.
  destruct (onMessage imageHash sha256hex db ev) as [db1 o]. cbn [fst snd] in Heff |- *.
  unfold storedRecords, duplicateEntries. cbn [flat_map fst snd].
  destruct o as [| | | |mediaType existing reply_to|record|];
    try (destruct Heff as [_ ->]; now rewrite !app_nil_r).
  - destruct Heff as (mediaHash & _ & _ & _ & ->). cbn. now rewrite !app_nil_r.
  - destruct Heff as (mediaHash & mediaType & _ & _ & -> & ->).
    unfold updateUserStatistics. cbn [userStats media duplicateTracking].
    destruct (findOneUser _ _); cbn; now rewrite !app_nil_r.
  - destruct Heff as [_ ->]. unfold updateUserStatistics.
    destruct (findOneUser _ _); cbn; now rewrite !app_nil_r.
Qed.

Lemma run_writes (events : list Event) (db : Db) :
  let trace := snd (run imageHash sha256hex db events) in
  media (fst (run imageHash sha256hex db events)) = media db ++ storedRecords trace
  /\ duplicateTracking (fst (run imageHash sha256hex db events))
     = duplicateTracking db ++ duplicateEntries trace.
Proof.
  cbv zeta. revert db. induction events as [|ev rest IH]; intros db.
  - cbn. now rewrite !app_nil_r.
  - cbn [run]. pose proof (onMessage_writes db ev) as [Hm Hd]. 
    destruct (onMessage imageHash sha256hex db ev) as [db1 o]. cbn [fst snd] in Hm, Hd.
    specialize (IH db1) as [IHm IHd].
    destruct (run imageHash sha256hex db1 rest) as [db2 trace]. cbn [fst snd] in IHm, IHd |- *.
    rewrite IHm, IHd, Hm, Hd. unfold storedRecords, duplicateEntries.
    cbn [flat_map]. now rewrite !app_nil_r, <- !app_assoc.
Qed.

(** C3: a media post the handler takes up and no stored record answers is
    accepted: it appends exactly one record to [media], the record of that
    post, writes no duplicate entry and changes nobody's duplicate count. A
    media post that a stored record answers is judged a duplicate of a stored
    record that answers it: it appends nothing to [media], appends one entry
    to [duplicateTracking] and adds one to the poster's [duplicatesPosted],
    leaving every other counter of every user as it was. A message that is no
    media post leaves both collections alone. The same by outcome: a message
    answered as stored has appended its one record, one answered with a
    duplicate notice has appended none. Over a run, [media] grows by one
    record per accepted post and [duplicateTracking] by one entry per
    duplicate. *)
Theorem accepted_posts_store_one_record_duplicates_none (db : Db) :
  (forall ev mediaType,
     postedKind ev = Some mediaType ->
     let fingerprint := hashMedia imageHash sha256hex (mediaBuffer ev) mediaType in
     let db1 := fst (onMessage imageHash sha256hex db ev) in
     let outcome := snd (onMessage imageHash sha256hex db ev) in
     let poster := Msg.from_id (msg ev) in
     ((forall m, In m (media db) -> matches fingerprint mediaType m = false) ->
      outcome = Stored (recordOf ev fingerprint mediaType)
      /\ media db1 = media db ++ [recordOf ev fingerprint mediaType]
      /\ duplicateTracking db1 = duplicateTracking db
      /\ forall uid, statOf UserStats.duplicatesPosted db1 uid
                     = statOf UserStats.duplicatesPosted db uid)
     /\ ((exists m, In m (media db) /\ matches fingerprint mediaType m = true) ->
         (exists existing,
            In existing (media db) /\ matches fingerprint mediaType existing = true
            /\ outcome = DuplicateNotice mediaType existing (Msg.message_id (msg ev)))
         /\ media db1 = media db
         /\ duplicateTracking db1
            = duplicateTracking db
              ++ [DuplicateEntry.mk poster (senderName (msg ev)) (now ev)]
         /\ forall uid, countersGained db db1 uid 0 0 0 0 (oneIf (Z.eqb poster uid)) 0))
  /\ (forall ev,
        postedKind ev = None ->
        media (fst (onMessage imageHash sha256hex db ev)) = media db
        /\ duplicateTracking (fst (onMessage imageHash sha256hex db ev))
           = duplicateTracking db)
  /\ (forall ev,
     let db1 := fst (onMessage imageHash sha256hex db ev) in
     let poster := Msg.from_id (msg ev) in
     match snd (onMessage imageHash sha256hex db ev) with
     | Stored record =>
         media db1 = media db ++ [record]
         /\ duplicateTracking db1 = duplicateTracking db
         /\ forall uid, statOf UserStats.duplicatesPosted db1 uid
                        = statOf UserStats.duplicatesPosted db uid
     | DuplicateNotice _ existing _ =>
         In existing (media db)
         /\ media db1 = media db
         /\ duplicateTracking db1
            = duplicateTracking db
              ++ [DuplicateEntry.mk poster (senderName (msg ev)) (now ev)]
         /\ forall uid, countersGained db db1 uid 0 0 0 0 (oneIf (Z.eqb poster uid)) 0
     | _ =>
         media db1 = media db /\ duplicateTracking db1 = duplicateTracking db
     end)
  /\ (forall events,
        let final := fst (run imageHash sha256hex db events) in
        let trace := snd (run imageHash sha256hex db events) in
        media final = media db ++ storedRecords trace
        /\ duplicateTracking final = duplicateTracking db ++ duplicateEntries trace
        /\ List.length (storedRecords trace)
           = List.length (filter (fun eo => isStored None (snd eo)) trace)
        /\ List.length (duplicateEntries trace)
           = List.length (filter (fun eo => isDuplicate (snd eo)) trace)).
Proof.
  assert (forall ev,
     let db1 := fst (onMessage imageHash sha256hex db ev) in
     let poster := Msg.from_id (msg ev) in
     match snd (onMessage imageHash sha256hex db ev) with
     | Stored record =>
         media db1 = media db ++ [record]
         /\ duplicateTracking db1 = duplicateTracking db
         /\ forall uid, statOf UserStats.duplicatesPosted db1 uid
                        = statOf UserStats.duplicatesPosted db uid
     | DuplicateNotice _ existing _ =>
         In existing (media db)
         /\ media db1 = media db
         /\ duplicateTracking db1
            = duplicateTracking db
              ++ [DuplicateEntry.mk poster (senderName (msg ev)) (now ev)]
         /\ forall uid, countersGained db db1 uid 0 0 0 0 (oneIf (Z.eqb poster uid)) 0
     | _ =>
         media db1 = media db /\ duplicateTracking db1 = duplicateTracking db
     end) as Hbyoutcome.
  { intros ev. cbv zeta.
    pose proof (onMessage_writes db ev) as [Hm Hd].
    pose proof (onMessage_counters db ev) as Hc.
    pose proof (onMessage_effect imageHash sha256hex db ev) as Heff.
    cbv zeta in Hm, Hd, Hc, Heff.
    destruct (onMessage imageHash sha256hex db ev) as [db1 o].
    cbn [fst snd] in Hm, Hd, Hc, Heff |- *.
    unfold storedRecords, duplicateEntries in Hm, Hd. cbn [flat_map fst snd] in Hm, Hd.
    destruct o as [| | | |mediaType existing reply_to|record|];
      rewrite ?app_nil_r in Hm, Hd; try (split; assumption).
    + destruct Heff as (mediaHash & _ & Hfound & _ & _).
      split; [now apply findSimilarMedia_stored in Hfound|].
      split; [assumption|]. split; [assumption|].
      intros uid. specialize (Hc uid). unfold sentBy in Hc.
      cbn [isStored isCountedText isDuplicate] in Hc.
      rewrite !andb_false_r, andb_true_r in Hc. exact Hc.
    + split; [assumption|]. split; [assumption|].
      intros uid. specialize (Hc uid).
      cbn [isStored isCountedText isDuplicate] in Hc. rewrite !andb_false_r in Hc.
      unfold countersGained in Hc. cbn [oneIf] in Hc. lia. }
  split; [|split; [|split; [exact Hbyoutcome|]]].
  - intros ev mediaType Hposted. cbv zeta.
    specialize (Hbyoutcome ev). cbv zeta in Hbyoutcome. revert Hbyoutcome.
    rewrite (onMessage_posted imageHash sha256hex db ev mediaType Hposted).
    set (fingerprint := hashMedia imageHash sha256hex (mediaBuffer ev) mediaType).
    destruct (findSimilarMedia db fingerprint mediaType defaultSimilarityThreshold)
      as [existing|] eqn:Hfound; cbn [settleMedia snd];
      set (db1 := fst _); intros Hbyoutcome.
    + destruct (lookup_finds_a_match db fingerprint mediaType existing Hfound)
        as [Hin Hmatch].
      split.
      * intros Hnone. specialize (Hnone _ Hin). congruence.
      * intros _. destruct Hbyoutcome as (_ & Hm & Hd & Hc).
        split; [exists existing; split; [assumption|split; [assumption|reflexivity]]|].
        split; [assumption|]. split; assumption.
    + pose proof (lookup_misses_no_match db fingerprint mediaType Hfound) as Hnone.
      split.
      * intros _. destruct Hbyoutcome as (Hm & Hd & Hc). now repeat split.
      * intros (m & Hin & Hm). specialize (Hnone _ Hin). congruence.
  - intros ev Hnone. specialize (Hbyoutcome ev). cbv zeta in Hbyoutcome.
    pose proof (onMessage_effect imageHash sha256hex db ev) as Heff. cbv zeta in Heff.
    unfold mediaQuery in Heff. rewrite Hnone in Heff.
    destruct (snd (onMessage imageHash sha256hex db ev));
      try exact Hbyoutcome.
    + now destruct Heff as (mediaHash & Hq & _).
    + now destruct Heff as (mediaHash & mediaType & Hq & _).
  - intros events. cbv zeta. pose proof (run_writes events db) as [Hm Hd].
    cbv zeta in Hm, Hd. split; [assumption|]. split; [assumption|].
    generalize (snd (run imageHash sha256hex db events)). clear.
    intros trace. unfold storedRecords, duplicateEntries.
    induction trace as [|[ev o] trace [IH1 IH2]]; [now split|].
    cbn [flat_map filter fst snd]. rewrite !length_app, IH1, IH2.
    destruct o; cbn; split; lia.
Qed.

End RunFacts.

Lemma accepted_posts_store_one_record_duplicates_none_witness :
  let image := [Byte.x12; Byte.x34] in
  let first := mkEvent (withPhoto "a" (sampleMsg (-100) 1 10)) true image 1000 in
  let again := mkEvent (withPhoto "b" (sampleMsg (-100) 2 20)) true image 2000 in
  let db := fst (run sampleImageHash sampleDigest emptyDb [first]) in
  let db1 := fst (onMessage sampleImageHash sampleDigest db again) in
  media db = [recordOf first (pad64 "1234") Photo]
  /\ media db1 = media db
  /\ duplicateTracking db1 = [DuplicateEntry.mk 2 "user" 2000].
Proof.
  cbv zeta. split; [reflexivity|].
  destruct (proj2 (proj1 (accepted_posts_store_one_record_duplicates_none
              sampleImageHash sampleDigest
              (fst (run sampleImageHash sampleDigest emptyDb
                      [mkEvent (withPhoto "a" (sampleMsg (-100) 1 10)) true
                               [Byte.x12; Byte.x34] 1000])))
              (mkEvent (withPhoto "b" (sampleMsg (-100) 2 20)) true
                       [Byte.x12; Byte.x34] 2000)
              Photo eq_refl)) as (_ & Hmedia & Hentries & _).
  - eexists. split; [left; reflexivity|reflexivity].
  - split; [exact Hmedia|exact Hentries].
Defined.

(** ** Commands *)

Section Commands.

Variable imageHash : Buffer -> nat -> bool -> option string.
Variable sha256hex : Buffer -> string.

Lemma command_has_no_kind (ev : Event) :
  isCommand (msg ev) = true -> hasMedia (msg ev) = false -> postedKind ev = None.
Proof.
  intros _ Hmedia. unfold postedKind. rewrite Hmedia.
  destruct (negb (chatIsGroup ev) && negb (isCommand (msg ev))); [reflexivity|].
  now destruct (answeredCommand (msg ev)).
Qed.

Lemma command_is_not_plain_text (m : Msg.t) : isCommand m = true -> isPlainText m = false.
Proof.
  unfold isCommand, isPlainText. destruct (Msg.text m) as [t|]; [|discriminate].
  intros H. apply andb_true_iff in H as [-> ->]. reflexivity.
Qed.

(** C10: a text message whose text starts with ['/'] leaves the three
    collections exactly as they were, in a group and in a private chat:
    [/stats] and [/help] are answered, any other command is dropped. *)
Theorem command_leaves_store_unchanged (db : Db) (ev : Event) :
  isCommand (msg ev) = true ->
  hasMedia (msg ev) = false ->
  fst (onMessage imageHash sha256hex db ev) = db
  /\ (snd (onMessage imageHash sha256hex db ev) = RepliedStats (generateWeeklyStats db)
      \/ snd (onMessage imageHash sha256hex db ev) = RepliedHelp
      \/ snd (onMessage imageHash sha256hex db ev) = Ignored).
Proof.
  intros Hcommand Hmedia. unfold onMessage, processContent.
  rewrite Hcommand, Hmedia, (command_is_not_plain_text _ Hcommand).
  cbn [negb andb]. rewrite andb_false_r.
  destruct (answeredCommand (msg ev)) as [[|]|]; cbn [fst snd]; auto.
Qed.

End Commands.

Lemma command_leaves_store_unchanged_witness :
  let db := fst (run sampleImageHash sampleDigest emptyDb
                     [mkEvent (withText "hello" (sampleMsg (-100) 7 1)) true [] 1000]) in
  let command := mkEvent (withText "/start now" (sampleMsg (-100) 7 2)) true [] 2000 in
  fst (onMessage sampleImageHash sampleDigest db command) = db
  /\ (snd (onMessage sampleImageHash sampleDigest db command)
      = RepliedStats (generateWeeklyStats db)
      \/ snd (onMessage sampleImageHash sampleDigest db command) = RepliedHelp
      \/ snd (onMessage sampleImageHash sampleDigest db command) = Ignored).
Proof.
  cbv zeta.
  exact (command_leaves_store_unchanged sampleImageHash sampleDigest _
           (mkEvent (withText "/start now" (sampleMsg (-100) 7 2)) true [] 2000)
           eq_refl eq_refl).
Defined.

(** ** Lookups in a store that grows *)

Lemma find_app_first {A : Type} (f : A -> bool) (l l1 : list A) :
  find f (l ++ l1) = match find f l with
                     | Some x => Some x
                     | None => find f l1
                     end.
Proof.
  induction l as [|x l IH]; simpl; [reflexivity|].
  now destruct (f x).
Qed.

Lemma findSimilarMedia_media (db db1 : Db) (hash : string) (mediaType : MediaType)
    (threshold : nat) :
  media db = media db1 ->
  findSimilarMedia db hash mediaType threshold
  = findSimilarMedia db1 hash mediaType threshold.
Proof.
  unfold findSimilarMedia, perceptualMedia. now intros ->.
Qed.

Lemma findSimilarMedia_kind (db : Db) (hash : string) (mediaType mediaType1 : MediaType)
    (threshold : nat) :
  isPerceptualType mediaType = isPerceptualType mediaType1 ->
  findSimilarMedia db hash mediaType threshold
  = findSimilarMedia db hash mediaType1 threshold.
Proof.
  unfold findSimilarMedia. now intros ->.
Qed.

Lemma hashMedia_kind (imageHash : Buffer -> nat -> bool -> option string)
    (sha256hex : Buffer -> string) (media : Buffer) (mediaType mediaType1 : MediaType) :
  isPerceptualType mediaType = isPerceptualType mediaType1 ->
  hashMedia imageHash sha256hex media mediaType
  = hashMedia imageHash sha256hex media mediaType1.
Proof.
  unfold hashMedia. now intros ->.
Qed.


(** The lookup right after a record was stored for the same fingerprint. *)
Lemma lookup_after_store (db db1 : Db) (hash : string) (mediaType mediaType1 : MediaType)
    (threshold : nat) (r : Media.t) (more : list Media.t) :
  isPerceptualType mediaType = isPerceptualType mediaType1 ->
  (isPerceptualType mediaType = true -> hash <> EmptyString /\ more = []) ->
  Media.hash r = hash ->
  Media.mediaType r = mediaType ->
  media db1 = media db ++ r :: more ->
  findSimilarMedia db hash mediaType threshold = None ->
  findSimilarMedia db1 hash mediaType1 threshold = Some r.
Proof.
  intros Hkind Himage Hhash Htype Hmedia Hnone.
  rewrite <- (findSimilarMedia_kind db1 hash mediaType mediaType1 threshold Hkind).
  pose proof (scan_invariant hash threshold (perceptualMedia db)) as Hscan.
  revert Hnone Hscan. unfold findSimilarMedia, perceptualMedia. rewrite Hmedia.
  destruct (isPerceptualType mediaType) eqn:Hp; cbn [negb].
  - destruct (Himage eq_refl) as [Hne ->].
    rewrite filter_app. cbn [filter]. rewrite Htype, Hp, fold_left_app.
    destruct (fold_left (similarityStep hash threshold)
                (filter (fun m => isPerceptualType (Media.mediaType m)) (media db))
                (None, threshold + 1)) as [best low].
    cbn [fst]. intros ->. unfold scanned. cbn [fst snd]. intros [-> _].
    cbn [fold_left]. unfold similarityStep. rewrite Hhash.
    rewrite calculateHashDistance_comparable by (assumption || reflexivity).
    rewrite differingPositions_refl. cbn [snd].
    replace (0 <? threshold + 1) with true by (symmetry; apply Nat.ltb_lt; lia).
    reflexivity.
  - intros Hnone _. rewrite find_app_first, Hnone. cbn [find].
    now rewrite Hhash, String.eqb_refl.
Qed.

(** ** Exact-match duplicates *)


Section ExactMatch.

Variable imageHash : Buffer -> nat -> bool -> option string.
Variable sha256hex : Buffer -> string.



End ExactMatch.


(** ** Two posts of the same new image *)

(** C8, the race: two group members post the same new photo, and the two
    handlers alternate: both lookups run before either handler writes. Both
    find nothing, both store a record, and nobody is recorded as a duplicate.
    Nothing in the handler (no lock, no transaction, no unique index) orders a
    lookup after the other handler's insert. *)
Lemma interleaved_posts_store_two_records :
  let image := [Byte.x12; Byte.x34; Byte.x56] in
  let a := mkEvent (withPhoto "a" (sampleMsg (-100) 1 10)) true image 1000 in
  let b := mkEvent (withPhoto "b" (sampleMsg (-100) 2 11)) true image 1001 in
  let final := interleave sampleImageHash sampleDigest emptyDb [Waiting a; Waiting b]
                          [0; 1; 0; 1] in
  snd final
  = [Finished (Stored (recordOf a (pad64 "123456") Photo));
     Finished (Stored (recordOf b (pad64 "123456") Photo))]
  /\ media (fst final)
     = [recordOf a (pad64 "123456") Photo; recordOf b (pad64 "123456") Photo]
  /\ duplicateTracking (fst final) = [].
Proof.
  cbv zeta. repeat split; vm_compute; reflexivity.
Qed.

Section OneAfterTheOther.

Variable imageHash : Buffer -> nat -> bool -> option string.
Variable sha256hex : Buffer -> string.

(** A handler that runs its two steps back to back is the handler. *)
Lemma stepTask_twice (db : Db) (ev : Event) :
  let (db1, task1) := stepTask imageHash sha256hex db (Waiting ev) in
  stepTask imageHash sha256hex db1 task1
  = (fst (onMessage imageHash sha256hex db ev),
     Finished (snd (onMessage imageHash sha256hex db ev))).
Proof.
  cbn [stepTask].
  destruct (mediaQuery imageHash sha256hex ev) as [[mediaHash mediaType]|] eqn:Hq.
  - cbn [stepTask]. rewrite Hq, (onMessage_query imageHash sha256hex db ev _ _ Hq).
    now destruct (settleMedia _ _ _ _ _).
  - now destruct (onMessage imageHash sha256hex db ev).
Qed.

Lemma interleave_in_turn (db : Db) (a b : Event) :
  interleave imageHash sha256hex db [Waiting a; Waiting b] [0; 0; 1; 1]
  = let first := onMessage imageHash sha256hex db a in
    let second := onMessage imageHash sha256hex (fst first) b in
    (fst second, [Finished (snd first); Finished (snd second)]).
Proof.
  cbv zeta. cbn [interleave stepAt].
  pose proof (stepTask_twice db a) as Ha.
  destruct (stepTask imageHash sha256hex db (Waiting a)) as [db1 task1].
  cbn [interleave stepAt]. rewrite Ha. cbn [interleave stepAt].
  pose proof (stepTask_twice (fst (onMessage imageHash sha256hex db a)) b) as Hb.
  destruct (stepTask imageHash sha256hex _ (Waiting b)) as [db2 task2].
  cbn [interleave stepAt]. now rewrite Hb.
Qed.

(** C8, as the code has it: when the two handlers run one after the other,
    the same new image (or video) posted by two posters stores exactly one
    record, the first poster's, and records exactly the second poster as a
    duplicate of it. The handler itself does nothing to keep two handlers
    from alternating. *)
Theorem posts_in_turn_store_one_record
    (db : Db) (a b : Event) (mediaType mediaType1 : MediaType) :
  postedKind a = Some mediaType ->
  postedKind b = Some mediaType1 ->
  isPerceptualType mediaType = isPerceptualType mediaType1 ->
  mediaBuffer b = mediaBuffer a ->
  let fingerprint := hashMedia imageHash sha256hex (mediaBuffer a) mediaType in
  fingerprint <> EmptyString ->
  findSimilarMedia db fingerprint mediaType defaultSimilarityThreshold = None ->
  let final := interleave imageHash sha256hex db [Waiting a; Waiting b] [0; 0; 1; 1] in
  let original := recordOf a fingerprint mediaType in
  snd final
  = [Finished (Stored original);
     Finished (DuplicateNotice mediaType1 original (Msg.message_id (msg b)))]
  /\ media (fst final) = media db ++ [original]
  /\ duplicateTracking (fst final)
     = duplicateTracking db
       ++ [DuplicateEntry.mk (Msg.from_id (msg b)) (senderName (msg b)) (now b)].
Proof.
  intros Ha Hb Hkind Hbytes fingerprint Hne Hnew. cbv zeta.
  rewrite interleave_in_turn. cbv zeta.
  set (original := recordOf a fingerprint mediaType).
  pose (stored := updateUserStatistics
                    (mkDb (media db ++ [original]) (userStats db) (duplicateTracking db))
                    (Msg.from_id (msg a)) (senderName (msg a)) mediaType (now a)).
  assert (onMessage imageHash sha256hex db a = (stored, Stored original)) as Hfirst.
  { rewrite (onMessage_posted imageHash sha256hex db a mediaType Ha).
    fold fingerprint. now rewrite Hnew. }
  assert (media stored = media db ++ [original]) as Hstored.
  { subst stored. unfold updateUserStatistics. cbn [userStats].
    now destruct (findOneUser _ _). }
  assert (duplicateTracking stored = duplicateTracking db) as Hdups.
  { subst stored. unfold updateUserStatistics. cbn [userStats].
    now destruct (findOneUser _ _). }
  clearbody stored.
  assert (onMessage imageHash sha256hex stored b
          = (trackDuplicate stored (Msg.from_id (msg b)) (senderName (msg b)) (now b),
             DuplicateNotice mediaType1 original (Msg.message_id (msg b)))) as Hsecond.
  { rewrite (onMessage_posted imageHash sha256hex stored b mediaType1 Hb), Hbytes.
    rewrite <- (hashMedia_kind imageHash sha256hex (mediaBuffer a) mediaType mediaType1
                  Hkind).
    fold fingerprint.
    rewrite (lookup_after_store db stored fingerprint mediaType mediaType1
               defaultSimilarityThreshold original []);
      try assumption; try reflexivity.
    now split. }
  rewrite Hfirst. cbn [fst snd]. rewrite Hsecond.
  cbn [fst snd trackDuplicate media duplicateTracking].
  now rewrite Hstored, Hdups.
Qed.

End OneAfterTheOther.

Lemma posts_in_turn_store_one_record_witness :
  let image := [Byte.x12; Byte.x34; Byte.x56] in
  let a := mkEvent (withPhoto "a" (sampleMsg (-100) 1 10)) true image 1000 in
  let b := mkEvent (withPhoto "b" (sampleMsg (-100) 2 11)) true image 1001 in
  let final := interleave sampleImageHash sampleDigest emptyDb [Waiting a; Waiting b]
                          [0; 0; 1; 1] in
  let original := recordOf a (hashMedia sampleImageHash sampleDigest image Photo) Photo in
  snd final
  = [Finished (Stored original); Finished (DuplicateNotice Photo original 11)]
  /\ media (fst final) = [original]
  /\ duplicateTracking (fst final) = [DuplicateEntry.mk 2 (senderName (msg b)) 1001].
Proof.
  cbv zeta.
  refine (posts_in_turn_store_one_record sampleImageHash sampleDigest emptyDb
            (mkEvent (withPhoto "a" (sampleMsg (-100) 1 10)) true
                     [Byte.x12; Byte.x34; Byte.x56] 1000)
            (mkEvent (withPhoto "b" (sampleMsg (-100) 2 11)) true
                     [Byte.x12; Byte.x34; Byte.x56] 1001)
            Photo Photo eq_refl eq_refl eq_refl eq_refl _ eq_refl).
  vm_compute. discriminate.
Defined.

(** ** Matching across chats *)

Lemma similarityStep_inChat (rename : Z -> Z) (hash : string) (threshold : nat)
    (acc : option Media.t * nat) (m : Media.t) :
  similarityStep hash threshold (option_map (inChat rename) (fst acc), snd acc)
                 (inChat rename m)
  = (option_map (inChat rename) (fst (similarityStep hash threshold acc m)),
     snd (similarityStep hash threshold acc m)).
Proof.
  unfold similarityStep. cbn [Media.hash inChat snd].
  destruct (calculateHashDistance (Some hash) (Some (Media.hash m))) as [d|];
    [|reflexivity].
  now destruct ((d <=? threshold) && (d <? snd acc)).
Qed.

Lemma scan_inChat (rename : Z -> Z) (hash : string) (threshold : nat)
    (l : list Media.t) (acc : option Media.t * nat) :
  fold_left (similarityStep hash threshold) (map (inChat rename) l)
            (option_map (inChat rename) (fst acc), snd acc)
  = (option_map (inChat rename) (fst (fold_left (similarityStep hash threshold) l acc)),
     snd (fold_left (similarityStep hash threshold) l acc)).
Proof.
  revert acc. induction l as [|m l IH]; intros acc; cbn [map fold_left]; [reflexivity|].
  now rewrite similarityStep_inChat, IH.
Qed.

Lemma findSimilarMedia_ignores_chatId (rename : Z -> Z) (db : Db) (hash : string)
    (mediaType : MediaType) (threshold : nat) :
  findSimilarMedia (mkDb (map (inChat rename) (media db)) (userStats db)
                         (duplicateTracking db)) hash mediaType threshold
  = option_map (inChat rename) (findSimilarMedia db hash mediaType threshold).
Proof.
  unfold findSimilarMedia, perceptualMedia. cbn [media].
  destruct (isPerceptualType mediaType); cbn [negb].
  - assert (filter (fun m => isPerceptualType (Media.mediaType m))
                   (map (inChat rename) (media db))
            = map (inChat rename)
                  (filter (fun m => isPerceptualType (Media.mediaType m)) (media db)))
      as ->.
    { induction (media db) as [|m l IH]; cbn; [reflexivity|].
      destruct (isPerceptualType (Media.mediaType m)); cbn; now rewrite IH. }
    now rewrite (scan_inChat rename hash threshold _ (None, threshold + 1)).
  - induction (media db) as [|m l IH]; cbn; [reflexivity|].
    now destruct (String.eqb (Media.hash m) hash).
Qed.

Lemma storedWhenNew_before (l : list Media.t) :
  storedWhenNew l ->
  forall pre r post,
    l = pre ++ r :: post ->
    findSimilarMedia (mkDb pre [] []) (Media.hash r) (Media.mediaType r)
                     defaultSimilarityThreshold = None.
Proof.
  induction 1 as [|stored record Hstored IH Hnew]; intros pre r post Hsplit.
  - now destruct pre.
  - destruct post as [|p post] using rev_ind.
    + apply app_inj_tail in Hsplit as [-> ->]. exact Hnew.
    + clear IHpost. rewrite app_comm_cons, app_assoc in Hsplit.
      apply app_inj_tail in Hsplit as [-> _]. now apply (IH pre r post).
Qed.

Lemma filter_split_later {A : Type} (keep : A -> bool) (l pre post : list A) (x y : A) :
  filter keep l = pre ++ x :: post -> In y post ->
  exists before after, l = before ++ y :: after /\ In x before.
Proof.
  revert pre. induction l as [|a l IH]; intros pre Hsplit Hin; cbn in Hsplit.
  - now destruct pre.
  - destruct (keep a).
    + destruct pre as [|b pre]; cbn in Hsplit; injection Hsplit as -> Hrest.
      * assert (In y l) as Hy.
        { assert (In y (filter keep l)) as Hf by now rewrite Hrest.
          now apply filter_In in Hf. }
        apply in_split in Hy as (before & after & ->).
        exists (x :: before), after. split; [reflexivity|now left].
      * destruct (IH pre Hrest Hin) as (before & after & -> & Hx).
        exists (b :: before), after. split; [reflexivity|now right].
    + destruct (IH pre Hsplit Hin) as (before & after & -> & Hx).
      exists (a :: before), after. split; [reflexivity|now right].
Qed.

Lemma distance_zero_same_hash (hash : string) (m : Media.t) :
  distanceTo hash m = Finite 0 -> Media.hash m = hash.
Proof.
  unfold distanceTo. intros Hd.
  apply calculateHashDistance_finite in Hd
    as (h1 & h2 & [= <-] & [= <-] & _ & _ & Hlen & Hzero).
  symmetry. now apply differingPositions_zero.
Qed.

Lemma distance_same_hash (m : Media.t) :
  Media.hash m <> EmptyString -> distanceTo (Media.hash m) m = Finite 0.
Proof.
  intros Hne. unfold distanceTo.
  rewrite calculateHashDistance_comparable by (assumption || reflexivity).
  now rewrite differingPositions_refl.
Qed.

(** In a store whose records were each new when stored, a fingerprint that
    equals a stored record's is looked up to that very record. *)
Lemma identical_fingerprint_found (l : list Media.t) (r : Media.t) (mediaType : MediaType) :
  storedWhenNew l ->
  In r l ->
  isPerceptualType mediaType = isPerceptualType (Media.mediaType r) ->
  Media.hash r <> EmptyString ->
  findSimilarMedia (mkDb l [] []) (Media.hash r) mediaType defaultSimilarityThreshold
  = Some r.
Proof.
  intros Hnew Hin Hkind Hne.
  rewrite (findSimilarMedia_kind _ _ mediaType (Media.mediaType r) _ Hkind).
  destruct (isPerceptualType (Media.mediaType r)) eqn:Hp.
  - pose proof (findSimilarMedia_scan (mkDb l [] []) (Media.hash r)
                  (Media.mediaType r) defaultSimilarityThreshold Hp) as Hscan.
    assert (In r (perceptualMedia (mkDb l [] []))) as Hr
        by (apply filter_In; now split).
    pose proof (distance_same_hash r Hne) as Hzero.
    destruct (findSimilarMedia _ _ _ _) as [found|].
    + destruct Hscan as (pre & post & d & Hsplit & Hd & _ & Hpre & Hpost).
      rewrite Hsplit in Hr. apply in_app_or in Hr as [Hr|[Hr|Hr]].
      * specialize (Hpre _ _ Hr Hzero). lia.
      * now subst.
      * specialize (Hpost _ _ Hr Hzero). assert (d = 0) as -> by lia.
        destruct (filter_split_later _ _ _ _ _ _ Hsplit Hr) as (before & after & Hl & Hfound).
        cbn [media] in Hl.
        pose proof (storedWhenNew_before l Hnew before r after Hl) as Hfresh.
        pose proof (findSimilarMedia_scan (mkDb before [] []) (Media.hash r)
                      (Media.mediaType r) defaultSimilarityThreshold Hp) as Hnone.
        rewrite Hfresh in Hnone.
        assert (In found (perceptualMedia (mkDb before [] []))) as Hfb.
        { apply filter_In. split; [assumption|].
          assert (In found (perceptualMedia (mkDb l [] []))) as Hfl
              by (rewrite Hsplit; apply in_or_app; right; now left).
          now apply filter_In in Hfl. }
        specialize (Hnone _ Hfb). unfold withinThreshold in Hnone.
        rewrite Hd in Hnone. discriminate.
    + specialize (Hscan _ Hr). unfold withinThreshold in Hscan.
      rewrite Hzero in Hscan. discriminate.
  - apply in_split in Hin as (pre & post & ->).
    pose proof (storedWhenNew_before _ Hnew pre r post eq_refl) as Hfresh.
    revert Hfresh. unfold findSimilarMedia. rewrite Hp. cbn [negb media].
    intros Hfresh. rewrite find_app_first, Hfresh. cbn [find].
    now rewrite String.eqb_refl.
Qed.

Section AcrossChats.

Variable imageHash : Buffer -> nat -> bool -> option string.
Variable sha256hex : Buffer -> string.

Lemma onMessage_storedWhenNew (db : Db) (ev : Event) :
  storedWhenNew (media db) ->
  storedWhenNew (media (fst (onMessage imageHash sha256hex db ev))).
Proof.
  intros Hnew.
  pose proof (onMessage_writes imageHash sha256hex db ev) as [Hm _].
  pose proof (onMessage_effect imageHash sha256hex db ev) as Heff.
  cbv zeta in Hm, Heff. rewrite Hm. unfold storedRecords. cbn [flat_map fst snd].
  destruct (snd (onMessage imageHash sha256hex db ev)) as [| | | | |record|];
    rewrite ?app_nil_r; try assumption.
  destruct Heff as (mediaHash & mediaType & _ & Hnone & -> & _).
  cbn [app]. apply storedWhenNew_snoc; [assumption|].
  cbn [recordOf Media.hash Media.mediaType].
  now rewrite (findSimilarMedia_media _ db) by reflexivity.
Qed.

Lemma run_storedWhenNew (events : list Event) (db : Db) :
  storedWhenNew (media db) ->
  storedWhenNew (media (fst (run imageHash sha256hex db events))).
Proof.
  revert db. induction events as [|ev rest IH]; intros db Hnew; [assumption|].
  cbn [run]. pose proof (onMessage_storedWhenNew db ev Hnew) as Hstep.
  destruct (onMessage imageHash sha256hex db ev) as [db1 o]. cbn [fst] in Hstep.
  specialize (IH db1 Hstep).
  now destruct (run imageHash sha256hex db1 rest).
Qed.

Lemma file_is_taken_up (ev : Event) (mediaFileId : string) (mediaType : MediaType) :
  chatIsGroup ev = true ->
  isCommand (msg ev) = false ->
  pickMedia (msg ev) = File mediaFileId mediaType ->
  truthy (Some mediaFileId) = true ->
  postedKind ev = Some mediaType.
Proof.
  intros Hgroup Hcommand Hpicked Hid. unfold postedKind, answeredCommand.
  rewrite Hgroup, Hcommand, Hpicked, Hid. cbn [negb andb].
  assert (hasMedia (msg ev) = true) as ->.
  { revert Hpicked. unfold pickMedia, hasMedia.
    now destruct (Msg.photo (msg ev)), (Msg.video (msg ev)), (Msg.document (msg ev)). }
  now destruct (Msg.text (msg ev)).
Qed.

(** C9, as amended: the lookup never reads a chat id: moving the stored
    records to other chats moves the answer along and changes nothing else.
    So, in the store any sequence of messages has built, a file posted in a
    group or supergroup, whatever group that is, whose fingerprint equals
    that of a stored record of the same class (image or not) is reported as a
    duplicate of that record. An image whose fingerprint is within the
    threshold of a stored image record is reported as a duplicate of the
    stored image record closest to it, the first stored among the closest,
    which is that record when no other stored image record is as close. The
    same file posted in a chat that is no group is ignored. *)
Theorem duplicate_matching_spans_groups
    (events : list Event) (ev : Event) (r : Media.t) (mediaFileId : string)
    (mediaType : MediaType) :
  let db := fst (run imageHash sha256hex emptyDb events) in
  let fingerprint := hashMedia imageHash sha256hex (mediaBuffer ev) mediaType in
  let reported existing :=
    (trackDuplicate db (Msg.from_id (msg ev)) (senderName (msg ev)) (now ev),
     DuplicateNotice mediaType existing (Msg.message_id (msg ev))) in
  In r (media db) ->
  pickMedia (msg ev) = File mediaFileId mediaType ->
  truthy (Some mediaFileId) = true ->
  isCommand (msg ev) = false ->
  isPerceptualType mediaType = isPerceptualType (Media.mediaType r) ->
  (forall rename hash kind threshold,
      findSimilarMedia (mkDb (map (inChat rename) (media db)) (userStats db)
                             (duplicateTracking db)) hash kind threshold
      = option_map (inChat rename) (findSimilarMedia db hash kind threshold))
  /\ (chatIsGroup ev = false -> onMessage imageHash sha256hex db ev = (db, Ignored))
  /\ (chatIsGroup ev = true -> fingerprint = Media.hash r -> fingerprint <> EmptyString ->
      onMessage imageHash sha256hex db ev = reported r)
  /\ (chatIsGroup ev = true -> isPerceptualType mediaType = true ->
      withinThreshold fingerprint defaultSimilarityThreshold r = true ->
      exists closest d d1 pre post,
        onMessage imageHash sha256hex db ev = reported closest
        /\ perceptualMedia db = pre ++ closest :: post
        /\ distanceTo fingerprint closest = Finite d
        /\ distanceTo fingerprint r = Finite d1
        /\ d <= d1 <= defaultSimilarityThreshold
        /\ (forall m dm, In m pre -> distanceTo fingerprint m = Finite dm -> d < dm)
        /\ (forall m dm, In m post -> distanceTo fingerprint m = Finite dm -> d <= dm)
        /\ ((forall m dm, In m (perceptualMedia db) ->
                          distanceTo fingerprint m = Finite dm -> dm <= d1 -> m = r) ->
            closest = r)).
Proof.
  intros db fingerprint reported Hin Hpicked Hid Hcommand Hkind.
  split; [intros; apply findSimilarMedia_ignores_chatId|].
  split.
  { intros Hprivate. unfold onMessage. now rewrite Hprivate, Hcommand. }
  split.
  - intros Hgroup Hsame Hne.
    pose proof (file_is_taken_up ev mediaFileId mediaType Hgroup Hcommand Hpicked Hid)
      as Hposted.
    rewrite (onMessage_posted imageHash sha256hex db ev mediaType Hposted).
    fold fingerprint.
    assert (storedWhenNew (media db)) as Hnew
        by (apply run_storedWhenNew; constructor).
    rewrite (findSimilarMedia_media db (mkDb (media db) [] [])) by reflexivity.
    rewrite Hsame in Hne |- *.
    now rewrite (identical_fingerprint_found (media db) r mediaType Hnew Hin Hkind Hne).
  - intros Hgroup Hp Hwithin.
    pose proof (file_is_taken_up ev mediaFileId mediaType Hgroup Hcommand Hpicked Hid)
      as Hposted.
    rewrite (onMessage_posted imageHash sha256hex db ev mediaType Hposted).
    fold fingerprint.
    assert (In r (perceptualMedia db)) as Hr
        by (apply filter_In; split; [assumption|now rewrite <- Hkind]).
    pose proof (findSimilarMedia_scan db fingerprint mediaType
                  defaultSimilarityThreshold Hp) as Hscan.
    unfold withinThreshold in Hwithin.
    destruct (distanceTo fingerprint r) as [d1|] eqn:Hd1; [|discriminate].
    apply Nat.leb_le in Hwithin.
    destruct (findSimilarMedia db fingerprint mediaType defaultSimilarityThreshold)
      as [closest|] eqn:Hfound.
    + destruct Hscan as (pre & post & d & Hsplit & Hd & Hle & Hpre & Hpost).
      assert (d <= d1) as Hcloser.
      { rewrite Hsplit in Hr. apply in_app_or in Hr as [Hr|[Hr|Hr]].
        - specialize (Hpre _ _ Hr Hd1). lia.
        - subst closest. rewrite Hd1 in Hd. injection Hd as <-. lia.
        - specialize (Hpost _ _ Hr Hd1). lia. }
      exists closest, d, d1, pre, post. split; [reflexivity|].
      split; [assumption|]. split; [assumption|]. split; [reflexivity|].
      split; [lia|]. split; [assumption|]. split; [assumption|].
      intros Honly. apply (Honly closest d); [|assumption|assumption].
      rewrite Hsplit. apply in_or_app. right. now left.
    + specialize (Hscan _ Hr). unfold withinThreshold in Hscan.
      rewrite Hd1 in Hscan. apply Nat.leb_gt in Hscan. lia.
Qed.

End AcrossChats.

Lemma duplicate_matching_spans_groups_witness :
  let image := [Byte.x12; Byte.x34; Byte.x56] in
  let first := mkEvent (withPhoto "a" (sampleMsg (-100) 1 10)) true image 1000 in
  let again := mkEvent (withDocument "b" "image/png" (sampleMsg (-200) 2 77)) true image 2000 in
  let db := fst (run sampleImageHash sampleDigest emptyDb [first]) in
  let original := recordOf first (pad64 "123456") Photo in
  Media.chatId original <> Msg.chat_id (msg again)
  /\ onMessage sampleImageHash sampleDigest db again
     = (trackDuplicate db 2 (senderName (msg again)) 2000,
        DuplicateNotice Document original 77).
Proof.
  cbv zeta. split; [discriminate|].
  refine (proj1 (proj2 (proj2 (duplicate_matching_spans_groups sampleImageHash sampleDigest
            [mkEvent (withPhoto "a" (sampleMsg (-100) 1 10)) true
                     [Byte.x12; Byte.x34; Byte.x56] 1000]
            (mkEvent (withDocument "b" "image/png" (sampleMsg (-200) 2 77)) true
                     [Byte.x12; Byte.x34; Byte.x56] 2000)
            (recordOf (mkEvent (withPhoto "a" (sampleMsg (-100) 1 10)) true
                               [Byte.x12; Byte.x34; Byte.x56] 1000)
                      (pad64 "123456") Photo)
            "b"%string Document _ eq_refl eq_refl eq_refl eq_refl))) eq_refl eq_refl _).
  - vm_compute. now left.
  - vm_compute. discriminate.
Defined.

(** C9 as stated fails twice. A photo stored from a group and posted again in
    a private chat is not reported: the handler ignores it. And of two stored
    photos, from two groups, within the threshold of a third, the third is
    reported against the closer one, not against the other. *)
Lemma private_chat_is_ignored_and_closest_record_wins :
  let image := [Byte.x12; Byte.x34; Byte.x56] in
  let first := mkEvent (withPhoto "a" (sampleMsg (-100) 1 10)) true image 1000 in
  let private := mkEvent (withPhoto "b" (sampleMsg 555 2 77)) false image 2000 in
  let db := fst (run sampleImageHash sampleDigest emptyDb [first]) in
  let near := mkEvent (withPhoto "c" (sampleMsg (-100) 1 11))
                      true [Byte.x00; Byte.x01; Byte.x11] 1000 in
  let far := mkEvent (withPhoto "d" (sampleMsg (-200) 2 12))
                     true [Byte.x11; Byte.x10; Byte.x00] 2000 in
  let third := mkEvent (withPhoto "e" (sampleMsg (-300) 3 13))
                       true [Byte.x00; Byte.x01; Byte.x10] 3000 in
  let db2 := fst (run sampleImageHash sampleDigest emptyDb [near; far]) in
  (media db = [recordOf first (pad64 "123456") Photo]
   /\ hashMedia sampleImageHash sampleDigest (mediaBuffer private) Photo = pad64 "123456"
   /\ onMessage sampleImageHash sampleDigest db private = (db, Ignored))
  /\ (media db2 = [recordOf near (pad64 "000111") Photo; recordOf far (pad64 "111000") Photo]
      /\ hashMedia sampleImageHash sampleDigest (mediaBuffer third) Photo = pad64 "000110"
      /\ distanceTo (pad64 "000110") (recordOf near (pad64 "000111") Photo) = Finite 1
      /\ distanceTo (pad64 "000110") (recordOf far (pad64 "111000") Photo) = Finite 5
      /\ snd (onMessage sampleImageHash sampleDigest db2 third)
         = DuplicateNotice Photo (recordOf near (pad64 "000111") Photo) 13).
Proof. cbv zeta. repeat split; vm_compute; reflexivity. Qed.

(** ** The digest fallback *)

Section DigestFallback.

Variable imageHash : Buffer -> nat -> bool -> option string.
Variable sha256hex : Buffer -> string.






End DigestFallback.


(** ** The weekly report *)

Lemma generateWeeklyStats_reads_userStats (db db1 : Db) :
  userStats db = userStats db1 -> generateWeeklyStats db = generateWeeklyStats db1.
Proof.
  unfold generateWeeklyStats, reportOver. now intros ->.
Qed.

(** C7, on [src/bot.js]: the report is computed from the running counters of
    [userStats] and reads no timestamp. A user who sent one text message,
    posted one photo and re-posted it forty days before the report is still
    listed with two messages and one duplicate, and the totals count the photo
    and the text; the report of the webhook variants over the same documents
    is empty. *)
Theorem weekly_report_counts_all_time :
  let image := [Byte.x12; Byte.x34; Byte.x56] in
  let history :=
    [mkEvent (withText "hello" (sampleMsg (-100) 7 1)) true [] 0;
     mkEvent (withPhoto "a" (sampleMsg (-100) 7 2)) true image 1000;
     mkEvent (withPhoto "b" (sampleMsg (-100) 7 3)) true image 2000] in
  let db := fst (run sampleImageHash sampleDigest emptyDb history) in
  let reportTime := (40 * 24 * 60 * 60 * 1000)%Z in
  forallb (fun m => negb (Webhook.sinceOneWeekAgo reportTime (Media.timestamp m))) (media db)
  = true
  /\ forallb (fun d => negb (Webhook.sinceOneWeekAgo reportTime (DuplicateEntry.timestamp d)))
             (duplicateTracking db) = true
  /\ forallb (fun u => negb (Webhook.sinceOneWeekAgo reportTime (UserStats.lastActive u)))
             (userStats db) = true
  /\ generateWeeklyStats db
     = mkReport [(Name "user", Some 2)] 1 0 0 1 [(Name "user", Some 1)]
  /\ generateWeeklyStats emptyDb = mkReport [] 0 0 0 0 []
  /\ Webhook.generateWeeklyStats reportTime
       (Webhook.mkStore (media db)
                        [Webhook.TextMessage.mk 7 "user" 1 0 (-100)]
                        (duplicateTracking db) [])
     = Webhook.mkReport [] None 0 0 0 0 [].
Proof.
  cbv zeta.
  assert (fst (run sampleImageHash sampleDigest emptyDb
                 [mkEvent (withText "hello" (sampleMsg (-100) 7 1)) true [] 0;
                  mkEvent (withPhoto "a" (sampleMsg (-100) 7 2)) true
                          [Byte.x12; Byte.x34; Byte.x56] 1000;
                  mkEvent (withPhoto "b" (sampleMsg (-100) 7 3)) true
                          [Byte.x12; Byte.x34; Byte.x56] 2000])
          = mkDb [Media.mk (pad64 "123456") 2 7 "user" Photo 1000 (-100)]
                 [UserStats.mk 7 "user" (Some 1) (Some 0) (Some 0) (Some 1) (Some 1)
                               (Some 2) (Some 0%Z) 2000]
                 [DuplicateEntry.mk 7 "user" 2000]) as ->
      by (vm_compute; reflexivity).
  repeat split.
Qed.

(** ** The weekly report of the webhook variants *)

Lemma mediaLoop_reactions (st st1 : Webhook.Store) :
  Webhook.messageReactions st = Webhook.messageReactions st1 ->
  forall acc m, Webhook.mediaLoop st acc m = Webhook.mediaLoop st1 acc m.
Proof.
  intros Hreactions acc m. unfold Webhook.mediaLoop, Webhook.getMessageReactions.
  now rewrite Hreactions.
Qed.

Lemma fold_left_same {A B : Type} (f g : A -> B -> A) (l : list B) (a : A) :
  (forall x y, f x y = g x y) -> fold_left f l a = fold_left g l a.
Proof.
  intros Hfg. revert a. induction l as [|y l IH]; intros a; cbn; [reflexivity|].
  now rewrite Hfg, IH.
Qed.

Lemma filter_twice {A : Type} (keep : A -> bool) (l : list A) :
  filter keep (filter keep l) = filter keep l.
Proof.
  induction l as [|x l IH]; cbn; [reflexivity|].
  destruct (keep x) eqn:Hx; cbn; [|assumption].
  now rewrite Hx, IH.
Qed.

(** X1: the report of the webhook variants is a function of the documents
    dated within the last seven days (and of the reaction counts): two stores
    with the same such documents give the same report, and so does the store
    with every older media record, text message and duplicate entry removed.
    So it is for the report of [part_001] and for what [part_000] prints,
    a report or none. *)
Theorem webhook_report_reads_last_week_only (now : Z) (st : Webhook.Store) :
  (forall st1,
      Webhook.weeklyMedia now st1 = Webhook.weeklyMedia now st ->
      Webhook.weeklyTextMessages now st1 = Webhook.weeklyTextMessages now st ->
      Webhook.weeklyDuplicates now st1 = Webhook.weeklyDuplicates now st ->
      Webhook.messageReactions st1 = Webhook.messageReactions st ->
      Webhook.generateWeeklyStats now st1 = Webhook.generateWeeklyStats now st)
  /\ Webhook.generateWeeklyStats now
       (Webhook.mkStore (Webhook.weeklyMedia now st) (Webhook.weeklyTextMessages now st)
                        (Webhook.weeklyDuplicates now st) (Webhook.messageReactions st))
     = Webhook.generateWeeklyStats now st
  /\ (forall st1,
      Webhook.weeklyMedia now st1 = Webhook.weeklyMedia now st ->
      Webhook.weeklyTextMessages now st1 = Webhook.weeklyTextMessages now st ->
      Webhook.weeklyDuplicates now st1 = Webhook.weeklyDuplicates now st ->
      Webhook.messageReactions st1 = Webhook.messageReactions st ->
      Webhook.Part000.generateWeeklyStats now st1
      = Webhook.Part000.generateWeeklyStats now st)
  /\ Webhook.Part000.generateWeeklyStats now
       (Webhook.mkStore (Webhook.weeklyMedia now st) (Webhook.weeklyTextMessages now st)
                        (Webhook.weeklyDuplicates now st) (Webhook.messageReactions st))
     = Webhook.Part000.generateWeeklyStats now st.
Proof.
  assert (forall st1,
             Webhook.weeklyMedia now st1 = Webhook.weeklyMedia now st ->
             Webhook.weeklyTextMessages now st1 = Webhook.weeklyTextMessages now st ->
             Webhook.weeklyDuplicates now st1 = Webhook.weeklyDuplicates now st ->
             Webhook.messageReactions st1 = Webhook.messageReactions st ->
             Webhook.generateWeeklyStats now st1 = Webhook.generateWeeklyStats now st)
    as Hsame.
  { intros st1 Hm Ht Hd Hr. unfold Webhook.generateWeeklyStats.
    rewrite Hm, Ht, Hd.
    now rewrite (fold_left_same _ _ _ _ (mediaLoop_reactions st1 st Hr)). }
  assert (forall st1,
             Webhook.weeklyMedia now st1 = Webhook.weeklyMedia now st ->
             Webhook.weeklyTextMessages now st1 = Webhook.weeklyTextMessages now st ->
             Webhook.weeklyDuplicates now st1 = Webhook.weeklyDuplicates now st ->
             Webhook.messageReactions st1 = Webhook.messageReactions st ->
             Webhook.Part000.generateWeeklyStats now st1
             = Webhook.Part000.generateWeeklyStats now st)
    as Hsame000.
  { intros st1 Hm Ht Hd Hr. unfold Webhook.Part000.generateWeeklyStats.
    rewrite Hm, Ht, Hd.
    now rewrite (fold_left_same _ _ _ _ (mediaLoop_reactions st1 st Hr)). }
  split; [exact Hsame|]. split; [|split; [exact Hsame000|]].
  - apply Hsame; unfold Webhook.weeklyMedia, Webhook.weeklyTextMessages,
      Webhook.weeklyDuplicates; cbn; try apply filter_twice. reflexivity.
  - apply Hsame000; unfold Webhook.weeklyMedia, Webhook.weeklyTextMessages,
      Webhook.weeklyDuplicates; cbn; try apply filter_twice. reflexivity.
Qed.

Lemma webhook_report_reads_last_week_only_witness :
  let now := (40 * 24 * 60 * 60 * 1000)%Z in
  let recent := Media.mk (pad64 "ab") 5 7 "user" Photo (now - 1000) (-100) in
  let old := Media.mk (pad64 "cd") 1 8 "other" Video 1000 (-100) in
  Webhook.generateWeeklyStats now
    (Webhook.mkStore [old; recent] [Webhook.TextMessage.mk 8 "other" 2 0 (-100)]
                     [DuplicateEntry.mk 8 "other" 2000] [])
  = Webhook.generateWeeklyStats now (Webhook.mkStore [recent] [] [] []).
Proof.
  cbv zeta.
  apply (proj1 (webhook_report_reads_last_week_only _ _)); reflexivity.
Defined.

(** * Further properties *)

(** ** The distance as a metric *)

Lemma differingPositions_sym (a b : string) :
  differingPositions a b = differingPositions b a.
Proof.
  revert b; induction a as [|x a IH]; intros [|y b]; simpl; try reflexivity.
  rewrite IH. destruct (Ascii.eqb x y) eqn:E.
  - apply Ascii.eqb_eq in E. subst. now rewrite Ascii.eqb_refl.
  - destruct (Ascii.eqb y x) eqn:E1; [|reflexivity].
    apply Ascii.eqb_eq in E1. subst. now rewrite Ascii.eqb_refl in E.
Qed.

Lemma differingPositions_triangle (a b c : string) :
  String.length a = String.length b -> String.length b = String.length c ->
  differingPositions a c <= differingPositions a b + differingPositions b c.
Proof.
  revert b c; induction a as [|x a IH]; intros [|y b] [|z c] Hab Hbc;
    simpl in *; try discriminate; [lia|].
  specialize (IH b c ltac:(lia) ltac:(lia)).
  destruct (Ascii.eqb x z) eqn:Exz; [lia|].
  destruct (Ascii.eqb x y) eqn:Exy; [|lia].
  destruct (Ascii.eqb y z) eqn:Eyz; [|lia].
  apply Ascii.eqb_eq in Exy, Eyz. subst. now rewrite Ascii.eqb_refl in Exz.
Qed.

Lemma differingPositions_bound (a b : string) :
  differingPositions a b <= String.length a.
Proof.
  revert b; induction a as [|x a IH]; intros [|y b]; simpl; try lia.
  specialize (IH b). destruct (Ascii.eqb x y); lia.
Qed.

Lemma calculateHashDistance_sym (hash1 hash2 : option string) :
  calculateHashDistance hash1 hash2 = calculateHashDistance hash2 hash1.
Proof.
  destruct (calculateHashDistance hash1 hash2) as [d|] eqn:H12.
  - apply calculateHashDistance_finite in H12
      as (h1 & h2 & -> & -> & Hn1 & Hn2 & Hlen & ->).
    rewrite calculateHashDistance_comparable by (assumption || now symmetry).
    now rewrite differingPositions_sym.
  - destruct (calculateHashDistance hash2 hash1) as [d|] eqn:H21; [|reflexivity].
    apply calculateHashDistance_finite in H21
      as (h2 & h1 & -> & -> & Hn2 & Hn1 & Hlen & ->).
    rewrite calculateHashDistance_comparable in H12 by (assumption || now symmetry).
    discriminate.
Qed.

(** X2: on fingerprints that can be compared (present, non-empty, of one
    length) [calculateHashDistance] is a metric bounded by the length: it is
    symmetric, it is 0 exactly between equal fingerprints, and it obeys the
    triangle inequality, the distance from the first to the third being
    defined whenever the two others are. *)
Theorem calculateHashDistance_metric (hash1 hash2 hash3 : option string) :
  calculateHashDistance hash1 hash2 = calculateHashDistance hash2 hash1
  /\ (calculateHashDistance hash1 hash2 = Finite 0 <-> hash1 = hash2 /\ truthy hash1 = true)
  /\ (forall d12 d23,
        calculateHashDistance hash1 hash2 = Finite d12 ->
        calculateHashDistance hash2 hash3 = Finite d23 ->
        exists d13,
          calculateHashDistance hash1 hash3 = Finite d13 /\ d13 <= d12 + d23)
  /\ (forall h1 d,
        hash1 = Some h1 -> calculateHashDistance hash1 hash2 = Finite d ->
        d <= String.length h1).
Proof.
  split; [apply calculateHashDistance_sym|]. split; [|split].
  - split.
    + intros Hzero. apply calculateHashDistance_finite in Hzero
        as (h1 & h2 & -> & -> & Hn1 & _ & Hlen & Hd).
      split; [f_equal; now apply differingPositions_zero|].
      destruct h1; [congruence|reflexivity].
    + intros [<- Htruthy]. destruct hash1 as [[|c h]|]; try discriminate.
      rewrite calculateHashDistance_comparable by (discriminate || reflexivity).
      now rewrite differingPositions_refl.
  - intros d12 d23 H12 H23.
    apply calculateHashDistance_finite in H12
      as (h1 & h2 & -> & -> & Hn1 & Hn2 & Hlen12 & ->).
    apply calculateHashDistance_finite in H23
      as (h2' & h3 & [= <-] & -> & _ & Hn3 & Hlen23 & ->).
    exists (differingPositions h1 h3).
    split; [apply calculateHashDistance_comparable; congruence|].
    now apply differingPositions_triangle.
  - intros h1 d -> Hd.
    apply calculateHashDistance_finite in Hd
      as (h1' & h2 & [= <-] & -> & _ & _ & _ & ->).
    apply differingPositions_bound.
Qed.

Lemma calculateHashDistance_metric_witness :
  exists d13,
    calculateHashDistance (Some (pad64 "ab")) (Some (pad64 "cd")) = Finite d13
    /\ d13 <= 1 + 1.
Proof.
  apply (proj1 (proj2 (proj2 (calculateHashDistance_metric
           (Some (pad64 "ab")) (Some (pad64 "ad")) (Some (pad64 "cd")))))
           1 1); reflexivity.
Defined.

(** ** The threshold *)

Lemma first_closest_unique (hash : string) (pre post pre1 post1 : list Media.t)
    (r r1 : Media.t) (d d1 : nat) :
  pre ++ r :: post = pre1 ++ r1 :: post1 ->
  distanceTo hash r = Finite d ->
  distanceTo hash r1 = Finite d1 ->
  (forall m k, In m pre -> distanceTo hash m = Finite k -> d < k) ->
  (forall m k, In m post -> distanceTo hash m = Finite k -> d <= k) ->
  (forall m k, In m pre1 -> distanceTo hash m = Finite k -> d1 < k) ->
  (forall m k, In m post1 -> distanceTo hash m = Finite k -> d1 <= k) ->
  r = r1.
Proof.
  revert pre1. induction pre as [|x pre IH]; intros [|x1 pre1] Hsplit Hr Hr1 Hpre Hpost Hpre1 Hpost1;
    cbn [app] in Hsplit.
  - now injection Hsplit.
  - injection Hsplit as <- ->.
    assert (d1 < d) by (apply (Hpre1 r); [now left|assumption]).
    assert (d <= d1) by (apply (Hpost r1); [apply in_or_app; right; now left|assumption]).
    lia.
  - injection Hsplit as -> <-.
    assert (d < d1) by (apply (Hpre r1); [now left|assumption]).
    assert (d1 <= d) by (apply (Hpost1 r); [apply in_or_app; right; now left|assumption]).
    lia.
  - injection Hsplit as <- Hsplit.
    apply (IH pre1); try assumption.
    + intros m k Hin. apply Hpre. now right.
    + intros m k Hin. apply Hpre1. now right.
Qed.

(** X3: the threshold decides only whether the closest record counts. When
    the threshold is raised, a record that was found is still the record
    found, and a record found only now is one the lower threshold kept out. *)
Theorem raising_threshold_keeps_match
    (db : Db) (hash : string) (mediaType : MediaType) (threshold threshold1 : nat) :
  threshold <= threshold1 ->
  match findSimilarMedia db hash mediaType threshold with
  | Some r => findSimilarMedia db hash mediaType threshold1 = Some r
  | None =>
      forall r, findSimilarMedia db hash mediaType threshold1 = Some r ->
                isPerceptualType (Media.mediaType r) = true
                /\ withinThreshold hash threshold r = false
  end.
Proof.
  intros Hle. destruct (isPerceptualType mediaType) eqn:Hkind.
  - pose proof (findSimilarMedia_scan db hash mediaType threshold Hkind) as Hlow.
    pose proof (findSimilarMedia_scan db hash mediaType threshold1 Hkind) as Hhigh.
    destruct (findSimilarMedia db hash mediaType threshold) as [r|].
    + destruct Hlow as (pre & post & d & Hsplit & Hd & Hdle & Hpre & Hpost).
      assert (In r (perceptualMedia db)) as Hin
          by (rewrite Hsplit; apply in_or_app; right; now left).
      destruct (findSimilarMedia db hash mediaType threshold1) as [r1|].
      * destruct Hhigh as (pre1 & post1 & d1 & Hsplit1 & Hd1 & _ & Hpre1 & Hpost1).
        f_equal. symmetry.
        apply (first_closest_unique hash pre post pre1 post1 r r1 d d1);
          try assumption. congruence.
      * specialize (Hhigh r Hin). unfold withinThreshold in Hhigh.
        rewrite Hd in Hhigh. apply Nat.leb_gt in Hhigh. lia.
    + intros r1 Hfound. rewrite Hfound in Hhigh.
      destruct Hhigh as (pre1 & post1 & d1 & Hsplit1 & _).
      assert (In r1 (perceptualMedia db)) as Hin
          by (rewrite Hsplit1; apply in_or_app; right; now left).
      split; [|now apply Hlow]. apply filter_In in Hin. tauto.
  - unfold findSimilarMedia. rewrite Hkind. cbn [negb].
    destruct (find _ (media db)); [reflexivity|discriminate].
Qed.

Lemma raising_threshold_keeps_match_witness :
  let db := mkDb [samplePhoto (pad64 "000111") 2 1000; samplePhoto (pad64 "100000") 1 2000]
                 [] [] in
  findSimilarMedia db (pad64 "000000") Photo 9 = Some (samplePhoto (pad64 "100000") 1 2000).
Proof.
  cbv zeta.
  exact (raising_threshold_keeps_match
           (mkDb [samplePhoto (pad64 "000111") 2 1000; samplePhoto (pad64 "100000") 1 2000]
                 [] [])
           (pad64 "000000") Photo 2 9 ltac:(lia)).
Defined.

(** ** When a post is a duplicate *)

Section Decision.

Variable imageHash : Buffer -> nat -> bool -> option string.
Variable sha256hex : Buffer -> string.

(** X4: a media post taken up by the handler is stored exactly when no stored
    record answers its fingerprint, and reported exactly when one does; the
    record it is reported against is a stored record that answers it. An
    image post is answered by image records within five positions only, never
    by a video record; a video post is answered by any record that carries
    its digest, an image record included. *)
Theorem post_is_duplicate_iff_a_record_matches
    (db : Db) (ev : Event) (mediaType : MediaType) :
  postedKind ev = Some mediaType ->
  let fingerprint := hashMedia imageHash sha256hex (mediaBuffer ev) mediaType in
  let outcome := snd (onMessage imageHash sha256hex db ev) in
  (outcome = Stored (recordOf ev fingerprint mediaType)
   <-> forall m, In m (media db) -> matches fingerprint mediaType m = false)
  /\ ((exists existing, outcome = DuplicateNotice mediaType existing (Msg.message_id (msg ev)))
      <-> exists m, In m (media db) /\ matches fingerprint mediaType m = true)
  /\ (forall kind existing reply_to,
        outcome = DuplicateNotice kind existing reply_to ->
        In existing (media db) /\ matches fingerprint mediaType existing = true)
  /\ (outcome = Stored (recordOf ev fingerprint mediaType)
      \/ exists existing,
           outcome = DuplicateNotice mediaType existing (Msg.message_id (msg ev))).
Proof.
  intros Hposted fingerprint outcome. subst outcome.
  rewrite (onMessage_posted imageHash sha256hex db ev mediaType Hposted).
  fold fingerprint. unfold settleMedia.
  destruct (findSimilarMedia db fingerprint mediaType defaultSimilarityThreshold)
    as [existing|] eqn:Hfound; cbn [snd].
  - destruct (lookup_finds_a_match db fingerprint mediaType existing Hfound)
      as [Hin Hmatch].
    split; [|split; [|split]].
    + split; [discriminate|]. intros Hnone. specialize (Hnone _ Hin). congruence.
    + split; [intros _; now exists existing|intros _; now exists existing].
    + intros kind found reply_to [= <- <- _]. now split.
    + right. now exists existing.
  - pose proof (lookup_misses_no_match db fingerprint mediaType Hfound) as Hnone.
    split; [|split; [|split]].
    + split; [intros _; exact Hnone|reflexivity].
    + split; [intros [existing Hex]; discriminate|].
      intros (m & Hin & Hm). specialize (Hnone _ Hin). congruence.
    + discriminate.
    + now left.
Qed.

End Decision.

Lemma post_is_duplicate_iff_a_record_matches_witness :
  let clip := [Byte.x00; Byte.x01] in
  let video := mkEvent (withVideo "v" (sampleMsg (-100) 2 20)) true clip 2000 in
  let photoRecord := samplePhoto (sampleDigest clip) 1 1000 in
  snd (onMessage sampleImageHash sampleDigest (mkDb [photoRecord] [] []) video)
  = DuplicateNotice Video photoRecord 20.
Proof.
  cbv zeta.
  destruct (proj2 (proj1 (proj2 (post_is_duplicate_iff_a_record_matches
              sampleImageHash sampleDigest
              (mkDb [samplePhoto (sampleDigest [Byte.x00; Byte.x01]) 1 1000] [] [])
              (mkEvent (withVideo "v" (sampleMsg (-100) 2 20)) true
                       [Byte.x00; Byte.x01] 2000)
              Video eq_refl)))) as [existing Hex].
  - exists (samplePhoto (sampleDigest [Byte.x00; Byte.x01]) 1 1000).
    split; [now left|reflexivity].
  - reflexivity.
Defined.

(** ** What the store keeps while messages are handled *)

Lemma findOneUser_none (uid : Z) (l : list UserStats.t) :
  findOneUser uid l = None <-> ~ In uid (map UserStats.userId l).
Proof.
  unfold findOneUser. induction l as [|u l IH]; cbn; [tauto|].
  destruct (Z.eqb (UserStats.userId u) uid) eqn:E.
  - apply Z.eqb_eq in E. split; [discriminate|]. intros H. exfalso. apply H. now left.
  - apply Z.eqb_neq in E. rewrite IH. tauto.
Qed.

Lemma updateOneUser_ids (uid : Z) (f : UserStats.t -> UserStats.t) (l : list UserStats.t) :
  (forall u, UserStats.userId (f u) = UserStats.userId u) ->
  map UserStats.userId (updateOneUser uid f l) = map UserStats.userId l.
Proof.
  intros Hid. induction l as [|u l IH]; cbn; [reflexivity|].
  destruct (Z.eqb (UserStats.userId u) uid); cbn; [now rewrite Hid|now rewrite IH].
Qed.

Lemma writtenFor_NoDup (sender : Z) (f : UserStats.t -> UserStats.t) (init : UserStats.t)
    (before : list UserStats.t) :
  (forall u, UserStats.userId (f u) = UserStats.userId u) ->
  UserStats.userId init = sender ->
  NoDup (map UserStats.userId before) ->
  NoDup (map UserStats.userId (writtenFor sender f init before)).
Proof.
  intros Hid Hinit Hnodup. unfold writtenFor.
  destruct (findOneUser sender before) eqn:Hfound.
  - now rewrite updateOneUser_ids.
  - rewrite map_app. cbn [map]. rewrite Hinit.
    apply findOneUser_none in Hfound.
    apply NoDup_app; [assumption|repeat constructor; intros []|].
    intros x Hx [<-|[]]. contradiction.
Qed.

Lemma writtenFor_others (sender : Z) (f : UserStats.t -> UserStats.t) (init : UserStats.t)
    (before : list UserStats.t) :
  (forall u, UserStats.userId (f u) = UserStats.userId u) ->
  UserStats.userId init = sender ->
  filter (fun u => negb (Z.eqb (UserStats.userId u) sender))
         (writtenFor sender f init before)
  = filter (fun u => negb (Z.eqb (UserStats.userId u) sender)) before.
Proof.
  intros Hid Hinit. unfold writtenFor. destruct (findOneUser sender before) as [found|].
  - induction before as [|u l IH]; cbn; [reflexivity|].
    destruct (Z.eqb (UserStats.userId u) sender) eqn:E; cbn.
    + now rewrite Hid, E.
    + now rewrite E, IH.
  - rewrite filter_app. cbn. rewrite Hinit, Z.eqb_refl. cbn. now rewrite app_nil_r.
Qed.

Lemma writtenFor_sender (sender : Z) (f : UserStats.t -> UserStats.t) (init : UserStats.t)
    (before : list UserStats.t) :
  (forall u, UserStats.userId (f u) = UserStats.userId u) ->
  UserStats.userId init = sender ->
  findOneUser sender (writtenFor sender f init before)
  = Some (match findOneUser sender before with
          | Some u => f u
          | None => init
          end).
Proof.
  intros Hid Hinit. unfold writtenFor.
  destruct (findOneUser sender before) as [found|] eqn:Hfound.
  - rewrite findOneUser_updateOneUser by assumption. now rewrite Z.eqb_refl, Hfound.
  - now rewrite findOneUser_app, Hfound, Hinit, Z.eqb_refl.
Qed.

Lemma writtenFor_other (sender uid : Z) (f : UserStats.t -> UserStats.t)
    (init : UserStats.t) (before : list UserStats.t) :
  (forall u, UserStats.userId (f u) = UserStats.userId u) ->
  UserStats.userId init = sender ->
  sender <> uid ->
  findOneUser uid (writtenFor sender f init before) = findOneUser uid before.
Proof.
  intros Hid Hinit Hne. unfold writtenFor. apply Z.eqb_neq in Hne.
  destruct (findOneUser sender before) as [found|] eqn:Hfound.
  - rewrite findOneUser_updateOneUser by assumption. now rewrite Hne.
  - rewrite findOneUser_app, Hinit, Hne. now destruct (findOneUser uid before).
Qed.

Lemma updateUserStatistics_written (db : Db) (uid : Z) (username : string)
    (mediaType : MediaType) (now : Z) :
  userStats (updateUserStatistics db uid username mediaType now)
  = writtenFor uid (countMessage username mediaType now)
               (newUserStats uid username mediaType now) (userStats db).
Proof.
  unfold updateUserStatistics, writtenFor. now destruct (findOneUser uid (userStats db)).
Qed.

Lemma trackDuplicate_written (db : Db) (uid : Z) (username : string) (now : Z) :
  userStats (trackDuplicate db uid username now)
  = writtenFor uid (countDuplicate username now) (upsertedStats uid username now)
               (userStats db).
Proof. reflexivity. Qed.

Section StoreKeeps.

Variable imageHash : Buffer -> nat -> bool -> option string.
Variable sha256hex : Buffer -> string.

(** The write on [userStats] that goes with each outcome. *)
Lemma onMessage_userStats (db : Db) (ev : Event) :
  let sender := Msg.from_id (msg ev) in
  let name := senderName (msg ev) in
  let after := userStats (fst (onMessage imageHash sha256hex db ev)) in
  match snd (onMessage imageHash sha256hex db ev) with
  | Stored record =>
      after = writtenFor sender (countMessage name (Media.mediaType record) (now ev))
                (newUserStats sender name (Media.mediaType record) (now ev)) (userStats db)
  | CountedText =>
      after = writtenFor sender (countMessage name Text (now ev))
                (newUserStats sender name Text (now ev)) (userStats db)
  | DuplicateNotice _ _ _ =>
      after = writtenFor sender (countDuplicate name (now ev))
                (upsertedStats sender name (now ev)) (userStats db)
  | _ => after = userStats db
  end.
Proof.
  cbv zeta. pose proof (onMessage_effect imageHash sha256hex db ev) as Heff.
  cbv zeta in Heff.
  destruct (onMessage imageHash sha256hex db ev) as [db1 o]. cbn [fst snd] in Heff |- *.
  destruct o as [| | | |mediaType existing reply_to|record|];
    try (destruct Heff as [_ ->]; reflexivity).
  - destruct Heff as (mediaHash & _ & _ & _ & ->). apply trackDuplicate_written.
  - destruct Heff as (mediaHash & mediaType & _ & _ & -> & ->).
    now rewrite updateUserStatistics_written.
  - destruct Heff as [_ ->]. apply updateUserStatistics_written.
Qed.

Lemma run_NoDup_users (events : list Event) (db : Db) :
  NoDup (map UserStats.userId (userStats db)) ->
  NoDup (map UserStats.userId (userStats (fst (run imageHash sha256hex db events)))).
Proof.
  revert db. induction events as [|ev rest IH]; intros db Hnodup; [assumption|].
  cbn [run]. pose proof (onMessage_userStats db ev) as Hw. cbv zeta in Hw.
  destruct (onMessage imageHash sha256hex db ev) as [db1 o]. cbn [fst snd] in Hw.
  assert (NoDup (map UserStats.userId (userStats db1))) as Hstep.
  { destruct o; rewrite Hw; try assumption;
      apply writtenFor_NoDup; try assumption; reflexivity. }
  specialize (IH db1 Hstep). now destruct (run imageHash sha256hex db1 rest).
Qed.

(** X5: handled one after the other from an empty store, the messages never
    leave two documents of one user in [userStats], and a message changes no
    document but its sender's: the documents of all other users are, one by
    one, what they were. After a message that was stored, counted or reported
    as a duplicate, the sender's document carries the message's time as
    [lastActive] and the sender's current name. *)
Theorem one_document_per_user_only_the_senders_changes (events : list Event) (ev : Event) :
  let db := fst (run imageHash sha256hex emptyDb events) in
  let after := userStats (fst (onMessage imageHash sha256hex db ev)) in
  let sender := Msg.from_id (msg ev) in
  NoDup (map UserStats.userId (userStats db))
  /\ filter (fun u => negb (Z.eqb (UserStats.userId u) sender)) after
     = filter (fun u => negb (Z.eqb (UserStats.userId u) sender)) (userStats db)
  /\ (forall uid, uid <> sender -> findOneUser uid after = findOneUser uid (userStats db))
  /\ (isStored None (snd (onMessage imageHash sha256hex db ev))
      || isCountedText (snd (onMessage imageHash sha256hex db ev))
      || isDuplicate (snd (onMessage imageHash sha256hex db ev)) = true ->
      exists u, findOneUser sender after = Some u
                /\ UserStats.lastActive u = now ev
                /\ UserStats.username u = senderName (msg ev)).
Proof.
  cbv zeta. split; [apply run_NoDup_users; constructor|].
  generalize (fst (run imageHash sha256hex emptyDb events)). intros db.
  pose proof (onMessage_userStats db ev) as Hw. cbv zeta in Hw.
  destruct (onMessage imageHash sha256hex db ev) as [db1 o]. cbn [fst snd] in Hw |- *.
  destruct o; rewrite Hw; cbn [isStored isCountedText isDuplicate orb];
    (split; [try reflexivity; apply writtenFor_others; reflexivity|]);
    (split; [intros uid Hne; try reflexivity;
             apply writtenFor_other; try reflexivity; congruence|]);
    try discriminate; intros _;
    rewrite writtenFor_sender by reflexivity;
    eexists; (split; [reflexivity|]);
    destruct (findOneUser (Msg.from_id (msg ev)) (userStats db)); now split.
Qed.

End StoreKeeps.

Lemma withinThreshold_sym (m1 m2 : Media.t) (threshold : nat) :
  withinThreshold (Media.hash m1) threshold m2
  = withinThreshold (Media.hash m2) threshold m1.
Proof.
  unfold withinThreshold, distanceTo. now rewrite calculateHashDistance_sym.
Qed.

Section StoredApart.

Variable imageHash : Buffer -> nat -> bool -> option string.
Variable sha256hex : Buffer -> string.

(** X6: in the store that messages handled one after the other have built, no
    record answers the fingerprint of a record stored after it. Two stored
    image records are therefore more than five positions apart (or cannot be
    compared), whichever was first, and a stored video's digest is the
    fingerprint of no record stored before it. *)
Theorem stored_records_are_apart
    (events : list Event) (earlier : list Media.t) (r : Media.t) (later : list Media.t) :
  media (fst (run imageHash sha256hex emptyDb events)) = earlier ++ r :: later ->
  forall m, In m earlier ->
    matches (Media.hash r) (Media.mediaType r) m = false
    /\ (isPerceptualType (Media.mediaType r) = true ->
        isPerceptualType (Media.mediaType m) = true ->
        withinThreshold (Media.hash r) defaultSimilarityThreshold m = false
        /\ withinThreshold (Media.hash m) defaultSimilarityThreshold r = false)
    /\ (isPerceptualType (Media.mediaType r) = false -> Media.hash m <> Media.hash r).
Proof.
  intros Hsplit m Hin.
  assert (storedWhenNew (media (fst (run imageHash sha256hex emptyDb events)))) as Hnew
      by (apply run_storedWhenNew; constructor).
  pose proof (storedWhenNew_before _ Hnew earlier r later Hsplit) as Hfresh.
  pose proof (lookup_misses_no_match _ _ _ Hfresh m Hin) as Hno.
  split; [assumption|]. unfold matches in Hno. split.
  - intros Hr Hm. rewrite Hr, Hm in Hno. cbn [andb] in Hno.
    split; [assumption|]. now rewrite withinThreshold_sym.
  - intros Hr. rewrite Hr in Hno. now apply String.eqb_neq in Hno.
Qed.

End StoredApart.

Lemma stored_records_are_apart_witness :
  withinThreshold (pad64 "000111") defaultSimilarityThreshold
    (Media.mk (pad64 "111000") 10 1 "user" Photo 1000 (-100)) = false
  /\ withinThreshold (pad64 "111000") defaultSimilarityThreshold
       (Media.mk (pad64 "000111") 11 2 "user" Photo 2000 (-100)) = false.
Proof.
  refine (proj1 (proj2 (stored_records_are_apart sampleImageHash sampleDigest
            [mkEvent (withPhoto "file" (sampleMsg (-100) 1 10)) true
                     [Byte.x11; Byte.x10; Byte.x00] 1000;
             mkEvent (withPhoto "file" (sampleMsg (-100) 2 11)) true
                     [Byte.x00; Byte.x01; Byte.x11] 2000]
            [Media.mk (pad64 "111000") 10 1 "user" Photo 1000 (-100)]
            (Media.mk (pad64 "000111") 11 2 "user" Photo 2000 (-100))
            [] eq_refl
            (Media.mk (pad64 "111000") 10 1 "user" Photo 1000 (-100))
            (or_introl eq_refl))) eq_refl eq_refl).
Defined.

Section CountersAndCollections.

Variable imageHash : Buffer -> nat -> bool -> option string.
Variable sha256hex : Buffer -> string.

(** A record in the trace of a run is the sender's. *)
Lemma run_trace_records (events : list Event) (db : Db) :
  Forall (fun eo => forall record, snd eo = Stored record ->
                      Media.userId record = Msg.from_id (msg (fst eo)))
         (snd (run imageHash sha256hex db events)).
Proof.
  revert db. induction events as [|ev rest IH]; intros db; [constructor|].
  cbn [run]. pose proof (onMessage_effect imageHash sha256hex db ev) as Heff.
  cbv zeta in Heff.
  destruct (onMessage imageHash sha256hex db ev) as [db1 o]. cbn [fst snd] in Heff.
  specialize (IH db1). destruct (run imageHash sha256hex db1 rest) as [db2 trace].
  cbn [snd] in IH |- *. constructor; [|assumption].
  cbn [fst snd]. intros record ->.
  now destruct Heff as (mediaHash & mediaType & _ & _ & -> & _).
Qed.

Lemma countOf_stored (uid : Z) (kind : option MediaType) (trace : list (Event * Outcome)) :
  Forall (fun eo => forall record, snd eo = Stored record ->
                      Media.userId record = Msg.from_id (msg (fst eo))) trace ->
  countOf uid (isStored kind) trace
  = List.length
      (filter (fun m => Z.eqb (Media.userId m) uid
                        && match kind with
                           | Some mt => MediaType_eqb (Media.mediaType m) mt
                           | None => true
                           end) (storedRecords trace)).
Proof.
  induction 1 as [|[ev o] trace Hhead _ IH]; [reflexivity|].
  rewrite countOf_cons, IH. unfold storedRecords. cbn [flat_map fst snd].
  rewrite filter_app, length_app. f_equal.
  destruct o; cbn [isStored]; rewrite ?andb_false_r; try reflexivity.
  cbn [filter]. rewrite (Hhead record eq_refl). unfold sentBy. cbn [fst].
  now destruct (Z.eqb (Msg.from_id (msg ev)) uid && _).
Qed.

Lemma countOf_duplicates (uid : Z) (trace : list (Event * Outcome)) :
  countOf uid isDuplicate trace = List.length (duplicatesOf uid (duplicateEntries trace)).
Proof.
  induction trace as [|[ev o] trace IH]; [reflexivity|].
  rewrite countOf_cons, IH. unfold duplicatesOf, duplicateEntries.
  cbn [flat_map fst snd]. rewrite filter_app, length_app. f_equal.
  destruct o; cbn [isDuplicate]; rewrite ?andb_false_r; try reflexivity.
  cbn [filter DuplicateEntry.userId]. unfold sentBy. rewrite andb_true_r.
  now destruct (Z.eqb (Msg.from_id (msg ev)) uid).
Qed.


End CountersAndCollections.

(** *** The counters as they are stored *)

Lemma updateUserStatistics_stored (db : Db) (uid1 : Z) (username : string)
    (mediaType : MediaType) (now uid : Z) :
  storedCounters (updateUserStatistics db uid1 username mediaType now) uid
  = if Z.eqb uid1 uid then messageCounted (storedCounters db uid) else storedCounters db uid.
Proof.
  unfold storedCounters, updateUserStatistics.
  destruct (findOneUser uid1 (userStats db)) as [u1|] eqn:Hfound; cbn [userStats].
  - rewrite findOneUser_updateOneUser by reflexivity.
    destruct (Z.eqb uid1 uid) eqn:E; [|reflexivity].
    apply Z.eqb_eq in E. subst uid. now rewrite Hfound.
  - rewrite findOneUser_app. cbn [newUserStats UserStats.userId].
    destruct (Z.eqb uid1 uid) eqn:E.
    + apply Z.eqb_eq in E. subst uid. now rewrite Hfound.
    + now destruct (findOneUser uid (userStats db)).
Qed.

Lemma trackDuplicate_stored (db : Db) (uid1 : Z) (username : string) (now uid : Z) :
  storedCounters (trackDuplicate db uid1 username now) uid
  = if Z.eqb uid1 uid then duplicateCounted (storedCounters db uid)
    else storedCounters db uid.
Proof.
  unfold storedCounters, trackDuplicate. cbn [userStats].
  destruct (findOneUser uid1 (userStats db)) as [u1|] eqn:Hfound.
  - rewrite findOneUser_updateOneUser by reflexivity.
    destruct (Z.eqb uid1 uid) eqn:E; [|reflexivity].
    apply Z.eqb_eq in E. subst uid. now rewrite Hfound.
  - rewrite findOneUser_app. cbn [upsertedStats UserStats.userId].
    destruct (Z.eqb uid1 uid) eqn:E.
    + apply Z.eqb_eq in E. subst uid. now rewrite Hfound.
    + now destruct (findOneUser uid (userStats db)).
Qed.

Lemma messageCounted_after (accepted duplicates : nat) :
  messageCounted (countersAfter accepted duplicates) = countersAfter (S accepted) duplicates.
Proof. destruct accepted, duplicates; reflexivity. Qed.

Lemma duplicateCounted_after (accepted duplicates : nat) :
  duplicateCounted (countersAfter accepted duplicates) = countersAfter accepted (S duplicates).
Proof. destruct accepted, duplicates; reflexivity. Qed.

Section StoredCounters.

Variable imageHash : Buffer -> nat -> bool -> option string.
Variable sha256hex : Buffer -> string.

Lemma onMessage_stored (db : Db) (ev : Event) (uid : Z) :
  storedCounters (fst (onMessage imageHash sha256hex db ev)) uid
  = if sentBy uid ev
    then match snd (onMessage imageHash sha256hex db ev) with
         | Stored _ | CountedText => messageCounted (storedCounters db uid)
         | DuplicateNotice _ _ _ => duplicateCounted (storedCounters db uid)
         | _ => storedCounters db uid
         end
    else storedCounters db uid.
Proof.
  pose proof (onMessage_effect imageHash sha256hex db ev) as Heff. cbv zeta in Heff.
  unfold sentBy.
  destruct (onMessage imageHash sha256hex db ev) as [db1 o]. cbn [fst snd] in Heff |- *.
  destruct o as [| | | |mediaType existing reply_to|record|];
    try (destruct Heff as [_ ->]; now destruct (Z.eqb _ uid)).
  - destruct Heff as (mediaHash & _ & _ & _ & ->). apply trackDuplicate_stored.
  - destruct Heff as (mediaHash & mediaType & _ & _ & _ & ->).
    now rewrite updateUserStatistics_stored.
  - destruct Heff as [_ ->]. apply updateUserStatistics_stored.
Qed.

Lemma run_stored (events : list Event) (db : Db) (uid : Z) (accepted duplicates : nat) :
  storedCounters db uid = countersAfter accepted duplicates ->
  let trace := snd (run imageHash sha256hex db events) in
  storedCounters (fst (run imageHash sha256hex db events)) uid
  = countersAfter
      (accepted + (countOf uid (isStored None) trace + countOf uid isCountedText trace))
      (duplicates + countOf uid isDuplicate trace).
Proof.
  cbv zeta. revert db accepted duplicates.
  induction events as [|ev rest IH]; intros db accepted duplicates Hdb.
  - cbn. now rewrite !Nat.add_0_r.
  - cbn [run]. pose proof (onMessage_stored db ev uid) as Hstep.
    destruct (onMessage imageHash sha256hex db ev) as [db1 o]. cbn [fst snd] in Hstep.
    rewrite Hdb in Hstep.
    pose proof (IH db1) as IH1.
    destruct (run imageHash sha256hex db1 rest) as [db2 trace]. cbn [fst snd] in IH1 |- *.
    rewrite !countOf_cons. cbn [fst snd].
    destruct (sentBy uid ev); cbn [andb];
      [|cbn [oneIf]; rewrite (IH1 accepted duplicates Hstep); f_equal; lia].
    destruct o; cbn [isStored isCountedText isDuplicate oneIf];
      rewrite ?messageCounted_after, ?duplicateCounted_after in Hstep;
      rewrite (IH1 _ _ Hstep); f_equal; lia.
Qed.

Lemma text_outcome (db : Db) (ev : Event) :
  isCountedText (snd (onMessage imageHash sha256hex db ev)) = plainTextInGroup ev.
Proof.
  unfold plainTextInGroup, onMessage, answeredCommand, processContent, settleMedia,
    isCommand, isPlainText.
  destruct (chatIsGroup ev), (hasMedia (msg ev)), (Msg.text (msg ev)) as [t|];
    cbn [negb andb orb fst snd isCountedText];
    try reflexivity;
    try (destruct (pickMedia (msg ev)) as [| |mediaFileId mediaType]; try reflexivity;
         destruct (truthy (Some mediaFileId)); try reflexivity;
         now destruct (findSimilarMedia _ _ _ _)).
  all: destruct (truthy (Some t)), (startsWithSlash t);
    cbn [negb andb orb fst snd isCountedText]; try reflexivity.
  all: repeat match goal with
              | |- context [String.eqb ?a ?b] => destruct (String.eqb a b)
              end; cbn [fst snd isCountedText]; try reflexivity.
  all: try (destruct (pickMedia (msg ev)) as [| |mediaFileId mediaType]; try reflexivity;
            destruct (truthy (Some mediaFileId)); try reflexivity;
            now destruct (findSimilarMedia _ _ _ _)).
Qed.

Lemma countOf_texts (events : list Event) (db : Db) (uid : Z) :
  countOf uid isCountedText (snd (run imageHash sha256hex db events))
  = List.length (filter (fun ev => sentBy uid ev && plainTextInGroup ev) events).
Proof.
  revert db. induction events as [|ev rest IH]; intros db; [reflexivity|].
  cbn [run filter]. pose proof (text_outcome db ev) as Htext.
  destruct (onMessage imageHash sha256hex db ev) as [db1 o]. cbn [snd] in Htext.
  specialize (IH db1). destruct (run imageHash sha256hex db1 rest) as [db2 trace].
  cbn [snd] in IH |- *. rewrite countOf_cons, IH. cbn [fst snd]. rewrite Htext.
  destruct (sentBy uid ev && plainTextInGroup ev); cbn [oneIf List.length]; lia.
Qed.

(** C6, on the code: the two fields as [userStats] stores them after any
    sequence of messages handled from the empty store. [duplicatesPosted] is
    the number of the user's duplicates. [totalMessages] is the number of the
    user's accepted media posts plus accepted text messages when that number
    is above 0; a user whose messages were all judged duplicates has a
    document, which [trackDuplicate] has upserted, without the field
    [totalMessages], where the document [updateUserStatistics] inserts sets
    every counter. The accepted media posts are the user's records in
    [media], the duplicates the user's entries in [duplicateTracking], the
    accepted texts the user's texts in a group that are no command and come
    without a file. *)
Theorem userStats_fields_after_run (events : list Event) (uid : Z) :
  let db := fst (run imageHash sha256hex emptyDb events) in
  let N_media := List.length (filter (fun m => Z.eqb (Media.userId m) uid) (media db)) in
  let N_text :=
    List.length (filter (fun ev => sentBy uid ev && plainTextInGroup ev) events) in
  let M := List.length (duplicatesOf uid (duplicateTracking db)) in
  match findOneUser uid (userStats db) with
  | None => N_media + N_text = 0 /\ M = 0
  | Some u =>
      UserStats.duplicatesPosted u = Some M
      /\ UserStats.totalMessages u
         = (if N_media + N_text =? 0 then None else Some (N_media + N_text))
      /\ 0 < N_media + N_text + M
  end.
Proof.
  cbv zeta.
  pose proof (run_stored events emptyDb uid 0 0 eq_refl) as Hstored.
  pose proof (run_writes imageHash sha256hex events emptyDb) as [Hm Hd].
  pose proof (run_trace_records imageHash sha256hex events emptyDb) as Htrace.
  cbv zeta in Hstored, Hm, Hd. cbn [media duplicateTracking emptyDb app] in Hm, Hd.
  rewrite Hm, Hd. cbn [Nat.add] in Hstored.
  rewrite (countOf_stored uid None _ Htrace), countOf_duplicates, countOf_texts in Hstored.
  rewrite (filter_ext (fun m => Z.eqb (Media.userId m) uid && true)
                      (fun m => Z.eqb (Media.userId m) uid)) in Hstored
    by (intros m; apply andb_true_r).
  unfold storedCounters, countersAfter in Hstored.
  set (N := List.length (filter _ (storedRecords _)) + List.length (filter _ events)) in *.
  set (M := List.length (duplicatesOf uid _)) in *.
  destruct (findOneUser uid _) as [u|]; cbn [option_map] in Hstored.
  - destruct (N + M =? 0) eqn:Hzero; [discriminate|].
    apply Nat.eqb_neq in Hzero. injection Hstored as Htotal Hduplicates.
    repeat split; try assumption. lia.
  - destruct (N + M =? 0) eqn:Hzero; [|discriminate].
    apply Nat.eqb_eq in Hzero. lia.
Qed.

End StoredCounters.

(** A photo user 1 posts and user 3 posts again: the document of user 3 has
    no [totalMessages], and the report reads the field as it is. *)
Lemma userStats_fields_after_run_witness :
  let image := [Byte.x12; Byte.x34] in
  let first := mkEvent (withPhoto "a" (sampleMsg (-100) 1 10)) true image 1000 in
  let again := mkEvent (withPhoto "b" (sampleMsg (-100) 3 20)) true image 2000 in
  let db := fst (run sampleImageHash sampleDigest emptyDb [first; again]) in
  match findOneUser 3 (userStats db) with
  | None => False
  | Some u =>
      UserStats.duplicatesPosted u = Some 1
      /\ UserStats.totalMessages u = None
      /\ 0 < 1
  end.
Proof.
  cbv zeta.
  exact (userStats_fields_after_run sampleImageHash sampleDigest
           [mkEvent (withPhoto "a" (sampleMsg (-100) 1 10)) true
                    [Byte.x12; Byte.x34] 1000;
            mkEvent (withPhoto "b" (sampleMsg (-100) 3 20)) true
                    [Byte.x12; Byte.x34] 2000] 3).
Defined.

Lemma countersAtLeast_refl (u : UserStats.t) : countersAtLeast u u.
Proof. unfold countersAtLeast. repeat split; lia. Qed.

Lemma countersAtLeast_trans (u u1 u2 : UserStats.t) :
  countersAtLeast u u1 -> countersAtLeast u1 u2 -> countersAtLeast u u2.
Proof. unfold countersAtLeast. intuition lia. Qed.

Lemma countMessage_atLeast (username : string) (mediaType : MediaType) (now : Z)
    (u : UserStats.t) :
  countersAtLeast u (countMessage username mediaType now u).
Proof. unfold countersAtLeast. destruct mediaType; cbn; repeat split; lia. Qed.

Lemma countDuplicate_atLeast (username : string) (now : Z) (u : UserStats.t) :
  countersAtLeast u (countDuplicate username now u).
Proof. unfold countersAtLeast. cbn. repeat split; lia. Qed.

Lemma writtenFor_keeps (sender : Z) (f : UserStats.t -> UserStats.t) (init : UserStats.t)
    (before : list UserStats.t) (uid : Z) (u : UserStats.t) :
  (forall v, UserStats.userId (f v) = UserStats.userId v) ->
  (forall v, UserStats.firstSeen (f v) = UserStats.firstSeen v) ->
  (forall v, countersAtLeast v (f v)) ->
  UserStats.userId init = sender ->
  findOneUser uid before = Some u ->
  exists u1, findOneUser uid (writtenFor sender f init before) = Some u1
             /\ UserStats.firstSeen u1 = UserStats.firstSeen u
             /\ countersAtLeast u u1.
Proof.
  intros Hid Hseen Hcount Hinit Hfound.
  destruct (Z.eq_dec sender uid) as [->|Hne].
  - rewrite writtenFor_sender, Hfound by assumption. exists (f u). auto.
  - rewrite writtenFor_other by assumption. exists u.
    split; [assumption|]. split; [reflexivity|apply countersAtLeast_refl].
Qed.

Section OnlyGrows.

Variable imageHash : Buffer -> nat -> bool -> option string.
Variable sha256hex : Buffer -> string.

Lemma onMessage_keeps (db : Db) (ev : Event) (uid : Z) (u : UserStats.t) :
  findOneUser uid (userStats db) = Some u ->
  exists u1, findOneUser uid (userStats (fst (onMessage imageHash sha256hex db ev))) = Some u1
             /\ UserStats.firstSeen u1 = UserStats.firstSeen u
             /\ countersAtLeast u u1.
Proof.
  intros Hfound. pose proof (onMessage_userStats imageHash sha256hex db ev) as Hw.
  cbv zeta in Hw.
  destruct (snd (onMessage imageHash sha256hex db ev)); rewrite Hw;
    try (exists u; split; [assumption|]; split;
         [reflexivity|apply countersAtLeast_refl]);
    apply writtenFor_keeps; try assumption; try reflexivity;
    intros v; first [apply countMessage_atLeast | apply countDuplicate_atLeast].
Qed.

(** X8: handling messages only ever adds. Whatever the store held before,
    after any further messages [media] and [duplicateTracking] are the old
    collections with documents appended, every user who had a [userStats]
    document still has one, its [firstSeen] is what it was, and none of its
    six counters is smaller. *)
Theorem handling_messages_only_adds (db : Db) (events : list Event) :
  let after := fst (run imageHash sha256hex db events) in
  (exists more, media after = media db ++ more)
  /\ (exists more, duplicateTracking after = duplicateTracking db ++ more)
  /\ (forall uid u,
        findOneUser uid (userStats db) = Some u ->
        exists u1, findOneUser uid (userStats after) = Some u1
                   /\ UserStats.firstSeen u1 = UserStats.firstSeen u
                   /\ countersAtLeast u u1).
Proof.
  cbv zeta. destruct (run_writes imageHash sha256hex events db) as [Hm Hd].
  split; [eauto|]. split; [eauto|]. clear Hm Hd.
  revert db. induction events as [|ev rest IH]; intros db uid u Hfound.
  - exists u. split; [assumption|]. split; [reflexivity|apply countersAtLeast_refl].
  - cbn [run]. destruct (onMessage_keeps db ev uid u Hfound) as (u1 & H1 & Hseen1 & Hc1).
    destruct (onMessage imageHash sha256hex db ev) as [db1 o]. cbn [fst] in H1.
    destruct (IH db1 uid u1 H1) as (u2 & H2 & Hseen2 & Hc2).
    destruct (run imageHash sha256hex db1 rest) as [db2 trace]. cbn [fst] in H2 |- *.
    exists u2. split; [assumption|]. split; [congruence|].
    now apply (countersAtLeast_trans u u1 u2).
Qed.

End OnlyGrows.

(** ** The totals of the report *)

Lemma sumOf_from (field : UserStats.t -> option nat) (l : list UserStats.t) (acc : nat) :
  fold_left (fun sum user => sum + orZero (field user)) l acc = acc + sumOf field l.
Proof.
  unfold sumOf. revert acc. induction l as [|u l IH]; intros acc; cbn; [lia|].
  rewrite IH, (IH (orZero (field u))). lia.
Qed.

Lemma sumOf_cons (field : UserStats.t -> option nat) (u : UserStats.t) (l : list UserStats.t) :
  sumOf field (u :: l) = orZero (field u) + sumOf field l.
Proof. unfold sumOf at 1. cbn. now rewrite sumOf_from. Qed.

Lemma sumOf_app (field : UserStats.t -> option nat) (l l1 : list UserStats.t) :
  sumOf field (l ++ l1) = sumOf field l + sumOf field l1.
Proof.
  induction l as [|u l IH]; [reflexivity|].
  cbn [app]. rewrite !sumOf_cons, IH. lia.
Qed.

Lemma sumOf_stableSort (field : UserStats.t -> option nat)
    (comesAfter : UserStats.t -> UserStats.t -> bool) (l : list UserStats.t) :
  sumOf field (stableSort comesAfter l) = sumOf field l.
Proof.
  assert (forall x sorted,
             sumOf field (insertSorted comesAfter x sorted)
             = orZero (field x) + sumOf field sorted) as Hinsert.
  { intros x sorted. induction sorted as [|y sorted IH]; cbn [insertSorted];
      [now rewrite sumOf_cons|].
    destruct (comesAfter x y); rewrite !sumOf_cons; [rewrite IH|]; lia. }
  induction l as [|u l IH]; [reflexivity|].
  cbn [stableSort fold_right]. fold (stableSort comesAfter l).
  now rewrite Hinsert, sumOf_cons, IH.
Qed.

Lemma sumOf_writtenFor (field : UserStats.t -> option nat) (sender : Z)
    (f : UserStats.t -> UserStats.t) (init : UserStats.t) (k : nat)
    (before : list UserStats.t) :
  (forall u, orZero (field (f u)) = orZero (field u) + k) ->
  orZero (field init) = k ->
  sumOf field (writtenFor sender f init before) = sumOf field before + k.
Proof.
  intros Hf Hinit. unfold writtenFor.
  destruct (findOneUser sender before) as [found|] eqn:Hfound.
  - revert Hfound. unfold findOneUser.
    induction before as [|u l IH]; cbn [find updateOneUser]; [discriminate|].
    destruct (Z.eqb (UserStats.userId u) sender).
    + intros _. rewrite !sumOf_cons, Hf. lia.
    + intros Hrest. rewrite !sumOf_cons, IH by assumption. lia.
  - rewrite sumOf_app, sumOf_cons, Hinit. unfold sumOf. cbn. lia.
Qed.

Section ReportTotals.

Variable imageHash : Buffer -> nat -> bool -> option string.
Variable sha256hex : Buffer -> string.

Lemma onMessage_sums (db : Db) (ev : Event) :
  let o := snd (onMessage imageHash sha256hex db ev) in
  let after := userStats (fst (onMessage imageHash sha256hex db ev)) in
  sumOf UserStats.photoCount after
  = sumOf UserStats.photoCount (userStats db) + oneIf (isStored (Some Photo) o)
  /\ sumOf UserStats.videoCount after
     = sumOf UserStats.videoCount (userStats db) + oneIf (isStored (Some Video) o)
  /\ sumOf UserStats.documentCount after
     = sumOf UserStats.documentCount (userStats db) + oneIf (isStored (Some Document) o)
  /\ sumOf UserStats.textCount after
     = sumOf UserStats.textCount (userStats db) + oneIf (isCountedText o).
Proof.
  cbv zeta. pose proof (onMessage_userStats imageHash sha256hex db ev) as Hw.
  pose proof (onMessage_effect imageHash sha256hex db ev) as Heff.
  cbv zeta in Hw, Heff.
  destruct (onMessage imageHash sha256hex db ev) as [db1 o]. cbn [fst snd] in Hw, Heff |- *.
  destruct o as [| | | |mediaType existing reply_to|record|];
    rewrite Hw; cbn [isStored isCountedText oneIf];
    try (repeat split; lia).
  - repeat split;
      rewrite (sumOf_writtenFor _ _ _ _ 0); try reflexivity; intros u; cbn; lia.
  - destruct Heff as (mediaHash & mediaType & Hq & _ & -> & _).
    apply mediaQuery_kind in Hq as [Hkind _].
    cbn [recordOf Media.mediaType].
    destruct mediaType; try congruence; cbn [MediaType_eqb oneIf];
      repeat split;
      first [ rewrite (sumOf_writtenFor _ _ _ _ 1); [reflexivity|intros u; cbn; lia|reflexivity]
            | rewrite (sumOf_writtenFor _ _ _ _ 0); [reflexivity|intros u; cbn; lia|reflexivity] ].
  - repeat split;
      first [ rewrite (sumOf_writtenFor _ _ _ _ 1); [reflexivity|intros u; cbn; lia|reflexivity]
            | rewrite (sumOf_writtenFor _ _ _ _ 0); [reflexivity|intros u; cbn; lia|reflexivity] ].
Qed.

Lemma run_sums (events : list Event) (db : Db) :
  let trace := snd (run imageHash sha256hex db events) in
  let after := userStats (fst (run imageHash sha256hex db events)) in
  let stored mt := List.length (recordsOfType mt (storedRecords trace)) in
  sumOf UserStats.photoCount after = sumOf UserStats.photoCount (userStats db) + stored Photo
  /\ sumOf UserStats.videoCount after
     = sumOf UserStats.videoCount (userStats db) + stored Video
  /\ sumOf UserStats.documentCount after
     = sumOf UserStats.documentCount (userStats db) + stored Document
  /\ sumOf UserStats.textCount after
     = sumOf UserStats.textCount (userStats db)
       + List.length (filter (fun eo => isCountedText (snd eo)) trace).
Proof.
  cbv zeta. revert db. induction events as [|ev rest IH]; intros db.
  - cbn. repeat split; lia.
  - cbn [run]. pose proof (onMessage_sums db ev) as Hstep. cbv zeta in Hstep.
    destruct (onMessage imageHash sha256hex db ev) as [db1 o]. cbn [fst snd] in Hstep.
    specialize (IH db1).
    destruct (run imageHash sha256hex db1 rest) as [db2 trace]. cbn [fst snd] in IH |- *.
    destruct Hstep as (S1 & S2 & S3 & S4). destruct IH as (I1 & I2 & I3 & I4).
    rewrite I1, I2, I3, I4, S1, S2, S3, S4.
    unfold storedRecords, recordsOfType. cbn [flat_map filter fst snd].
    rewrite !filter_app, !length_app.
    destruct o as [| | | |kind existing reply_to|record|];
      cbn [isStored isCountedText oneIf filter List.length];
      try (repeat split; lia).
    destruct (Media.mediaType record); cbn; repeat split; lia.
Qed.

(** X9: the four totals of the report of [src/bot.js] are counts of what was
    accepted. After any messages handled one after the other from an empty
    store, the photos, videos and documents totals are the numbers of records
    of each type in [media], and the text total is the number of text
    messages that were counted; duplicates and ignored messages add nothing,
    and the order of the users does not matter. *)
Theorem report_totals_count_the_store (events : list Event) :
  let db := fst (run imageHash sha256hex emptyDb events) in
  let trace := snd (run imageHash sha256hex emptyDb events) in
  let report := generateWeeklyStats db in
  totalPhotos report = List.length (recordsOfType Photo (media db))
  /\ totalVideos report = List.length (recordsOfType Video (media db))
  /\ totalDocs report = List.length (recordsOfType Document (media db))
  /\ totalTexts report = List.length (filter (fun eo => isCountedText (snd eo)) trace).
Proof.
  cbv zeta. unfold generateWeeklyStats, reportOver.
  cbn [totalPhotos totalVideos totalDocs totalTexts].
  rewrite !sumOf_stableSort.
  pose proof (run_sums events emptyDb) as (S1 & S2 & S3 & S4).
  pose proof (run_writes imageHash sha256hex events emptyDb) as [Hm _].
  cbv zeta in Hm. cbn [media emptyDb app] in Hm. rewrite Hm.
  now rewrite S1, S2, S3, S4.
Qed.

End ReportTotals.

(** ** The rankings of the report *)

Section Sorting.

Variable A : Type.
Variable comesAfter : A -> A -> bool.
Variable key : A -> nat.

Lemma insertSorted_perm (x : A) (sorted : list A) :
  Permutation (insertSorted comesAfter x sorted) (x :: sorted).
Proof.
  induction sorted as [|y sorted IH]; cbn; [reflexivity|].
  destruct (comesAfter x y); [|reflexivity].
  rewrite IH. apply perm_swap.
Qed.

Lemma stableSort_perm (l : list A) : Permutation (stableSort comesAfter l) l.
Proof.
  induction l as [|x l IH]; cbn; [reflexivity|].
  fold (stableSort comesAfter l). rewrite insertSorted_perm. now constructor.
Qed.

Lemma insertSorted_nonIncreasing (x : A) (sorted : list A) :
  (forall y, In y sorted -> comesAfter x y = (key x <? key y)) ->
  nonIncreasing (map key sorted) ->
  nonIncreasing (map key (insertSorted comesAfter x sorted)).
Proof.
  induction sorted as [|y sorted IH]; intros Hcmp Hsorted; cbn.
  - split; [intros ? []|exact I].
  - rewrite (Hcmp y) by now left. destruct (key x <? key y) eqn:E.
    + cbn. destruct Hsorted as [Hy Hrest]. split.
      * intros k Hk. apply in_map_iff in Hk as (z & <- & Hz).
        apply (Permutation_in _ (insertSorted_perm x sorted)) in Hz.
        destruct Hz as [<-|Hz]; [apply Nat.ltb_lt in E; lia|].
        apply Hy. now apply in_map.
      * apply IH; [|assumption]. intros z Hz. apply Hcmp. now right.
    + cbn. split; [|exact Hsorted].
      apply Nat.ltb_ge in E. destruct Hsorted as [Hy _].
      intros k [<-|Hk]; [assumption|]. specialize (Hy k Hk). lia.
Qed.

Lemma stableSort_nonIncreasing (l : list A) :
  (forall a b, In a l -> In b l -> comesAfter a b = (key a <? key b)) ->
  nonIncreasing (map key (stableSort comesAfter l)).
Proof.
  induction l as [|x l IH]; intros Hcmp; cbn; [exact I|].
  fold (stableSort comesAfter l). apply insertSorted_nonIncreasing.
  - intros y Hy. apply (Permutation_in _ (stableSort_perm l)) in Hy.
    apply Hcmp; [now left|now right].
  - apply IH. intros a b Ha Hb. apply Hcmp; now right.
Qed.

End Sorting.

Lemma filter_perm {A : Type} (keep : A -> bool) (l l1 : list A) :
  Permutation l l1 -> Permutation (filter keep l) (filter keep l1).
Proof.
  induction 1 as [|x l l1 _ IH|x y l|l l1 l2 _ IH1 _ IH2]; cbn.
  - reflexivity.
  - destruct (keep x); [now constructor|assumption].
  - destruct (keep x), (keep y); try reflexivity. apply perm_swap.
  - now transitivity (filter keep l1).
Qed.

(** X10: the two rankings of the report of [src/bot.js]. The offenders listed
    are the first three of the users with at least one duplicate, arranged so
    that [duplicatesPosted] never goes up; the contributors listed are the
    first five of all users in some arrangement, and that arrangement has
    [totalMessages] never going up whenever every document has the field (the
    document an upsert created for a user known only for duplicates has
    none). *)
Theorem report_ranks_by_count (db : Db) :
  let report := generateWeeklyStats db in
  exists ranked offenders,
    Permutation ranked (userStats db)
    /\ topContributors report
       = map (fun u => (labelOf (UserStats.username u) (UserStats.userId u),
                        UserStats.totalMessages u)) (firstn 5 ranked)
    /\ ((forall u, In u (userStats db) -> UserStats.totalMessages u <> None) ->
        nonIncreasing (map (fun u => orZero (UserStats.totalMessages u)) ranked))
    /\ Permutation offenders
         (filter (fun u => 0 <? orZero (UserStats.duplicatesPosted u)) (userStats db))
    /\ duplicateOffenders report
       = map (fun u => (labelOf (UserStats.username u) (UserStats.userId u),
                        UserStats.duplicatesPosted u)) (firstn 3 offenders)
    /\ nonIncreasing (map (fun u => orZero (UserStats.duplicatesPosted u)) offenders).
Proof.
  cbv zeta. unfold generateWeeklyStats, reportOver. cbn [topContributors duplicateOffenders].
  set (byTotal := fun a b => fewer (UserStats.totalMessages a) (UserStats.totalMessages b)).
  set (byDuplicates :=
         fun a b => fewer (UserStats.duplicatesPosted a) (UserStats.duplicatesPosted b)).
  exists (stableSort byTotal (userStats db)).
  exists (stableSort byDuplicates
            (filter (fun u => 0 <? orZero (UserStats.duplicatesPosted u))
                    (stableSort byTotal (userStats db)))).
  split; [apply stableSort_perm|]. split; [reflexivity|]. split; [|split; [|split]].
  - intros Hall. apply stableSort_nonIncreasing. intros a b Ha Hb. subst byTotal. cbn.
    pose proof (Hall a Ha). pose proof (Hall b Hb).
    destruct (UserStats.totalMessages a), (UserStats.totalMessages b);
      (reflexivity || contradiction).
  - rewrite stableSort_perm. apply filter_perm, stableSort_perm.
  - reflexivity.
  - apply stableSort_nonIncreasing. intros a b Ha Hb.
    apply filter_In in Ha as [_ Ha]. apply filter_In in Hb as [_ Hb].
    subst byDuplicates. cbn.
    destruct (UserStats.duplicatesPosted a), (UserStats.duplicatesPosted b);
      (reflexivity || discriminate).
Qed.

Lemma sumOf_perm (field : UserStats.t -> option nat) (l l1 : list UserStats.t) :
  Permutation l l1 -> sumOf field l = sumOf field l1.
Proof.
  induction 1 as [|x l l1 _ IH|x y l|l l1 l2 _ IH1 _ IH2]; rewrite ?sumOf_cons;
    try reflexivity; lia.
Qed.

(** Whatever order [sort] leaves the documents in, the report has the same
    totals, lists the first five documents of that order, and lists as
    offenders the first three of the documents with a duplicate, in an order
    in which [duplicatesPosted] never goes up. *)
Lemma report_in_any_order (db : Db) (ranked : list UserStats.t) :
  Permutation ranked (userStats db) ->
  let report := reportOver ranked in
  let line (count : UserStats.t -> option nat) (u : UserStats.t) :=
    (labelOf (UserStats.username u) (UserStats.userId u), count u) in
  totalPhotos report = totalPhotos (generateWeeklyStats db)
  /\ totalVideos report = totalVideos (generateWeeklyStats db)
  /\ totalDocs report = totalDocs (generateWeeklyStats db)
  /\ totalTexts report = totalTexts (generateWeeklyStats db)
  /\ topContributors report = map (line UserStats.totalMessages) (firstn 5 ranked)
  /\ exists offenders,
       Permutation offenders
         (filter (fun u => 0 <? orZero (UserStats.duplicatesPosted u)) (userStats db))
       /\ duplicateOffenders report
          = map (line UserStats.duplicatesPosted) (firstn 3 offenders)
       /\ nonIncreasing (map (fun u => orZero (UserStats.duplicatesPosted u)) offenders).
Proof.
  intros Hperm. cbv zeta. unfold generateWeeklyStats, reportOver.
  cbn [totalPhotos totalVideos totalDocs totalTexts topContributors duplicateOffenders].
  rewrite !sumOf_stableSort, !(sumOf_perm _ _ _ Hperm).
  repeat (split; [reflexivity|]).
  set (byDuplicates :=
         fun a b => fewer (UserStats.duplicatesPosted a) (UserStats.duplicatesPosted b)).
  exists (stableSort byDuplicates
            (filter (fun u => 0 <? orZero (UserStats.duplicatesPosted u)) ranked)).
  split; [|split; [reflexivity|]].
  - eapply Permutation_trans; [apply stableSort_perm|]. now apply filter_perm.
  - apply stableSort_nonIncreasing. intros x y Hx Hy.
    apply filter_In in Hx as [_ Hx]. apply filter_In in Hy as [_ Hy].
    subst byDuplicates. cbn.
    destruct (UserStats.duplicatesPosted x), (UserStats.duplicatesPosted y);
      (reflexivity || discriminate).
Qed.

(** ** Escaping *)

Lemma occurs_app (c : ascii) (a b : string) :
  occurs c (a ++ b)%string = occurs c a || occurs c b.
Proof.
  induction a as [|x a IH]; cbn; [reflexivity|]. now rewrite IH, orb_assoc.
Qed.

Lemma replaceAll_absent (c : ascii) (replacement text : string) :
  occurs c text = false -> replaceAll c replacement text = text.
Proof.
  induction text as [|x rest IH]; cbn; [reflexivity|].
  intros H. apply orb_false_iff in H as [-> H]. now rewrite IH.
Qed.

Lemma replaceAll_app (c : ascii) (replacement a b : string) :
  replaceAll c replacement (a ++ b)%string
  = (replaceAll c replacement a ++ replaceAll c replacement b)%string.
Proof.
  induction a as [|x a IH]; cbn; [reflexivity|].
  destruct (Ascii.eqb x c); rewrite IH; [|reflexivity].
  generalize (replaceAll c replacement a), (replaceAll c replacement b).
  clear. intros u v.
  induction replacement as [|y r IHr]; cbn; [reflexivity|]. now rewrite IHr.
Qed.

Lemma find_snoc_rule (rules : list (ascii * string)) (c x : ascii) (replacement : string) :
  find (fun rule => Ascii.eqb (fst rule) x) (rules ++ [(c, replacement)])
  = match find (fun rule => Ascii.eqb (fst rule) x) rules with
    | Some rule => Some rule
    | None => if Ascii.eqb c x then Some (c, replacement) else None
    end.
Proof. rewrite find_app_first. reflexivity. Qed.

(** One more [replace] after a pass is a pass with one more rule, when the new
    pattern is the pattern of no earlier rule and occurs in no earlier
    replacement. *)
Lemma replaceAll_after_pass (rules : list (ascii * string)) (c : ascii)
    (replacement text : string) :
  (forall rule, In rule rules ->
                Ascii.eqb (fst rule) c = false /\ occurs c (snd rule) = false) ->
  replaceAll c replacement (substitute rules text)
  = substitute (rules ++ [(c, replacement)]) text.
Proof.
  intros Hfresh. induction text as [|x rest IH]; cbn [substitute]; [reflexivity|].
  rewrite find_snoc_rule.
  destruct (find (fun rule => Ascii.eqb (fst rule) x) rules) as [rule|] eqn:Hfound.
  - apply find_some in Hfound as [Hin _]. destruct (Hfresh rule Hin) as [_ Hclean].
    rewrite replaceAll_app, IH. now rewrite replaceAll_absent.
  - cbn [replaceAll]. rewrite (Ascii.eqb_sym x c).
    destruct (Ascii.eqb c x); now rewrite IH.
Qed.

Lemma substitute_nil (text : string) : substitute [] text = text.
Proof. induction text as [|x rest IH]; cbn; [reflexivity|]. now rewrite IH. Qed.

Lemma replaceChain_pass (earlier later : list (ascii * string)) (text : string) :
  independentRules earlier later ->
  replaceChain later (substitute earlier text) = substitute (earlier ++ later) text.
Proof.
  revert earlier. induction later as [|[c replacement] rest IH]; intros earlier Hind.
  - now rewrite app_nil_r.
  - destruct Hind as [Hfresh Hrest]. unfold replaceChain. cbn [fold_left fst snd].
    rewrite replaceAll_after_pass by assumption.
    fold (replaceChain rest (substitute (earlier ++ [(c, replacement)]) text)).
    rewrite IH by assumption. now rewrite <- app_assoc.
Qed.

Lemma independent_markdownRules : independentRules [] markdownRules.
Proof.
  cbn. repeat split;
    match goal with
    | H : _ \/ _ |- _ =>
        repeat (destruct H as [<-|H]; [reflexivity|]); contradiction
    | H : False |- _ => contradiction
    | _ => idtac
    end.
Qed.

Lemma independent_htmlRules : independentRules [] htmlRules.
Proof.
  cbn. repeat split;
    match goal with
    | H : _ \/ _ |- _ =>
        repeat (destruct H as [<-|H]; [reflexivity|]); contradiction
    | H : False |- _ => contradiction
    | _ => idtac
    end.
Qed.

Lemma length_append (a b : string) :
  String.length (a ++ b)%string = String.length a + String.length b.
Proof. induction a as [|x a IH]; cbn; [reflexivity|]. now rewrite IH. Qed.

Lemma substitute_length (rules : list (ascii * string)) (k : nat) (text : string) :
  (forall rule, In rule rules -> String.length (snd rule) = S k) ->
  String.length (substitute rules text)
  = String.length text + k * ruledCharacters rules text.
Proof.
  intros Hlen. induction text as [|x rest IH]; cbn; [lia|].
  destruct (find (fun rule => Ascii.eqb (fst rule) x) rules) as [rule|] eqn:Hfound.
  - assert (existsb (fun rule => Ascii.eqb (fst rule) x) rules = true) as ->.
    { apply existsb_exists. exists rule. now apply find_some in Hfound. }
    apply find_some in Hfound as [Hin _].
    rewrite length_append, (Hlen rule Hin), IH. lia.
  - assert (existsb (fun rule => Ascii.eqb (fst rule) x) rules = false) as ->.
    { destruct (existsb _ rules) eqn:E; [|reflexivity].
      apply existsb_exists in E as (rule & Hin & Hx).
      now rewrite (find_none _ _ Hfound rule Hin) in Hx. }
    cbn. rewrite IH. lia.
Qed.

(** X11: the eighteen chained [replace] calls of [escapeMarkdown] amount to
    one pass that puts one backslash before each of the eighteen characters
    and leaves every other character, the backslash included, as it is: no
    call touches what an earlier call wrote. The result is longer than the
    text by the number of such characters, and a text without any of them
    comes back unchanged. *)
Theorem escapeMarkdown_is_one_pass (text : string) :
  escapeMarkdown text = substitute markdownRules text
  /\ String.length (escapeMarkdown text)
     = String.length text + ruledCharacters markdownRules text
  /\ (ruledCharacters markdownRules text = 0 -> escapeMarkdown text = text)
  /\ occurs "\"%char (escapeMarkdown text)
     = occurs "\"%char text || (0 <? ruledCharacters markdownRules text).
Proof.
  assert (escapeMarkdown text = substitute markdownRules text) as Hpass.
  { unfold escapeMarkdown. destruct text as [|x rest]; [reflexivity|].
    cbn [truthy]. rewrite <- (substitute_nil (String x rest)) at 1.
    now rewrite (replaceChain_pass [] markdownRules _ independent_markdownRules). }
  rewrite Hpass. split; [reflexivity|].
  assert (String.length (substitute markdownRules text)
          = String.length text + ruledCharacters markdownRules text) as Hlen.
  { rewrite (substitute_length markdownRules 1); [lia|].
    intros rule Hin. cbn in Hin.
    repeat (destruct Hin as [<-|Hin]; [reflexivity|]). contradiction. }
  split; [exact Hlen|]. split.
  - clear Hpass Hlen. induction text as [|x rest IH]; [reflexivity|].
    cbn [ruledCharacters substitute].
    destruct (existsb (fun rule => Ascii.eqb (fst rule) x) markdownRules) eqn:E;
      [discriminate|].
    intros Hzero. cbn [plus] in Hzero.
    destruct (find (fun rule => Ascii.eqb (fst rule) x) markdownRules) as [rule|] eqn:F.
    + apply find_some in F. assert (existsb (fun rule => Ascii.eqb (fst rule) x)
                                            markdownRules = true)
        by (apply existsb_exists; now exists rule). congruence.
    + now rewrite IH.
  - clear Hpass Hlen. induction text as [|x rest IH]; [reflexivity|].
    cbn [ruledCharacters substitute occurs].
    destruct (find (fun rule => Ascii.eqb (fst rule) x) markdownRules) as [rule|] eqn:F.
    + assert (existsb (fun rule => Ascii.eqb (fst rule) x) markdownRules = true) as ->
          by (apply find_some in F; apply existsb_exists; now exists rule).
      apply find_some in F as [Hin Hx]. rewrite occurs_app.
      assert (occurs "\"%char (snd rule) = true) as ->.
      { cbn in Hin. repeat (destruct Hin as [<-|Hin]; [reflexivity|]). contradiction. }
      cbn. now rewrite orb_true_r.
    + assert (existsb (fun rule => Ascii.eqb (fst rule) x) markdownRules = false) as ->.
      { destruct (existsb _ markdownRules) eqn:E; [|reflexivity].
        apply existsb_exists in E as (rule & Hin & Hx).
        now rewrite (find_none _ _ F rule Hin) in Hx. }
      cbn [occurs plus]. rewrite IH. now rewrite orb_assoc.
Qed.

Lemma escapeMarkdown_is_one_pass_witness :
  escapeMarkdown "john doe" = "john doe"%string.
Proof.
  exact (proj1 (proj2 (proj2 (escapeMarkdown_is_one_pass "john doe"))) eq_refl).
Defined.

Lemma htmlRules_cases (x : ascii) :
  x = "&"%char \/ x = "<"%char \/ x = ">"%char \/ x = doubleQuote \/ x = "'"%char
  \/ find (fun rule => Ascii.eqb (fst rule) x) htmlRules = None.
Proof.
  unfold htmlRules. cbn [find fst].
  destruct (Ascii.eqb_spec "&"%char x); [now left|].
  destruct (Ascii.eqb_spec "<"%char x); [now right; left|].
  destruct (Ascii.eqb_spec ">"%char x); [now right; right; left|].
  destruct (Ascii.eqb_spec doubleQuote x); [now right; right; right; left|].
  destruct (Ascii.eqb_spec "'"%char x); [now right; right; right; right; left|].
  now repeat right.
Qed.

Lemma substitute_html_plain (x : ascii) (rest : string) :
  find (fun rule => Ascii.eqb (fst rule) x) htmlRules = None ->
  substitute htmlRules (String x rest) = String x (substitute htmlRules rest)
  /\ x <> "&"%char /\ x <> "<"%char /\ x <> ">"%char /\ x <> doubleQuote
  /\ x <> "'"%char.
Proof.
  intros Hnone. cbn [substitute]. rewrite Hnone. split; [reflexivity|].
  repeat split; intros ->; discriminate Hnone.
Qed.

Lemma substitute_html_clean (c : ascii) (text : string) :
  In c ["<"%char; ">"%char; doubleQuote; "'"%char] ->
  occurs c (substitute htmlRules text) = false.
Proof.
  intros Hc. induction text as [|x rest IH]; [reflexivity|].
  destruct (htmlRules_cases x) as [->|[->|[->|[->|[->|Hnone]]]]].
  1-5: cbn [substitute htmlRules find fst snd Ascii.eqb Bool.eqb doubleQuote
            ascii_of_nat ascii_of_pos Pos.of_succ_nat Pos.succ andb];
       cbn in Hc |- *; rewrite IH;
       repeat (destruct Hc as [<-|Hc]; [reflexivity|]); contradiction.
  destruct (substitute_html_plain x rest Hnone) as (-> & _ & Hlt & Hgt & Hq & Ha).
  cbn [occurs]. rewrite IH, orb_false_r. apply Ascii.eqb_neq.
  cbn in Hc. repeat (destruct Hc as [<-|Hc]; [assumption|]). contradiction.
Qed.

Lemma substitute_html_injective (a b : string) :
  substitute htmlRules a = substitute htmlRules b -> a = b.
Proof.
  revert b. induction a as [|x a IH]; intros [|y b] Heq.
  - reflexivity.
  - exfalso. destruct (htmlRules_cases y) as [->|[->|[->|[->|[->|Hnone]]]]];
      try discriminate Heq.
    destruct (substitute_html_plain y b Hnone) as (E & _). rewrite E in Heq.
    discriminate Heq.
  - exfalso. destruct (htmlRules_cases x) as [->|[->|[->|[->|[->|Hnone]]]]];
      try discriminate Heq.
    destruct (substitute_html_plain x a Hnone) as (E & _). rewrite E in Heq.
    discriminate Heq.
  - destruct (htmlRules_cases x) as [->|[->|[->|[->|[->|Hx]]]]];
      destruct (htmlRules_cases y) as [->|[->|[->|[->|[->|Hy]]]]];
      try (destruct (substitute_html_plain x a Hx) as (Ex & Hx1 & _);
           rewrite Ex in Heq);
      try (destruct (substitute_html_plain y b Hy) as (Ey & Hy1 & _);
           rewrite Ey in Heq);
      try discriminate Heq;
      try (f_equal; apply IH; cbn in Heq; now inversion Heq);
      try (cbn in Heq; inversion Heq; congruence).
    inversion Heq; subst. f_equal. now apply IH.
Qed.

(** X12: [escapeHtml] is one pass that writes the entity of each of the five
    characters and copies the others: the ampersands written for an earlier
    character are not escaped a second time. Its result holds none of the
    characters less-than, greater-than, double quote and apostrophe, and two
    different texts are never escaped to the same result. *)
Theorem escapeHtml_is_one_pass (text : string) :
  escapeHtml text = substitute htmlRules text
  /\ (forall c, In c ["<"%char; ">"%char; doubleQuote; "'"%char] ->
                occurs c (escapeHtml text) = false)
  /\ (forall other, escapeHtml other = escapeHtml text -> other = text).
Proof.
  assert (forall t, escapeHtml t = substitute htmlRules t) as Hpass.
  { intros t. unfold escapeHtml. destruct t as [|x rest]; [reflexivity|].
    cbn [truthy]. rewrite <- (substitute_nil (String x rest)) at 1.
    now rewrite (replaceChain_pass [] htmlRules _ independent_htmlRules). }
  split; [apply Hpass|]. split.
  - intros c Hc. rewrite Hpass. now apply substitute_html_clean.
  - intros other Heq. rewrite !Hpass in Heq. now apply substitute_html_injective.
Qed.

Lemma escapeHtml_is_one_pass_witness :
  occurs "<"%char (escapeHtml "<b>Tom & Jerry</b>") = false.
Proof.
  refine (proj1 (proj2 (escapeHtml_is_one_pass "<b>Tom & Jerry</b>")) "<"%char _).
  left. reflexivity.
Defined.

(** ** Reactions of the webhook scripts *)

Lemma getMessageReactions_set (st : Webhook.Store) (chatId messageId : Z) (total : nat)
    (chatId1 messageId1 : Z) :
  Webhook.getMessageReactions
    (WebhookBot.withReactions st
       (WebhookBot.setTotalReactions chatId messageId total (Webhook.messageReactions st)))
    chatId1 messageId1
  = if Z.eqb chatId chatId1 && Z.eqb messageId messageId1 then total
    else Webhook.getMessageReactions st chatId1 messageId1.
Proof.
  unfold Webhook.getMessageReactions, WebhookBot.withReactions.
  cbn [Webhook.messageReactions].
  induction (Webhook.messageReactions st) as [|r rest IH];
    cbn [WebhookBot.setTotalReactions find].
  - cbn [Webhook.Reaction.chatId Webhook.Reaction.messageId].
    now destruct (Z.eqb chatId chatId1 && Z.eqb messageId messageId1).
  - destruct (Z.eqb (Webhook.Reaction.chatId r) chatId
              && Z.eqb (Webhook.Reaction.messageId r) messageId) eqn:Hkey.
    + apply andb_prop in Hkey as [Hc Hm].
      apply Z.eqb_eq in Hc, Hm. subst chatId messageId.
      cbn [find Webhook.Reaction.chatId Webhook.Reaction.messageId
           Webhook.Reaction.totalReactions].
      now destruct (Z.eqb (Webhook.Reaction.chatId r) chatId1
                    && Z.eqb (Webhook.Reaction.messageId r) messageId1).
    + cbn [find].
      destruct (Z.eqb (Webhook.Reaction.chatId r) chatId1
                && Z.eqb (Webhook.Reaction.messageId r) messageId1) eqn:Hkey1;
        [|exact IH].
      apply andb_prop in Hkey1 as [Hc Hm].
      apply Z.eqb_eq in Hc, Hm. subst chatId1 messageId1.
      rewrite (Z.eqb_sym chatId), (Z.eqb_sym messageId), Hkey. reflexivity.
Qed.

Lemma addReaction_from (reactions : list (option nat)) (sum : nat) :
  sum + List.length reactions <= fold_left WebhookBot.addReaction reactions sum.
Proof.
  revert sum. induction reactions as [|r rest IH]; intros sum; cbn [fold_left List.length].
  - lia.
  - specialize (IH (WebhookBot.addReaction sum r)).
    assert (sum + 1 <= WebhookBot.addReaction sum r)
      by (destruct r as [[|n]|]; cbn; lia).
    lia.
Qed.

(** X13: the count [getMessageReactions] reads for a message is the total of
    the last update received for that message, whatever was stored before:
    an update replaces the count and adds nothing to it, and it leaves the
    counts of all other messages as they were. For a [message_reaction]
    update the total counts every listed reaction at least once (a
    [total_count] of 0 counts as 1 in [part_000]); for a
    [message_reaction_count] update it is the sum of the [total_count]
    fields. A message without a document has the count 0. *)
Theorem reaction_count_is_last_update (script : WebhookBot.Script) (st : Webhook.Store)
    (chatId messageId : Z) (new_reaction : option (list (option nat)))
    (reactions : option (list nat)) (chatId1 messageId1 : Z) :
  let same := Z.eqb chatId chatId1 && Z.eqb messageId messageId1 in
  Webhook.getMessageReactions
    (WebhookBot.onMessageReaction script st chatId messageId new_reaction) chatId1 messageId1
  = (if same then WebhookBot.totalReactionsOf script (WebhookBot.orEmpty new_reaction)
     else Webhook.getMessageReactions st chatId1 messageId1)
  /\ Webhook.getMessageReactions
       (WebhookBot.onMessageReactionCount st chatId messageId reactions) chatId1 messageId1
     = (if same then list_sum (WebhookBot.orEmpty reactions)
        else Webhook.getMessageReactions st chatId1 messageId1)
  /\ List.length (WebhookBot.orEmpty new_reaction)
     <= WebhookBot.totalReactionsOf script (WebhookBot.orEmpty new_reaction)
  /\ Webhook.getMessageReactions
       (Webhook.mkStore (Webhook.media st) (Webhook.textMessages st)
                        (Webhook.duplicates st) [])
       chatId1 messageId1 = 0.
Proof.
  cbv zeta. split; [|split; [|split]].
  - unfold WebhookBot.onMessageReaction, WebhookBot.updateMessageReactions.
    apply getMessageReactions_set.
  - unfold WebhookBot.onMessageReactionCount.
    rewrite getMessageReactions_set.
    destruct (Z.eqb chatId chatId1 && Z.eqb messageId messageId1); [|reflexivity].
    generalize (WebhookBot.orEmpty reactions). intros l.
    assert (forall sum, fold_left (fun sum total_count => sum + total_count) l sum
                        = sum + list_sum l) as Hsum.
    { induction l as [|x l IH]; intros sum; [cbn; lia|].
      change (list_sum (x :: l)) with (x + list_sum l).
      cbn [fold_left]. rewrite IH. lia. }
    apply Hsum.
  - destruct script; cbn [WebhookBot.totalReactionsOf]; [|lia].
    apply (addReaction_from _ 0).
  - reflexivity.
Qed.

(** ** Tables keyed by user id *)

Lemma touch_keys {E : Type} (k : Z) (init : E) (update : E -> E) (obj : list (Z * E)) :
  map fst (Webhook.touch k init update obj)
  = if existsb (Z.eqb k) (map fst obj) then map fst obj else map fst obj ++ [k].
Proof.
  induction obj as [|[k1 e] rest IH]; cbn [Webhook.touch map fst existsb app];
    [reflexivity|].
  rewrite (Z.eqb_sym k k1). destruct (Z.eqb k1 k); cbn [orb map fst]; [reflexivity|].
  rewrite IH. now destruct (existsb (Z.eqb k) (map fst rest)).
Qed.

Lemma touch_NoDup {E : Type} (k : Z) (init : E) (update : E -> E) (obj : list (Z * E)) :
  NoDup (map fst obj) -> NoDup (map fst (Webhook.touch k init update obj)).
Proof.
  intros Hnodup. rewrite touch_keys.
  destruct (existsb (Z.eqb k) (map fst obj)) eqn:Hk; [assumption|].
  apply NoDup_app; [assumption|repeat constructor; intros []|].
  intros x Hx [->|[]].
  assert (existsb (Z.eqb x) (map fst obj) = true)
    by (apply existsb_exists; exists x; split; [assumption|apply Z.eqb_refl]).
  congruence.
Qed.

(** The entry of a key. *)
Lemma touch_entry {E : Type} (k : Z) (init : E) (update : E -> E) (obj : list (Z * E))
    (k1 : Z) :
  find (fun kv => Z.eqb (fst kv) k1) (Webhook.touch k init update obj)
  = if Z.eqb k k1
    then Some (k, update match find (fun kv => Z.eqb (fst kv) k) obj with
                         | Some kv => snd kv
                         | None => init
                         end)
    else find (fun kv => Z.eqb (fst kv) k1) obj.
Proof.
  induction obj as [|[k2 e] rest IH]; cbn [Webhook.touch find fst snd].
  - now destruct (Z.eqb k k1).
  - destruct (Z.eqb k2 k) eqn:Hk2.
    + apply Z.eqb_eq in Hk2. subst k2. cbn [find fst snd].
      now destruct (Z.eqb k k1).
    + cbn [find fst]. destruct (Z.eqb k2 k1) eqn:Hk21.
      * apply Z.eqb_eq in Hk21. subst k2. rewrite Z.eqb_sym, Hk2. reflexivity.
      * exact IH.
Qed.

Lemma find_key_In {E : Type} (obj : list (Z * E)) (k : Z) (e : E) :
  NoDup (map fst obj) ->
  In (k, e) obj <-> find (fun kv => Z.eqb (fst kv) k) obj = Some (k, e).
Proof.
  induction obj as [|[k1 e1] rest IH]; cbn [map fst find In]; intros Hnodup.
  - split; [intros []|discriminate].
  - inversion Hnodup as [|? ? Hnotin Hrest]; subst.
    destruct (Z.eqb k1 k) eqn:Hk.
    + apply Z.eqb_eq in Hk. subst k1. split.
      * intros [[= <-]|Hin]; [reflexivity|].
        exfalso. apply Hnotin. apply in_map_iff. now exists (k, e).
      * intros [= <-]. now left.
    + rewrite <- (IH Hrest). split; [|now right].
      intros [[= -> _]|Hin]; [|assumption]. rewrite Z.eqb_refl in Hk. discriminate.
Qed.

Lemma objectValues_perm {E : Type} (obj : list (Z * E)) :
  Permutation (Webhook.objectValues obj) (map snd obj).
Proof.
  unfold Webhook.objectValues. apply Permutation_map.
  rewrite stableSort_perm.
  induction obj as [|kv rest IH]; cbn [filter]; [reflexivity|].
  destruct (Webhook.isArrayIndex (fst kv)); cbn [negb app].
  - now constructor.
  - transitivity (kv :: filter (fun kv => Webhook.isArrayIndex (fst kv)) rest
                        ++ filter (fun kv => negb (Webhook.isArrayIndex (fst kv))) rest).
    + symmetry. apply Permutation_middle.
    + now constructor.
Qed.

Lemma find_filter_head {A : Type} (keep : A -> bool) (l : list A) :
  find keep l = match filter keep l with
                | [] => None
                | a :: _ => Some a
                end.
Proof.
  induction l as [|x l IH]; cbn [find filter]; [reflexivity|].
  now destruct (keep x).
Qed.

Lemma find_map {A B : Type} (f : A -> B) (keep : B -> bool) (l : list A) :
  find keep (map f l) = option_map f (find (fun a => keep (f a)) l).
Proof.
  induction l as [|x l IH]; cbn [map find]; [reflexivity|].
  now destruct (keep (f x)).
Qed.

Section Tables.

Variables A E : Type.
Variable key : A -> Z.
Variable init : A -> E.
Variable update : A -> E -> E.

(** The entry of a key after a loop of [if (!table[k]) table[k] = init;
    update(table[k])] over [l]: the entry it had, or the one created for the
    first document of the key, updated for each document of the key. *)
Lemma fold_touch_find (l : list A) (table : list (Z * E)) (k : Z) :
  find (fun kv => Z.eqb (fst kv) k)
       (fold_left (fun t a => Webhook.touch (key a) (init a) (update a) t) l table)
  = match find (fun kv => Z.eqb (fst kv) k) table, filter (fun a => Z.eqb (key a) k) l with
    | Some (k1, e), documents => Some (k1, fold_left (fun e a => update a e) documents e)
    | None, [] => None
    | None, a :: documents =>
        Some (key a, fold_left (fun e a => update a e) documents (update a (init a)))
    end.
Proof.
  revert table. induction l as [|a l IH]; intros table; cbn [fold_left filter].
  - now destruct (find (fun kv => Z.eqb (fst kv) k) table) as [[k1 e]|].
  - rewrite IH, touch_entry. destruct (Z.eqb (key a) k) eqn:Hk.
    + apply Z.eqb_eq in Hk. subst k.
      destruct (find (fun kv => Z.eqb (fst kv) (key a)) table) as [[k1 e]|] eqn:Hfound;
        [|reflexivity].
      apply find_some in Hfound as [_ Hk1]. cbn [fst snd] in Hk1 |- *.
      apply Z.eqb_eq in Hk1. now subst k1.
    + reflexivity.
Qed.

Lemma fold_touch_NoDup (l : list A) (table : list (Z * E)) :
  NoDup (map fst table) ->
  NoDup (map fst (fold_left (fun t a => Webhook.touch (key a) (init a) (update a) t) l table)).
Proof.
  revert table. induction l as [|a l IH]; intros table Hnodup; [assumption|].
  cbn [fold_left]. now apply IH, touch_NoDup.
Qed.

Lemma fold_update_measure (f : E -> nat) (g : A -> nat) (l : list A) (e : E) :
  (forall a e, f (update a e) = f e + g a) ->
  f (fold_left (fun e a => update a e) l e) = f e + list_sum (map g l).
Proof.
  intros Hupdate. revert e. unfold list_sum.
  induction l as [|a l IH]; intros e; cbn [fold_left map fold_right]; [lia|].
  rewrite IH, Hupdate. lia.
Qed.

End Tables.

Lemma fold_update_kept {A E X : Type} (update : A -> E -> E) (field : E -> X)
    (l : list A) (e : E) :
  (forall a e, field (update a e) = field e) ->
  field (fold_left (fun e a => update a e) l e) = field e.
Proof.
  intros Hkept. revert e. induction l as [|a l IH]; intros e; cbn [fold_left];
    [reflexivity|].
  now rewrite IH.
Qed.

(** A field the updates leave alone is, in the entry of a key, what it was
    before the loop or what the first document of the key gave it. *)
Lemma fold_touch_kept {A E X : Type} (key : A -> Z) (init : A -> E) (update : A -> E -> E)
    (field : E -> X) (l : list A) (table : list (Z * E)) (k : Z) :
  (forall a e, field (update a e) = field e) ->
  match find (fun kv => Z.eqb (fst kv) k)
             (fold_left (fun t a => Webhook.touch (key a) (init a) (update a) t) l table) with
  | Some (_, e) =>
      match find (fun kv => Z.eqb (fst kv) k) table with
      | Some (_, e0) => field e = field e0
      | None => exists a, find (fun a => Z.eqb (key a) k) l = Some a
                          /\ field e = field (init a)
      end
  | None => True
  end.
Proof.
  intros Hkept. rewrite fold_touch_find.
  destruct (find (fun kv => Z.eqb (fst kv) k) table) as [[k1 e0]|].
  - now apply fold_update_kept.
  - rewrite find_filter_head.
    destruct (filter (fun a => Z.eqb (key a) k) l) as [|a documents]; [exact I|].
    exists a. split; [reflexivity|].
    now rewrite (fold_update_kept update field), Hkept.
Qed.

Lemma fold_touch_count {A E : Type} (key : A -> Z) (init : A -> E) (update : A -> E -> E)
    (f : E -> nat) (l : list A) (table : list (Z * E)) (k : Z) :
  (forall a e, f (update a e) = f e + 1) -> (forall a, f (init a) = 0) ->
  match find (fun kv => Z.eqb (fst kv) k)
             (fold_left (fun t a => Webhook.touch (key a) (init a) (update a) t) l table) with
  | Some (_, e) =>
      f e = match find (fun kv => Z.eqb (fst kv) k) table with
            | Some (_, e0) => f e0
            | None => 0
            end + List.length (filter (fun a => Z.eqb (key a) k) l)
      /\ (find (fun kv => Z.eqb (fst kv) k) table = None -> 0 < f e)
  | None =>
      find (fun kv => Z.eqb (fst kv) k) table = None
      /\ filter (fun a => Z.eqb (key a) k) l = []
  end.
Proof.
  intros Hupdate Hinit. rewrite fold_touch_find.
  assert (forall documents : list A, list_sum (map (fun _ => 1) documents)
                                     = List.length documents) as Hones
      by (induction documents as [|? ? IH]; cbn; [|rewrite <- IH]; reflexivity).
  destruct (find (fun kv => Z.eqb (fst kv) k) table) as [[k1 e0]|];
    destruct (filter (fun a => Z.eqb (key a) k) l) as [|a documents].
  - cbn [fold_left List.length]. split; [lia|discriminate].
  - rewrite (fold_update_measure _ _ update f (fun _ => 1)) by assumption.
    rewrite Hones. split; [reflexivity|discriminate].
  - now split.
  - rewrite (fold_update_measure _ _ update f (fun _ => 1)) by assumption.
    rewrite Hones, Hupdate, Hinit. cbn [List.length]. split; [lia|intros _; lia].
Qed.

Lemma in_firstn {A : Type} (n : nat) (l : list A) (x : A) : In x (firstn n l) -> In x l.
Proof.
  intros Hin. rewrite <- (firstn_skipn n l). apply in_or_app. now left.
Qed.

Lemma nonIncreasing_firstn (n : nat) (l : list nat) :
  nonIncreasing l -> nonIncreasing (firstn n l).
Proof.
  revert n. induction l as [|x l IH]; intros [|n] Hl; cbn [firstn]; try exact I.
  destruct Hl as [Hhead Hrest]. split; [|now apply IH].
  intros y Hy. apply Hhead. now apply (in_firstn n).
Qed.

Lemma NoDup_firstn {A : Type} (n : nat) (l : list A) : NoDup l -> NoDup (firstn n l).
Proof.
  intros Hnodup. rewrite <- (firstn_skipn n l) in Hnodup.
  now apply NoDup_app_remove_r in Hnodup.
Qed.

Lemma firstn_above_skipn {A : Type} (f : A -> nat) (n : nat) (l : list A) (x y : A) :
  nonIncreasing (map f l) -> In x (firstn n l) -> In y (skipn n l) -> f y <= f x.
Proof.
  revert n. induction l as [|z l IH]; intros [|n] Hsorted Hx Hy;
    cbn [firstn skipn] in Hx, Hy; try contradiction.
  destruct Hsorted as [Hhead Hrest]. destruct Hx as [->|Hx].
  - apply Hhead. apply in_map. rewrite <- (firstn_skipn n l). apply in_or_app. now right.
  - now apply (IH n).
Qed.

Lemma filter_all {A : Type} (keep : A -> bool) (l : list A) :
  (forall x, In x l -> keep x = true) -> filter keep l = l.
Proof.
  induction l as [|x l IH]; intros Hall; [reflexivity|].
  cbn [filter]. rewrite (Hall x) by now left.
  f_equal. apply IH. intros y Hy. apply Hall. now right.
Qed.

(** A table with one entry for each key that counts above 0, ranked, and its
    first [n] lines. *)
Lemma ranked_table {E : Type} (uidOf : E -> Z) (nameOf : E -> Label) (f : E -> nat)
    (name : Z -> Label) (count : Z -> nat) (table : list (Z * E)) (values : list E)
    (n : nat) :
  NoDup (map fst table) ->
  (forall k, match find (fun kv => Z.eqb (fst kv) k) table with
             | Some (k1, e) =>
                 k1 = k /\ uidOf e = k /\ nameOf e = name k /\ f e = count k /\ 0 < f e
             | None => count k = 0
             end) ->
  Permutation values (map snd table) ->
  ranking name count n
          (map (fun e => (nameOf e, f e))
               (firstn n (stableSort (fun a b => f a <? f b) values))).
Proof.
  intros Hnodup Hentries Hvalues.
  set (compare := fun a b : E => f a <? f b).
  pose proof (Permutation_trans (stableSort_perm _ compare values) Hvalues) as Hperm.
  pose proof (stableSort_nonIncreasing _ compare f values (fun a b _ _ => eq_refl))
    as Hsorted.
  set (ranked := stableSort compare values) in *.
  assert (forall k e, In (k, e) table ->
                      uidOf e = k /\ nameOf e = name k /\ f e = count k /\ 0 < f e)
    as Hentry.
  { intros k e Hin. pose proof (proj1 (find_key_In table k e Hnodup) Hin) as Hfound.
    specialize (Hentries k). rewrite Hfound in Hentries. now destruct Hentries. }
  assert (forall e, In e ranked ->
                    nameOf e = name (uidOf e) /\ f e = count (uidOf e) /\ 0 < f e)
    as Hranked.
  { intros e He. apply (Permutation_in _ Hperm) in He.
    apply in_map_iff in He as ([k e1] & Heq & Hin). cbn [snd] in Heq. subst e1.
    destruct (Hentry k e Hin) as (-> & ? & ? & ?). now repeat split. }
  assert (NoDup (map uidOf ranked)) as Hdistinct.
  { apply (Permutation_NoDup (l := map fst table)); [|assumption].
    symmetry. transitivity (map uidOf (map snd table)); [now apply Permutation_map|].
    rewrite map_map, (map_ext_in (fun kv => uidOf (snd kv)) fst table); [reflexivity|].
    intros [k e] Hin. cbn [fst snd]. now destruct (Hentry k e Hin). }
  exists (map uidOf (firstn n ranked)).
  split; [rewrite <- firstn_map; now apply NoDup_firstn|].
  split; [rewrite length_map; apply firstn_le_length|].
  split.
  { rewrite map_map. apply map_ext_in. intros e He.
    destruct (Hranked e (in_firstn n _ _ He)) as (-> & -> & _). reflexivity. }
  split.
  { rewrite map_map.
    rewrite <- (map_ext_in f (fun e => count (uidOf e)) (firstn n ranked)).
    - rewrite <- firstn_map. now apply nonIncreasing_firstn.
    - intros e He. now destruct (Hranked e (in_firstn n _ _ He)) as (_ & -> & _). }
  split.
  { intros uid Huid. apply in_map_iff in Huid as (e & <- & He).
    destruct (Hranked e (in_firstn n _ _ He)) as (_ & <- & Hpositive). exact Hpositive. }
  intros uid Hout Hpositive. specialize (Hentries uid).
  destruct (find (fun kv => Z.eqb (fst kv) uid) table) as [[k1 e]|] eqn:Hfound; [|lia].
  destruct Hentries as (-> & Huid & _ & Hcount & _).
  apply find_some in Hfound as [Hin _].
  assert (In e ranked) as He.
  { apply (Permutation_in _ (Permutation_sym Hperm)). apply in_map_iff. now exists (uid, e). }
  rewrite <- (firstn_skipn n ranked) in He. apply in_app_or in He as [He|He].
  { exfalso. apply Hout. apply in_map_iff. now exists e. }
  split.
  - rewrite length_map, length_firstn. apply Nat.min_l.
    destruct (Nat.le_gt_cases n (List.length ranked)) as [Hle|Hgt]; [assumption|].
    rewrite skipn_all2 in He by lia. destruct He.
  - intros listed Hlisted. apply in_map_iff in Hlisted as (x & <- & Hx).
    destruct (Hranked x (in_firstn n _ _ Hx)) as (_ & <- & _). rewrite <- Hcount.
    now apply (firstn_above_skipn f n ranked).
Qed.

(** ** generatePetushokStats *)

Lemma mediaLoop_petushokLoop (st : Webhook.Store) (l : list Media.t)
    (acc : list (Z * Webhook.WeeklyEntry) * list (Z * Webhook.Tally)) :
  snd (fold_left (Webhook.mediaLoop st) l acc)
  = fold_left (WebhookBot.petushokLoop st) l (snd acc).
Proof.
  revert acc. induction l as [|m l IH]; intros acc; cbn [fold_left]; [reflexivity|].
  rewrite IH. reflexivity.
Qed.

Lemma reactionsFor_app (st : Webhook.Store) (uid : Z) (l l1 : list Media.t) :
  reactionsFor st uid (l ++ l1) = reactionsFor st uid l + reactionsFor st uid l1.
Proof. unfold reactionsFor. now rewrite filter_app, map_app, list_sum_app. Qed.

Lemma reactionsFor_In (st : Webhook.Store) (m : Media.t) (l : list Media.t) :
  In m l -> reactionsOf st m <= reactionsFor st (Media.userId m) l.
Proof.
  induction l as [|x l IH]; intros Hin; [destruct Hin|].
  change (x :: l) with ([x] ++ l). rewrite reactionsFor_app.
  destruct Hin as [->|Hin]; [|specialize (IH Hin); lia].
  unfold reactionsFor at 1. cbn [filter]. rewrite Z.eqb_refl. cbn. lia.
Qed.

Lemma petushokLoop_tallied (st : Webhook.Store) (l : list Media.t)
    (table : list (Z * Webhook.Tally)) (m : Media.t) :
  tallied st l table -> tallied st (l ++ [m]) (WebhookBot.petushokLoop st table m).
Proof.
  intros [Hnodup Hentries]. unfold WebhookBot.petushokLoop.
  fold (reactionsOf st m).
  assert (forall k, reactionsFor st k (l ++ [m])
                    = reactionsFor st k l
                      + if Z.eqb (Media.userId m) k then reactionsOf st m else 0) as Hsum.
  { intros k. rewrite reactionsFor_app. f_equal. unfold reactionsFor. cbn [filter].
    destruct (Z.eqb (Media.userId m) k); cbn; lia. }
  destruct (0 <? reactionsOf st m) eqn:Hpos.
  - apply Nat.ltb_lt in Hpos. split; [now apply touch_NoDup|].
    intros k. rewrite touch_entry, Hsum.
    destruct (Z.eqb (Media.userId m) k) eqn:Hk.
    + apply Z.eqb_eq in Hk. subst k. specialize (Hentries (Media.userId m)).
      split; [reflexivity|].
      destruct (find (fun kv => Z.eqb (fst kv) (Media.userId m)) table) as [[k1 t]|].
      * destruct Hentries as (_ & Htally & _ & m1 & Hin & Hid & Hname).
        cbn [snd Webhook.addTally Webhook.tally Webhook.tallyUsername].
        split; [lia|]. split; [lia|].
        exists m1. split; [apply in_or_app; now left|]. now split.
      * cbn [snd Webhook.addTally Webhook.tally Webhook.tallyUsername].
        split; [lia|]. split; [lia|].
        exists m. split; [apply in_or_app; right; now left|]. now split.
    + specialize (Hentries k).
      destruct (find (fun kv => Z.eqb (fst kv) k) table) as [[k1 t]|]; [|lia].
      destruct Hentries as (Hk1 & Htally & Hp & m1 & Hin & Hid & Hname).
      split; [assumption|]. split; [lia|]. split; [assumption|].
      exists m1. split; [apply in_or_app; now left|]. now split.
  - apply Nat.ltb_ge in Hpos. split; [assumption|].
    intros k. rewrite Hsum. specialize (Hentries k).
    destruct (find (fun kv => Z.eqb (fst kv) k) table) as [[k1 t]|].
    + destruct Hentries as (Hk1 & Htally & Hp & m1 & Hin & Hid & Hname).
      split; [assumption|]. split; [destruct (Z.eqb (Media.userId m) k); lia|].
      split; [assumption|].
      exists m1. split; [apply in_or_app; now left|]. now split.
    + destruct (Z.eqb (Media.userId m) k); lia.
Qed.

Lemma petushokLoop_fold (st : Webhook.Store) (l : list Media.t) :
  tallied st l (fold_left (WebhookBot.petushokLoop st) l []).
Proof.
  induction l as [|m l IH] using rev_ind.
  - split; [constructor|]. intros k. reflexivity.
  - rewrite fold_left_app. cbn [fold_left]. now apply petushokLoop_tallied.
Qed.

(** The head of the ranking of [userReactionStats]. *)
Lemma top_reactor (now : Z) (st : Webhook.Store) :
  match stableSort (fun a b => Webhook.tally a <? Webhook.tally b)
                   (Webhook.objectValues
                      (fold_left (WebhookBot.petushokLoop st) (Webhook.weeklyMedia now st) []))
  with
  | [] => forall m, In m (Webhook.weeklyMedia now st) -> reactionsOf st m = 0
  | top :: _ =>
      0 < Webhook.tally top
      /\ (exists m, In m (Webhook.weeklyMedia now st)
                    /\ Webhook.tallyUsername top = labelOf (Media.username m) (Media.userId m)
                    /\ Webhook.tally top
                       = reactionsFor st (Media.userId m) (Webhook.weeklyMedia now st))
      /\ forall uid, reactionsFor st uid (Webhook.weeklyMedia now st) <= Webhook.tally top
  end.
Proof.
  pose proof (petushokLoop_fold st (Webhook.weeklyMedia now st)) as [Hnodup Hentries].
  set (table := fold_left (WebhookBot.petushokLoop st) (Webhook.weeklyMedia now st) [])
    in *.
  set (compare := fun a b : Webhook.Tally => Webhook.tally a <? Webhook.tally b).
  pose proof (Permutation_trans (stableSort_perm _ compare (Webhook.objectValues table))
                                (objectValues_perm table)) as Hperm.
  pose proof (stableSort_nonIncreasing _ compare Webhook.tally
                (Webhook.objectValues table) (fun a b _ _ => eq_refl)) as Hsorted.
  destruct (stableSort compare (Webhook.objectValues table)) as [|top sorted].
  - apply Permutation_nil in Hperm.
    intros m Hin. pose proof (reactionsFor_In st m _ Hin) as Hle.
    specialize (Hentries (Media.userId m)).
    destruct table; [|discriminate]. cbn in Hentries. lia.
  - assert (forall t, In t (map snd table) -> Webhook.tally t <= Webhook.tally top)
      as Hmax.
    { intros t Ht. apply (Permutation_in _ (Permutation_sym Hperm)) in Ht.
      destruct Ht as [->|Ht]; [lia|].
      destruct Hsorted as [Hhead _]. apply Hhead. now apply in_map. }
    assert (In top (map snd table)) as Htop
        by (apply (Permutation_in _ Hperm); now left).
    apply in_map_iff in Htop as ([k t] & Heq & Hin). cbn [snd] in Heq. subst t.
    pose proof (proj1 (find_key_In table k top Hnodup) Hin) as Hfound.
    pose proof (Hentries k) as Hk. rewrite Hfound in Hk.
    destruct Hk as (_ & Htally & Hpos & m & Hm & Hid & Hname).
    split; [assumption|]. split.
    + exists m. subst k. now repeat split.
    + intros uid. specialize (Hentries uid).
      destruct (find (fun kv => Z.eqb (fst kv) uid) table) as [[k1 t]|] eqn:Huid;
        [|lia].
      destruct Hentries as (_ & <- & _).
      apply Hmax. apply find_some in Huid as [Huid _].
      apply in_map_iff. now exists (k1, t).
Qed.

Lemma nameRaises_labelOf (username : string) (userId : Z) :
  nameRaises (labelOf username userId) = unnamed (userId, username).
Proof.
  unfold nameRaises, labelOf, unnamed. cbn [fst snd].
  destruct (truthy (Some username)); cbn; [reflexivity|].
  now destruct (Z.eqb userId 0).
Qed.

Lemma displayName_shown (name shown : Label) :
  Webhook.Part000.displayName name = Some shown -> shown = name.
Proof.
  destruct name as [s|z]; cbn; [now intros [= <-]|].
  destruct (Z.eqb z 0); [now intros [= <-]|discriminate].
Qed.

(** What [generatePetushokStats] resolves, and when it raises. *)
Lemma petushok_names_largest_sum (now : Z) (st : Webhook.Store) :
  let week := Webhook.weeklyMedia now st in
  match WebhookBot.generatePetushokStats now st with
  | Some None => forall m, In m week -> reactionsOf st m = 0
  | Some (Some (name, total)) =>
      0 < total
      /\ (exists m, In m week /\ name = labelOf (Media.username m) (Media.userId m)
                    /\ total = reactionsFor st (Media.userId m) week)
      /\ forall uid, reactionsFor st uid week <= total
  | None =>
      exists m, In m week /\ unnamed (Media.userId m, Media.username m) = true
                /\ 0 < reactionsFor st (Media.userId m) week
                /\ forall uid, reactionsFor st uid week <= reactionsFor st (Media.userId m) week
  end.
Proof.
  cbv zeta. unfold WebhookBot.generatePetushokStats.
  pose proof (top_reactor now st) as Htop.
  destruct (stableSort _ _) as [|top sorted]; [exact Htop|].
  destruct Htop as (Hpositive & (m & Hm & Hname & Htotal) & Hmax).
  destruct (Webhook.Part000.displayName (Webhook.tallyUsername top)) as [shown|] eqn:Hshown.
  - apply displayName_shown in Hshown. subst shown.
    split; [assumption|]. split; [|assumption]. now exists m.
  - exists m. split; [assumption|]. rewrite <- Htotal.
    split; [|split; assumption].
    rewrite <- nameRaises_labelOf, <- Hname. unfold nameRaises. now rewrite Hshown.
Qed.

(** [/petushok] over a top reactor whose record has no name: user 8 posted
    without a [username] and a first name of white space, and the message
    got three reactions. *)
Lemma petushok_raises_over_nameless_top_reactor :
  let named := samplePhoto "aa" 7 1000 in
  let nameless := Media.mk "bb" 2 8 EmptyString Photo 1000 (-100) in
  let st := Webhook.mkStore [named; nameless] [] [] [Webhook.Reaction.mk (-100) 2 3] in
  WebhookBot.generatePetushokStats 2000 st = None
  /\ Webhook.Part000.generateWeeklyStats 2000 st = None
  /\ Webhook.topReactor (Webhook.generateWeeklyStats 2000 st) = Some (Id 8, 3).
Proof. cbv zeta. repeat split; reflexivity. Qed.

(** ** The report of the webhook scripts *)

Lemma fold_sum {A : Type} (f : A -> nat) (l : list A) (a : nat) :
  fold_left (fun sum e => sum + f e) l a = a + list_sum (map f l).
Proof.
  revert a. induction l as [|x l IH]; intros a; cbn [fold_left map]; [cbn; lia|].
  rewrite IH. change (list_sum (f x :: map f l)) with (f x + list_sum (map f l)). lia.
Qed.

Lemma list_sum_perm {A : Type} (f : A -> nat) (l l1 : list A) :
  Permutation l l1 -> list_sum (map f l) = list_sum (map f l1).
Proof.
  unfold list_sum.
  induction 1 as [|x l l1 _ IH|x y l|l l1 l2 _ IH1 _ IH2]; cbn [map fold_right]; lia.
Qed.

Lemma length_filter_sum {A : Type} (keep : A -> bool) (l : list A) :
  List.length (filter keep l) = list_sum (map (fun x => oneIf (keep x)) l).
Proof.
  induction l as [|x l IH]; [reflexivity|].
  cbn [filter map]. destruct (keep x); cbn [List.length oneIf]; rewrite IH; reflexivity.
Qed.

Lemma touch_sum {E : Type} (f : E -> nat) (k : Z) (init : E) (update : E -> E)
    (delta : nat) (obj : list (Z * E)) :
  f init = 0 -> (forall e, f (update e) = f e + delta) ->
  list_sum (map f (map snd (Webhook.touch k init update obj)))
  = list_sum (map f (map snd obj)) + delta.
Proof.
  intros Hinit Hupdate.
  induction obj as [|[k1 e] rest IH]; cbn [Webhook.touch map snd].
  - cbn. rewrite Hupdate, Hinit. lia.
  - unfold list_sum in IH |- *.
    destruct (Z.eqb k1 k); cbn [map snd fold_right].
    + rewrite Hupdate. lia.
    + rewrite IH. lia.
Qed.

Lemma mediaLoop_sum (f : Webhook.WeeklyEntry -> nat) (g : MediaType -> nat)
    (st : Webhook.Store) (l : list Media.t)
    (acc : list (Z * Webhook.WeeklyEntry) * list (Z * Webhook.Tally)) :
  (forall mediaType e, f (Webhook.countMedia mediaType e) = f e + g mediaType) ->
  (forall uid name, f (Webhook.mkEntry uid name 0 0 0 None 0) = 0) ->
  list_sum (map f (map snd (fst (fold_left (Webhook.mediaLoop st) l acc))))
  = list_sum (map f (map snd (fst acc)))
    + list_sum (map (fun m => g (Media.mediaType m)) l).
Proof.
  intros Hcount Hinit. revert acc.
  induction l as [|m l IH]; intros acc; cbn [fold_left map]; [cbn; lia|].
  rewrite IH. unfold Webhook.mediaLoop. cbn [fst].
  rewrite (touch_sum f _ _ _ (g (Media.mediaType m))) by (intros; auto).
  unfold list_sum. cbn [fold_right]. lia.
Qed.

Lemma textLoop_sum (f : Webhook.WeeklyEntry -> nat) (delta : nat)
    (l : list Webhook.TextMessage.t) (table : list (Z * Webhook.WeeklyEntry)) :
  (forall e, f (Webhook.countText e) = f e + delta) ->
  (forall uid name, f (Webhook.mkEntry uid name 0 0 0 (Some 0) 0) = 0) ->
  list_sum (map f (map snd (fold_left Webhook.textLoop l table)))
  = list_sum (map f (map snd table)) + delta * List.length l.
Proof.
  intros Hcount Hinit. revert table.
  induction l as [|t l IH]; intros table; cbn [fold_left List.length]; [lia|].
  rewrite IH. unfold Webhook.textLoop.
  rewrite (touch_sum f _ _ _ delta) by (intros; auto). lia.
Qed.

Lemma webhook_total (f : Webhook.WeeklyEntry -> nat) (g : MediaType -> nat) (delta : nat)
    (now : Z) (st : Webhook.Store) :
  (forall mediaType e, f (Webhook.countMedia mediaType e) = f e + g mediaType) ->
  (forall e, f (Webhook.countText e) = f e + delta) ->
  (forall uid name, f (Webhook.mkEntry uid name 0 0 0 None 0) = 0) ->
  (forall uid name, f (Webhook.mkEntry uid name 0 0 0 (Some 0) 0) = 0) ->
  let userWeeklyStats :=
    fold_left Webhook.textLoop (Webhook.weeklyTextMessages now st)
              (fst (fold_left (Webhook.mediaLoop st) (Webhook.weeklyMedia now st) ([], []))) in
  fold_left (fun sum e => sum + f e)
            (stableSort (fun a b => Webhook.totalMessages a <? Webhook.totalMessages b)
                        (Webhook.objectValues userWeeklyStats)) 0
  = list_sum (map (fun m => g (Media.mediaType m)) (Webhook.weeklyMedia now st))
    + delta * List.length (Webhook.weeklyTextMessages now st).
Proof.
  intros Hmedia Htext Hinit Hinit1. cbv zeta. rewrite fold_sum.
  rewrite (list_sum_perm f _ _ (stableSort_perm _ _ _)).
  rewrite (list_sum_perm f _ _ (objectValues_perm _)).
  rewrite (textLoop_sum f delta) by auto.
  rewrite (mediaLoop_sum f g) by auto. cbn. lia.
Qed.

(** *** What [part_000] prints of the report *)

Lemma displayLines_raises (lines : list (Label * nat)) :
  Webhook.Part000.displayLines lines
  = if existsb (fun line => nameRaises (fst line)) lines then None else Some lines.
Proof.
  induction lines as [|[name count] lines IH];
    cbn [Webhook.Part000.displayLines existsb fst]; [reflexivity|].
  unfold nameRaises at 1.
  destruct (Webhook.Part000.displayName name) as [shown|] eqn:Hshown; [|reflexivity].
  apply displayName_shown in Hshown. subst shown. rewrite IH. cbn [orb].
  now destruct (existsb _ lines).
Qed.

(** The report of [part_000] is the report of [part_001] without the total of
    the documents, unless one of its names raises. *)
Lemma part_000_report (now : Z) (st : Webhook.Store) :
  Webhook.Part000.generateWeeklyStats now st
  = if reportRaises (Webhook.generateWeeklyStats now st) then None
    else Some (printed000 (Webhook.generateWeeklyStats now st)).
Proof.
  unfold Webhook.Part000.generateWeeklyStats, Webhook.generateWeeklyStats, reportRaises,
    printed000.
  cbn [Webhook.topContributors Webhook.topReactor Webhook.totalPhotos Webhook.totalVideos
       Webhook.totalTexts Webhook.duplicateOffenders].
  rewrite !displayLines_raises.
  destruct (existsb _ (map (fun e => (Webhook.username e, Webhook.totalMessages e)) _));
    cbn [orb]; [reflexivity|].
  destruct (stableSort (fun a b => Webhook.tally a <? Webhook.tally b)
                       (Webhook.objectValues (snd _))) as [|top sorted].
  - cbn [orb]. now destruct (existsb _ _).
  - unfold nameRaises at 2.
    destruct (Webhook.Part000.displayName (Webhook.tallyUsername top)) as [shown|] eqn:Hshown;
      [|reflexivity].
    apply displayName_shown in Hshown. subst shown. cbn [orb].
    now destruct (existsb _ _).
Qed.

(** *** The tables of the report *)

Lemma mediaLoop_table (st : Webhook.Store) (l : list Media.t)
    (acc : list (Z * Webhook.WeeklyEntry) * list (Z * Webhook.Tally)) :
  fst (fold_left (Webhook.mediaLoop st) l acc)
  = fold_left (fun table m =>
                 Webhook.touch (Media.userId m)
                   (Webhook.mkEntry (Media.userId m)
                                    (labelOf (Media.username m) (Media.userId m)) 0 0 0 None 0)
                   (Webhook.countMedia (Media.mediaType m)) table)
              l (fst acc).
Proof.
  revert acc. induction l as [|m l IH]; intros acc; cbn [fold_left]; [reflexivity|].
  now rewrite IH.
Qed.

Lemma find_of_filter {A : Type} (keep : A -> bool) (l : list A) :
  0 < List.length (filter keep l) -> exists a, find keep l = Some a.
Proof.
  rewrite find_filter_head. destruct (filter keep l) as [|a rest]; cbn [List.length];
    [lia|]. intros _. now exists a.
Qed.

(** The table of the contributors holds one entry for each user with a
    record or a text in the lists, with the user's number, the name of the
    first of the user's documents the loops meet, and the number of the
    documents as [totalMessages]. *)
Lemma contributors_table (st : Webhook.Store) (records : list Media.t)
    (texts : list Webhook.TextMessage.t) (k : Z) :
  let table :=
    fold_left Webhook.textLoop texts
              (fst (fold_left (Webhook.mediaLoop st) records ([], []))) in
  let posters :=
    map (fun m => (Media.userId m, Media.username m)) records
    ++ map (fun t => (Webhook.TextMessage.userId t, Webhook.TextMessage.username t)) texts in
  let posts :=
    List.length (filter (fun m => Z.eqb (Media.userId m) k) records)
    + List.length (textsOf k texts) in
  NoDup (map fst table)
  /\ match find (fun kv => Z.eqb (fst kv) k) table with
     | Some (k1, e) =>
         k1 = k /\ Webhook.userId e = k /\ Webhook.username e = firstName k posters
         /\ Webhook.totalMessages e = posts /\ 0 < Webhook.totalMessages e
     | None => posts = 0
     end.
Proof.
  cbv zeta. rewrite mediaLoop_table. cbn [fst].
  set (initM := fun m => Webhook.mkEntry (Media.userId m)
                           (labelOf (Media.username m) (Media.userId m)) 0 0 0 None 0).
  set (initT := fun t => Webhook.mkEntry (Webhook.TextMessage.userId t)
                           (labelOf (Webhook.TextMessage.username t)
                                    (Webhook.TextMessage.userId t)) 0 0 0 (Some 0) 0).
  set (ident := fun e => (Webhook.userId e, Webhook.username e)).
  set (fromRecords := fold_left _ records []).
  pose proof (fold_touch_NoDup _ _ Webhook.TextMessage.userId initT
                (fun _ => Webhook.countText) texts fromRecords) as Hnodup.
  pose proof (fold_touch_count Webhook.TextMessage.userId initT
                (fun _ => Webhook.countText) Webhook.totalMessages
                texts fromRecords k
                ltac:(intros a e0; cbn; lia) ltac:(reflexivity)) as Htexts.
  pose proof (fold_touch_kept Webhook.TextMessage.userId initT
                (fun _ => Webhook.countText) ident texts fromRecords k
                ltac:(reflexivity)) as HnameT.
  pose proof (fold_touch_count Media.userId initM
                (fun m => Webhook.countMedia (Media.mediaType m)) Webhook.totalMessages
                records [] k
                ltac:(intros a e0; cbn; lia) ltac:(reflexivity)) as Hrecords.
  pose proof (fold_touch_kept Media.userId initM
                (fun m => Webhook.countMedia (Media.mediaType m)) ident records [] k
                ltac:(reflexivity)) as HnameM.
  cbn [find] in Hrecords, HnameM.
  change (fold_left _ records []) with fromRecords in Hrecords, HnameM.
  change (fold_left _ texts fromRecords)
    with (fold_left Webhook.textLoop texts fromRecords) in Hnodup, Htexts, HnameT.
  split.
  - apply Hnodup. subst fromRecords. apply fold_touch_NoDup. constructor.
  - unfold textsOf, firstName. rewrite find_app_first, !find_map. cbn [fst].
    destruct (find _ (fold_left Webhook.textLoop texts fromRecords)) as [[k1 e]|] eqn:Hfound.
    + apply find_some in Hfound as [_ Hk1]. cbn [fst] in Hk1. apply Z.eqb_eq in Hk1.
      split; [assumption|]. destruct Htexts as [Hcount Hpositive].
      destruct (find _ fromRecords) as [[k2 e0]|].
      * destruct Hrecords as [Hcount0 Hpositive0]. specialize (Hpositive0 eq_refl).
        destruct HnameM as (m & Hm & HidentM). rewrite Hm. cbn [option_map snd].
        apply find_some in Hm as [_ Hkey]. apply Z.eqb_eq in Hkey.
        rewrite HidentM in HnameT. unfold ident, initM in HnameT.
        cbn [Webhook.userId Webhook.username] in HnameT.
        injection HnameT as Huid Hname. rewrite Huid, Hname, Hkey.
        repeat split; lia.
      * destruct Hrecords as [_ Hnone]. specialize (Hpositive eq_refl).
        rewrite (find_filter_head _ records), Hnone. cbn [option_map].
        destruct HnameT as (t & Ht & HidentT). rewrite Ht. cbn [option_map snd].
        apply find_some in Ht as [_ Hkey]. apply Z.eqb_eq in Hkey.
        unfold ident, initT in HidentT. cbn [Webhook.userId Webhook.username] in HidentT.
        injection HidentT as Huid Hname. rewrite Huid, Hname, Hkey.
        cbn [List.length]. repeat split; lia.
    + destruct Htexts as [Hnone ->]. rewrite Hnone in Hrecords.
      destruct Hrecords as [_ ->]. reflexivity.
Qed.

(** The table of the offenders holds one entry for each user with a duplicate
    entry in the list, with the user's number, the name of the first of the
    user's entries, and the number of the entries as [count]. *)
Lemma offenders_table (entries : list DuplicateEntry.t) (k : Z) :
  let table := fold_left Webhook.duplicateLoop entries [] in
  let offenders :=
    map (fun d => (DuplicateEntry.userId d, DuplicateEntry.username d)) entries in
  NoDup (map fst table)
  /\ match find (fun kv => Z.eqb (fst kv) k) table with
     | Some (k1, t) =>
         k1 = k /\ Webhook.tallyUserId t = k
         /\ Webhook.tallyUsername t = firstName k offenders
         /\ Webhook.tally t = List.length (duplicatesOf k entries)
         /\ 0 < Webhook.tally t
     | None => List.length (duplicatesOf k entries) = 0
     end.
Proof.
  cbv zeta.
  set (init := fun d => Webhook.mkTally (DuplicateEntry.userId d)
                          (labelOf (DuplicateEntry.username d) (DuplicateEntry.userId d)) 0).
  set (ident := fun t => (Webhook.tallyUserId t, Webhook.tallyUsername t)).
  pose proof (fold_touch_NoDup _ _ DuplicateEntry.userId init
                (fun _ => Webhook.addTally 1) entries [] (NoDup_nil _)) as Hnodup.
  pose proof (fold_touch_count DuplicateEntry.userId init
                (fun _ => Webhook.addTally 1) Webhook.tally entries [] k
                ltac:(intros a e0; reflexivity) ltac:(reflexivity)) as Hcount.
  pose proof (fold_touch_kept DuplicateEntry.userId init
                (fun _ => Webhook.addTally 1) ident entries [] k
                ltac:(reflexivity)) as Hname.
  cbn [find] in Hcount, Hname.
  change (fold_left _ entries []) with (fold_left Webhook.duplicateLoop entries [])
    in Hnodup, Hcount, Hname.
  split; [exact Hnodup|]. unfold duplicatesOf, firstName. rewrite find_map. cbn [fst].
  destruct (find _ (fold_left Webhook.duplicateLoop entries [])) as [[k1 t]|] eqn:Hfound.
  - apply find_some in Hfound as [_ Hk1]. cbn [fst] in Hk1. apply Z.eqb_eq in Hk1.
    destruct Hcount as [Hcount Hpositive]. specialize (Hpositive eq_refl).
    destruct Hname as (d & Hd & Hident). rewrite Hd. cbn [option_map snd].
    apply find_some in Hd as [_ Hkey]. apply Z.eqb_eq in Hkey.
    unfold ident, init in Hident. cbn [Webhook.tallyUserId Webhook.tallyUsername] in Hident.
    injection Hident as Huid Htallyname. rewrite Huid, Htallyname, Hkey.
    repeat split; try assumption; lia.
  - now destruct Hcount as [_ ->].
Qed.

(** The two rankings of the report. *)
Lemma report_rankings (now : Z) (st : Webhook.Store) :
  let report := Webhook.generateWeeklyStats now st in
  let posts uid :=
    List.length (filter (fun m => Z.eqb (Media.userId m) uid) (Webhook.weeklyMedia now st))
    + List.length (textsOf uid (Webhook.weeklyTextMessages now st)) in
  let duplicates uid := List.length (duplicatesOf uid (Webhook.weeklyDuplicates now st)) in
  ranking (fun uid => firstName uid (weeklyPosters now st)) posts 5
          (Webhook.topContributors report)
  /\ ranking (fun uid => firstName uid (weeklyOffenders now st)) duplicates 3
             (Webhook.duplicateOffenders report).
Proof.
  cbv zeta. unfold Webhook.generateWeeklyStats.
  cbn [Webhook.topContributors Webhook.duplicateOffenders]. split.
  - set (table := fold_left Webhook.textLoop _ _).
    assert (NoDup (map fst table)) as Hnodup
        by apply (contributors_table st _ _ 0).
    apply (ranked_table Webhook.userId Webhook.username Webhook.totalMessages
             (fun uid => firstName uid (weeklyPosters now st))
             (fun uid =>
                List.length (filter (fun m => Z.eqb (Media.userId m) uid)
                                    (Webhook.weeklyMedia now st))
                + List.length (textsOf uid (Webhook.weeklyTextMessages now st)))
             table (Webhook.objectValues table) 5 Hnodup).
    + intros k. apply (contributors_table st _ _ k).
    + apply objectValues_perm.
  - set (table := fold_left Webhook.duplicateLoop _ _).
    assert (NoDup (map fst table)) as Hnodup by apply (offenders_table _ 0).
    assert (filter (fun t => 0 <? Webhook.tally t) (Webhook.objectValues table)
            = Webhook.objectValues table) as ->.
    { apply filter_all. intros t Ht. apply Nat.ltb_lt.
      apply (Permutation_in _ (objectValues_perm table)) in Ht.
      apply in_map_iff in Ht as ([k t1] & Heq & Hin). cbn [snd] in Heq. subst t1.
      pose proof (proj1 (find_key_In table k t Hnodup) Hin) as Hfound.
      pose proof (proj2 (offenders_table (Webhook.weeklyDuplicates now st) k)) as Hk.
      cbv zeta in Hk. fold table in Hk. rewrite Hfound in Hk. apply Hk. }
    apply (ranked_table Webhook.tallyUserId Webhook.tallyUsername Webhook.tally
             (fun uid => firstName uid (weeklyOffenders now st))
             (fun uid => List.length (duplicatesOf uid (Webhook.weeklyDuplicates now st)))
             table (Webhook.objectValues table) 3 Hnodup).
    + intros k. apply (offenders_table _ k).
    + apply objectValues_perm.
Qed.

(** A line whose name raises in [part_000] is the line of a user whose first
    document has no name. *)
Lemma raising_line (documents : list (Z * string)) (count : Z -> nat) (n : nat)
    (lines : list (Label * nat)) :
  ranking (fun uid => firstName uid documents) count n lines ->
  (forall uid, 0 < count uid ->
               exists d, find (fun d => Z.eqb (fst d) uid) documents = Some d) ->
  existsb (fun line => nameRaises (fst line)) lines = true ->
  exists d, In d documents /\ unnamed d = true.
Proof.
  intros (users & _ & _ & -> & _ & Hpositive & _) Hfound Hraises.
  apply existsb_exists in Hraises as (line & Hline & Hraises).
  apply in_map_iff in Hline as (uid & <- & Huid). cbn [fst] in Hraises.
  destruct (Hfound uid (Hpositive uid Huid)) as (d & Hd).
  unfold firstName in Hraises. rewrite Hd in Hraises.
  rewrite nameRaises_labelOf in Hraises.
  apply find_some in Hd as [Hin Hkey]. apply Z.eqb_eq in Hkey.
  exists d. split; [assumption|]. destruct d as [uid1 username].
  cbn [fst snd] in Hkey, Hraises. now subst uid1.
Qed.

(** When [part_000] raises over the report, a document of the last seven days
    has no name. *)
Lemma part_000_raises (now : Z) (st : Webhook.Store) :
  reportRaises (Webhook.generateWeeklyStats now st) = true ->
  exists d, In d (weeklyPosters now st ++ weeklyOffenders now st) /\ unnamed d = true.
Proof.
  intros Hraises. destruct (report_rankings now st) as [Hcontributors Hoffenders].
  cbv zeta in Hcontributors, Hoffenders.
  unfold reportRaises in Hraises.
  apply orb_true_iff in Hraises as [Hraises|Hraises];
    [apply orb_true_iff in Hraises as [Hraises|Hraises]|].
  - destruct (raising_line _ _ _ _ Hcontributors) as (d & Hd & Hunnamed);
      [|assumption|exists d; split; [apply in_or_app; now left|assumption]].
    intros uid Hposts. unfold weeklyPosters. rewrite find_app_first, !find_map. cbn [fst].
    destruct (find (fun m => Z.eqb (Media.userId m) uid) (Webhook.weeklyMedia now st))
      as [m|] eqn:Hm; [now eexists|].
    rewrite find_filter_head in Hm.
    destruct (filter _ (Webhook.weeklyMedia now st)); [|discriminate].
    cbn [List.length Nat.add] in Hposts. unfold textsOf in Hposts.
    apply find_of_filter in Hposts as (t & ->). now eexists.
  - pose proof (top_reactor now st) as Htop.
    unfold Webhook.generateWeeklyStats in Hraises. cbn [Webhook.topReactor] in Hraises.
    rewrite mediaLoop_petushokLoop in Hraises. cbn [snd] in Hraises.
    destruct (stableSort _ _) as [|top sorted]; [discriminate|].
    destruct Htop as (_ & (m & Hm & Hname & _) & _).
    rewrite Hname, nameRaises_labelOf in Hraises.
    exists (Media.userId m, Media.username m). split; [|assumption].
    apply in_or_app. left. unfold weeklyPosters. apply in_or_app. left.
    apply in_map_iff. now exists m.
  - destruct (raising_line _ _ _ _ Hoffenders) as (d & Hd & Hunnamed);
      [|assumption|exists d; split; [apply in_or_app; now right|assumption]].
    intros uid Hduplicates. unfold weeklyOffenders. rewrite find_map. cbn [fst].
    unfold duplicatesOf in Hduplicates.
    apply find_of_filter in Hduplicates as (d & ->). now eexists.
Qed.

Lemma reactionsFor_none (st : Webhook.Store) (uid : Z) (l : list Media.t) :
  (forall m, In m l -> reactionsOf st m = 0) -> reactionsFor st uid l = 0.
Proof.
  intros Hzero. unfold reactionsFor.
  induction l as [|m l IH]; [reflexivity|]. cbn [filter].
  assert (list_sum (map (reactionsOf st) (filter (fun m => Z.eqb (Media.userId m) uid) l))
          = 0) as Hrest by (apply IH; intros x Hx; apply Hzero; now right).
  destruct (Z.eqb (Media.userId m) uid); [|exact Hrest].
  cbn [map]. change (list_sum (?x :: ?r)) with (x + list_sum r).
  rewrite Hrest, (Hzero m) by now left. reflexivity.
Qed.

(** X14: the user [/petushok] names. [generatePetushokStats] answers that
    nobody has got reactions exactly when no record of the last seven days
    has a stored reaction count above 0. Otherwise its top reactor is a user
    with the largest sum of the counts stored for that user's records of the
    last seven days, under the name on one of these records: it names that
    user with that sum, unless the name is empty and the user's number is
    not 0, in which case it raises. The report of [part_001] prints the same
    top reactor (without raising), and [part_000], when its report does not
    raise, the same answer. *)
Theorem petushok_is_top_of_weekly_sums (now : Z) (st : Webhook.Store) :
  let week := Webhook.weeklyMedia now st in
  match WebhookBot.generatePetushokStats now st with
  | Some None =>
      (forall m, In m week -> reactionsOf st m = 0)
      /\ Webhook.topReactor (Webhook.generateWeeklyStats now st) = None
  | Some (Some (name, total)) =>
      0 < total
      /\ (exists m, In m week /\ name = labelOf (Media.username m) (Media.userId m)
                    /\ unnamed (Media.userId m, Media.username m) = false
                    /\ total = reactionsFor st (Media.userId m) week)
      /\ (forall uid, reactionsFor st uid week <= total)
      /\ Webhook.topReactor (Webhook.generateWeeklyStats now st) = Some (name, total)
  | None =>
      exists m, In m week /\ unnamed (Media.userId m, Media.username m) = true
                /\ 0 < reactionsFor st (Media.userId m) week
                /\ (forall uid, reactionsFor st uid week
                                <= reactionsFor st (Media.userId m) week)
                /\ Webhook.topReactor (Webhook.generateWeeklyStats now st)
                   = Some (Id (Media.userId m), reactionsFor st (Media.userId m) week)
  end
  /\ ((forall m, In m (Webhook.weeklyMedia now st) -> reactionsOf st m = 0) ->
      WebhookBot.generatePetushokStats now st = Some None)
  /\ forall report, Webhook.Part000.generateWeeklyStats now st = Some report ->
                    WebhookBot.generatePetushokStats now st
                    = Some (Webhook.Part000.topReactor report).
Proof.
  cbv zeta. split; [|split].
  2: { intros Hzero. pose proof (petushok_names_largest_sum now st) as Hspec.
       cbv zeta in Hspec.
       destruct (WebhookBot.generatePetushokStats now st) as [[[name total]|]|];
         [|reflexivity|].
       - destruct Hspec as (Hpositive & (m & _ & _ & Htotal) & _).
         rewrite (reactionsFor_none st _ _ Hzero) in Htotal. lia.
       - destruct Hspec as (m & _ & _ & Hpositive & _).
         rewrite (reactionsFor_none st _ _ Hzero) in Hpositive. lia. }
  - unfold WebhookBot.generatePetushokStats, Webhook.generateWeeklyStats.
    cbn [Webhook.topReactor]. rewrite mediaLoop_petushokLoop. cbn [snd].
    pose proof (top_reactor now st) as Htop.
    destruct (stableSort _ _) as [|top sorted]; [now split|].
    destruct Htop as (Hpositive & (m & Hm & Hname & Htotal) & Hmax).
    destruct (Webhook.Part000.displayName (Webhook.tallyUsername top)) as [shown|] eqn:Hshown.
    + pose proof (displayName_shown _ _ Hshown). subst shown.
      split; [assumption|]. split; [|now split].
      exists m. split; [assumption|]. split; [assumption|]. split; [|assumption].
      rewrite <- nameRaises_labelOf, <- Hname. unfold nameRaises. now rewrite Hshown.
    + assert (unnamed (Media.userId m, Media.username m) = true) as Hunnamed.
      { rewrite <- nameRaises_labelOf, <- Hname. unfold nameRaises. now rewrite Hshown. }
      exists m. split; [assumption|]. split; [assumption|]. rewrite <- Htotal.
      split; [assumption|]. split; [assumption|].
      rewrite Hname. unfold unnamed in Hunnamed. cbn [fst snd] in Hunnamed.
      unfold labelOf. apply andb_prop in Hunnamed as [Hempty _].
      apply negb_true_iff in Hempty. now rewrite Hempty.
  - intros report. rewrite part_000_report.
    destruct (reportRaises (Webhook.generateWeeklyStats now st)) eqn:Hraises;
      [discriminate|].
    intros [= <-]. unfold printed000. cbn [Webhook.Part000.topReactor].
    unfold reportRaises in Hraises.
    apply orb_false_iff in Hraises as [Hraises _].
    apply orb_false_iff in Hraises as [_ Hraises].
    unfold WebhookBot.generatePetushokStats.
    unfold Webhook.generateWeeklyStats in Hraises |- *.
    cbn [Webhook.topReactor] in Hraises |- *.
    rewrite mediaLoop_petushokLoop in Hraises |- *. cbn [snd] in Hraises |- *.
    destruct (stableSort _ _) as [|top sorted]; [reflexivity|].
    unfold nameRaises in Hraises.
    destruct (Webhook.Part000.displayName (Webhook.tallyUsername top)) as [shown|] eqn:Hshown;
      [|discriminate].
    apply displayName_shown in Hshown. now subst shown.
Qed.

Lemma fold_add (l : list nat) (sum : nat) :
  fold_left (fun sum total_count => sum + total_count) l sum = sum + list_sum l.
Proof.
  revert sum. induction l as [|x l IH]; intros sum; [cbn; lia|].
  change (list_sum (x :: l)) with (x + list_sum l).
  cbn [fold_left]. rewrite IH. lia.
Qed.

(** X24: a reaction count received for the message of a record of the last
    seven days shows in [/petushok]. After a [message_reaction_count] update
    with a total above 0 for such a message, the poster of the record is
    credited with the total in place of what the message counted before, and
    [generatePetushokStats] no longer answers that nobody has got reactions:
    it names a user with a sum that is at least that total, or it raises,
    which it does only over a top reactor, with a sum at least that total,
    whose record carries no name; when every record of the last seven days
    carries a name it names a user. *)
Theorem reaction_update_reaches_petushok (now : Z) (st : Webhook.Store) (m : Media.t)
    (reactions : option (list nat)) :
  In m (Webhook.weeklyMedia now st) ->
  0 < list_sum (WebhookBot.orEmpty reactions) ->
  let received := list_sum (WebhookBot.orEmpty reactions) in
  let updated :=
    WebhookBot.onMessageReactionCount st (Media.chatId m) (Media.originalMessageId m)
                                      reactions in
  reactionsOf updated m = received
  /\ match WebhookBot.generatePetushokStats now updated with
     | Some None => False
     | Some (Some (name, total)) => received <= total
     | None =>
         exists top, In top (Webhook.weeklyMedia now st)
                     /\ unnamed (Media.userId top, Media.username top) = true
                     /\ received
                        <= reactionsFor updated (Media.userId top) (Webhook.weeklyMedia now st)
     end
  /\ ((forall record, In record (Webhook.weeklyMedia now st) ->
                      unnamed (Media.userId record, Media.username record) = false) ->
      exists name total,
        WebhookBot.generatePetushokStats now updated = Some (Some (name, total))
        /\ received <= total).
Proof.
  intros Hin Hpositive. cbv zeta.
  set (updated := WebhookBot.onMessageReactionCount st _ _ reactions).
  assert (reactionsOf updated m = list_sum (WebhookBot.orEmpty reactions)) as Hcount.
  { unfold reactionsOf, updated, WebhookBot.onMessageReactionCount.
    rewrite getMessageReactions_set, !Z.eqb_refl. cbn [andb]. apply fold_add. }
  split; [exact Hcount|].
  assert (Webhook.weeklyMedia now updated = Webhook.weeklyMedia now st) as Hweek
      by reflexivity.
  pose proof (petushok_names_largest_sum now updated) as Hspec.
  cbv zeta in Hspec. rewrite Hweek in Hspec.
  pose proof (reactionsFor_In updated m _ Hin) as Hcredited.
  split.
  - destruct (WebhookBot.generatePetushokStats now updated) as [[[name total]|]|].
    + destruct Hspec as (_ & _ & Hmax). specialize (Hmax (Media.userId m)). lia.
    + specialize (Hspec m Hin). lia.
    + destruct Hspec as (top & Htop & Hunnamed & _ & Hmax).
      exists top. split; [assumption|]. split; [assumption|].
      specialize (Hmax (Media.userId m)). lia.
  - intros Hnamed.
    destruct (WebhookBot.generatePetushokStats now updated) as [[[name total]|]|].
    + exists name, total. split; [reflexivity|].
      destruct Hspec as (_ & _ & Hmax). specialize (Hmax (Media.userId m)). lia.
    + specialize (Hspec m Hin). lia.
    + destruct Hspec as (top & Htop & Hunnamed & _).
      rewrite (Hnamed top Htop) in Hunnamed. discriminate.
Qed.

Lemma reaction_update_reaches_petushok_witness :
  let named := samplePhoto "aa" 7 1000 in
  exists name total,
    WebhookBot.generatePetushokStats
      2000 (WebhookBot.onMessageReactionCount
              (Webhook.mkStore [named] [] [] []) (-100) 1 (Some [2; 1]))
    = Some (Some (name, total))
    /\ 3 <= total.
Proof.
  cbv zeta.
  refine (proj2 (proj2 (reaction_update_reaches_petushok 2000
                   (Webhook.mkStore [samplePhoto "aa" 7 1000] [] [] [])
                   (samplePhoto "aa" 7 1000) (Some [2; 1]) _ _)) _).
  - left. reflexivity.
  - cbn. lia.
  - intros record [<-|[]]. reflexivity.
Defined.

(** X15: the totals of the weekly report of the webhook scripts are the
    numbers of documents of the last seven days: of the records of each
    media type in [media], and of the documents in [textMessages].
    [part_001] prints the four totals. [part_000] prints those of the
    photos, the videos and the text messages, and none of the documents; it
    prints no report at all when it raises, which it does only when a
    document of the last seven days, in [media], [textMessages] or
    [duplicates], has an empty [username] and a [userId] other than 0. *)
Theorem webhook_report_totals_count_the_week (now : Z) (st : Webhook.Store) :
  let report := Webhook.generateWeeklyStats now st in
  (Webhook.totalPhotos report
   = List.length (recordsOfType Photo (Webhook.weeklyMedia now st))
   /\ Webhook.totalVideos report
      = List.length (recordsOfType Video (Webhook.weeklyMedia now st))
   /\ Webhook.totalDocs report
      = List.length (recordsOfType Document (Webhook.weeklyMedia now st))
   /\ Webhook.totalTexts report = List.length (Webhook.weeklyTextMessages now st))
  /\ match Webhook.Part000.generateWeeklyStats now st with
     | Some printed =>
         Webhook.Part000.totalPhotos printed
         = List.length (recordsOfType Photo (Webhook.weeklyMedia now st))
         /\ Webhook.Part000.totalVideos printed
            = List.length (recordsOfType Video (Webhook.weeklyMedia now st))
         /\ Webhook.Part000.totalTexts printed
            = List.length (Webhook.weeklyTextMessages now st)
     | None =>
         exists d, In d (weeklyPosters now st ++ weeklyOffenders now st)
                   /\ unnamed d = true
     end.
Proof.
  cbv zeta.
  assert (Webhook.totalPhotos (Webhook.generateWeeklyStats now st)
          = List.length (recordsOfType Photo (Webhook.weeklyMedia now st))
          /\ Webhook.totalVideos (Webhook.generateWeeklyStats now st)
             = List.length (recordsOfType Video (Webhook.weeklyMedia now st))
          /\ Webhook.totalDocs (Webhook.generateWeeklyStats now st)
             = List.length (recordsOfType Document (Webhook.weeklyMedia now st))
          /\ Webhook.totalTexts (Webhook.generateWeeklyStats now st)
             = List.length (Webhook.weeklyTextMessages now st)) as Htotals.
  { unfold Webhook.generateWeeklyStats.
    cbn [Webhook.totalPhotos Webhook.totalVideos Webhook.totalDocs Webhook.totalTexts].
    unfold recordsOfType. rewrite !length_filter_sum.
    repeat split.
    - rewrite (webhook_total Webhook.photoCount
                 (fun mediaType => oneIf (MediaType_eqb mediaType Photo)) 0);
        [lia|intros mediaType e; destruct mediaType; cbn; lia|intros e; cbn; lia
        |reflexivity|reflexivity].
    - rewrite (webhook_total Webhook.videoCount
                 (fun mediaType => oneIf (MediaType_eqb mediaType Video)) 0);
        [lia|intros mediaType e; destruct mediaType; cbn; lia|intros e; cbn; lia
        |reflexivity|reflexivity].
    - rewrite (webhook_total Webhook.documentCount
                 (fun mediaType => oneIf (MediaType_eqb mediaType Document)) 0);
        [lia|intros mediaType e; destruct mediaType; cbn; lia|intros e; cbn; lia
        |reflexivity|reflexivity].
    - rewrite (webhook_total (fun e => orZero (Webhook.textCount e)) (fun _ => 0) 1);
        [|intros mediaType e; cbn; lia|intros e; cbn; lia|reflexivity|reflexivity].
      assert (forall l : list Media.t, list_sum (map (fun _ => 0) l) = 0) as ->
          by (induction l; cbn; auto).
      lia. }
  split; [exact Htotals|]. rewrite part_000_report.
  destruct (reportRaises (Webhook.generateWeeklyStats now st)) eqn:Hraises.
  - now apply part_000_raises.
  - unfold printed000.
    cbn [Webhook.Part000.totalPhotos Webhook.Part000.totalVideos Webhook.Part000.totalTexts].
    now destruct Htotals as (? & ? & _ & ?).
Qed.

(** X19: the two rankings of the weekly report of the webhook scripts. The
    contributors listed are at most five distinct users, each under the name
    of the first of that user's documents of the last seven days (its
    [username], or the user's number when that is empty) and with the number
    of that user's records and text messages of the last seven days, in an
    order in which the numbers never go up; a user with such a document is
    left out only when five users with at least as many are listed. The
    offenders listed are at most three distinct users, each with the number
    of that user's duplicate entries of the last seven days, named, ordered
    and chosen in the same way. These are the lists of [part_001], and those
    of [part_000] whenever its report does not raise. *)
Theorem webhook_report_ranks_the_week (now : Z) (st : Webhook.Store) :
  let report := Webhook.generateWeeklyStats now st in
  let posts uid :=
    List.length (filter (fun m => Z.eqb (Media.userId m) uid) (Webhook.weeklyMedia now st))
    + List.length (textsOf uid (Webhook.weeklyTextMessages now st)) in
  let duplicates uid := List.length (duplicatesOf uid (Webhook.weeklyDuplicates now st)) in
  (ranking (fun uid => firstName uid (weeklyPosters now st)) posts 5
           (Webhook.topContributors report)
   /\ ranking (fun uid => firstName uid (weeklyOffenders now st)) duplicates 3
              (Webhook.duplicateOffenders report))
  /\ forall printed,
       Webhook.Part000.generateWeeklyStats now st = Some printed ->
       ranking (fun uid => firstName uid (weeklyPosters now st)) posts 5
               (Webhook.Part000.topContributors printed)
       /\ ranking (fun uid => firstName uid (weeklyOffenders now st)) duplicates 3
                  (Webhook.Part000.duplicateOffenders printed).
Proof.
  cbv zeta. split; [apply report_rankings|].
  intros printed. rewrite part_000_report.
  destruct (reportRaises (Webhook.generateWeeklyStats now st)); [discriminate|].
  intros [= <-]. apply report_rankings.
Qed.

(** ** The message handler of the webhook scripts *)

Section WebhookHandler.

Variable imageHash : Buffer -> nat -> bool -> option string.
Variable sha256hex : Buffer -> string.

Lemma dbOf_withDb (st : WebhookBot.State) (db : Db) :
  WebhookBot.dbOf (WebhookBot.withDb st db) = db.
Proof. now destruct db. Qed.

Lemma processContent_command (db : Db) (ev : Event) :
  isCommand (msg ev) = true -> hasMedia (msg ev) = false ->
  processContent imageHash sha256hex db ev = (db, Ignored).
Proof.
  unfold processContent, isCommand, isPlainText. intros Hcommand ->.
  destruct (Msg.text (msg ev)) as [t|]; [|discriminate].
  apply andb_prop in Hcommand as [-> ->]. reflexivity.
Qed.

(** The two handlers on the body they share. *)
Lemma webhook_processContent (script : WebhookBot.Script) (st : WebhookBot.State)
    (ev : Event) :
  let st1 := fst (WebhookBot.processContent imageHash sha256hex script st ev) in
  let o := snd (WebhookBot.processContent imageHash sha256hex script st ev) in
  processContent imageHash sha256hex (WebhookBot.dbOf st) ev = (WebhookBot.dbOf st1, asBotJs o)
  /\ Webhook.messageReactions (WebhookBot.store st1)
     = Webhook.messageReactions (WebhookBot.store st)
  /\ Webhook.textMessages (WebhookBot.store st1)
     = Webhook.textMessages (WebhookBot.store st) ++ loggedTexts [(ev, o)]
  /\ match o with
     | WebhookBot.LoggedText entry => script = WebhookBot.Part000 /\ entry = textEntry ev
     | WebhookBot.CountedTextThenThrew => script = WebhookBot.Part001
     | _ => True
     end.
Proof.
  cbv zeta. unfold WebhookBot.processContent, processContent.
  destruct (hasMedia (msg ev)).
  - destruct (pickMedia (msg ev)) as [| |mediaFileId mediaType];
      try (cbn; rewrite app_nil_r; now repeat split).
    destruct (truthy (Some mediaFileId));
      [|cbn; rewrite app_nil_r; now repeat split].
    unfold WebhookBot.settleMedia, settleMedia, recordOf.
    destruct (findSimilarMedia _ _ _ _) as [existing|];
      cbn [fst snd asBotJs]; rewrite dbOf_withDb; cbn; rewrite app_nil_r;
      now repeat split.
  - destruct (isPlainText (msg ev)); [|cbn; rewrite app_nil_r; now repeat split].
    destruct script; cbn [fst snd asBotJs].
    + repeat split. unfold WebhookBot.logText, WebhookBot.dbOf, WebhookBot.withDb. cbn.
      now destruct (updateUserStatistics _ _ _ _ _).
    + rewrite dbOf_withDb. cbn. rewrite app_nil_r. now repeat split.
Qed.

(** A message is either answered (or passed over) without a write, or handled
    by the body the scripts share with [src/bot.js]. *)
Lemma webhook_onMessage_step (script : WebhookBot.Script) (st : WebhookBot.State)
    (ev : Event) :
  let st1 := fst (WebhookBot.onMessage imageHash sha256hex script st ev) in
  let o := snd (WebhookBot.onMessage imageHash sha256hex script st ev) in
  (st1 = st /\ loggedTexts [(ev, o)] = []
   /\ asBotJs o = Ignored
   /\ (textOrMedia ev = true ->
       fst (onMessage imageHash sha256hex (WebhookBot.dbOf st) ev) = WebhookBot.dbOf st
       /\ written (snd (onMessage imageHash sha256hex (WebhookBot.dbOf st) ev)) = Ignored))
  \/ (onMessage imageHash sha256hex (WebhookBot.dbOf st) ev = (WebhookBot.dbOf st1, asBotJs o)
      /\ Webhook.messageReactions (WebhookBot.store st1)
         = Webhook.messageReactions (WebhookBot.store st)
      /\ Webhook.textMessages (WebhookBot.store st1)
         = Webhook.textMessages (WebhookBot.store st) ++ loggedTexts [(ev, o)]
      /\ match o with
         | WebhookBot.LoggedText entry => script = WebhookBot.Part000 /\ entry = textEntry ev
         | WebhookBot.CountedTextThenThrew => script = WebhookBot.Part001
         | _ => True
         end).
Proof.
  cbv zeta. unfold WebhookBot.onMessage, onMessage.
  destruct (negb (chatIsGroup ev) && negb (isCommand (msg ev)));
    [left; now repeat split|].
  assert (textOrMedia ev = true -> isCommand (msg ev) = true ->
          processContent imageHash sha256hex (WebhookBot.dbOf st) ev
          = (WebhookBot.dbOf st, Ignored)) as Hfalls.
  { unfold textOrMedia. intros Hshape Hcommand. apply processContent_command; [assumption|].
    rewrite Hcommand in Hshape. cbn in Hshape. rewrite orb_false_r in Hshape.
    now apply negb_true_iff. }
  unfold WebhookBot.answeredCommand, answeredCommand.
  destruct (Msg.text (msg ev)) as [t|];
    [|right; apply webhook_processContent].
  destruct (isCommand (msg ev)); [|right; apply webhook_processContent].
  destruct script.
  - destruct (String.eqb (commandOf t) "stats").
    { left. destruct (Webhook.Part000.generateWeeklyStats _ _); now repeat split. }
    destruct (String.eqb (commandOf t) "petushok").
    { left. destruct (WebhookBot.generatePetushokStats _ _);
        (split; [reflexivity|]; split; [reflexivity|]; split; [reflexivity|];
         intros Hshape; destruct (String.eqb (commandOf t) "help"); [now split|];
         now rewrite Hfalls). }
    destruct (String.eqb (commandOf t) "help"); [left; now repeat split|].
    destruct (String.eqb (commandOf t) "debug_reactions");
      [left; repeat split; now rewrite Hfalls|].
    destruct (String.eqb (commandOf t) "webhook_info");
      [left; repeat split; now rewrite Hfalls|].
    destruct (String.eqb (commandOf t) "group_info");
      [left; repeat split; now rewrite Hfalls|].
    right. apply webhook_processContent.
  - destruct (String.eqb (commandOf t) "stats"); [left; now repeat split|].
    destruct (String.eqb (commandOf t) "help"); [left; now repeat split|].
    right. apply webhook_processContent.
Qed.

Lemma webhook_text_outcome (script : WebhookBot.Script) (st : WebhookBot.State) (ev : Event) :
  isCountedText (asBotJs (snd (WebhookBot.onMessage imageHash sha256hex script st ev)))
  = plainTextInGroup ev.
Proof.
  unfold plainTextInGroup, WebhookBot.onMessage, WebhookBot.answeredCommand,
    WebhookBot.processContent, WebhookBot.settleMedia, isCommand, isPlainText.
  destruct (chatIsGroup ev), (hasMedia (msg ev)), (Msg.text (msg ev)) as [t|];
    cbn [negb andb orb fst snd asBotJs isCountedText];
    try reflexivity;
    try (destruct (pickMedia (msg ev)) as [| |mediaFileId mediaType]; try reflexivity;
         destruct (truthy (Some mediaFileId)); try reflexivity;
         now destruct (findSimilarMedia _ _ _ _)).
  all: destruct (truthy (Some t)), (startsWithSlash t);
    cbn [negb andb orb fst snd asBotJs isCountedText]; try reflexivity.
  all: try (destruct script; reflexivity).
  all: destruct script;
    repeat match goal with
           | |- context [String.eqb ?a ?b] => destruct (String.eqb a b)
           end; cbn [fst snd asBotJs isCountedText]; try reflexivity.
  all: try (destruct (Webhook.Part000.generateWeeklyStats _ _); reflexivity).
  all: try (destruct (WebhookBot.generatePetushokStats _ _); reflexivity).
  all: try (destruct (pickMedia (msg ev)) as [| |mediaFileId mediaType]; try reflexivity;
            destruct (truthy (Some mediaFileId)); try reflexivity;
            now destruct (findSimilarMedia _ _ _ _)).
Qed.

Lemma asBotJs_written (o : WebhookBot.Outcome) : written (asBotJs o) = asBotJs o.
Proof. now destruct o. Qed.

(** With one and the same fingerprint function the scripts write what
    [src/bot.js] writes. *)
Lemma webhook_run_shared_body (script : WebhookBot.Script)
    (st : WebhookBot.State) (events : list Event) :
  Forall (fun ev => textOrMedia ev = true) events ->
  let after := WebhookBot.run imageHash sha256hex script st events in
  let reference := run imageHash sha256hex (WebhookBot.dbOf st) events in
  WebhookBot.dbOf (fst after) = fst reference
  /\ map (fun eo => (fst eo, asBotJs (snd eo))) (snd after)
     = map (fun eo => (fst eo, written (snd eo))) (snd reference)
  /\ Webhook.messageReactions (WebhookBot.store (fst after))
     = Webhook.messageReactions (WebhookBot.store st).
Proof.
  intros Hshape. cbv zeta. revert st.
  induction Hshape as [|ev rest Hev _ IH]; intros st; [now repeat split|].
  cbn [WebhookBot.run run].
  pose proof (webhook_onMessage_step script st ev) as Hstep. cbv zeta in Hstep.
  destruct (WebhookBot.onMessage imageHash sha256hex script st ev) as [st1 o].
  cbn [fst snd] in Hstep. specialize (IH st1).
  destruct Hstep as [(-> & _ & Hignored & Hsame)|(Hsame & Hreactions & _)].
  - destruct (Hsame Hev) as [Hdb Hout].
    destruct (onMessage imageHash sha256hex (WebhookBot.dbOf st) ev) as [db1 o1].
    cbn [fst snd] in Hdb, Hout. subst db1.
    destruct (WebhookBot.run imageHash sha256hex script st rest) as [st2 trace].
    destruct (run imageHash sha256hex (WebhookBot.dbOf st) rest) as [db2 trace1].
    cbn [fst snd map] in IH |- *. destruct IH as (IHdb & IHtrace & IHreactions).
    repeat split; try assumption. now rewrite Hignored, Hout, IHtrace.
  - rewrite Hsame.
    destruct (WebhookBot.run imageHash sha256hex script st1 rest) as [st2 trace].
    destruct (run imageHash sha256hex (WebhookBot.dbOf st1) rest) as [db2 trace1].
    cbn [fst snd map] in IH |- *. destruct IH as (IHdb & IHtrace & IHreactions).
    repeat split; try assumption; [|congruence].
    now rewrite asBotJs_written, IHtrace.
Qed.

Variable imageHashBuffer : Buffer -> nat -> bool -> option string.

Lemma onMessage_same_fingerprint (db : Db) (ev : Event) :
  sameFingerprint imageHashBuffer imageHash sha256hex ev = true ->
  onMessage imageHashBuffer sha256hex db ev = onMessage imageHash sha256hex db ev.
Proof.
  unfold sameFingerprint, postedKind, onMessage, processContent.
  destruct (negb (chatIsGroup ev) && negb (isCommand (msg ev))); [reflexivity|].
  destruct (answeredCommand (msg ev)) as [command|]; [reflexivity|].
  destruct (hasMedia (msg ev)); [|reflexivity].
  destruct (pickMedia (msg ev)) as [| |mediaFileId mediaType]; try reflexivity.
  destruct (truthy (Some mediaFileId)); [|reflexivity].
  intros Hsame. apply String.eqb_eq in Hsame. now rewrite Hsame.
Qed.

Lemma run_same_fingerprint (events : list Event) (db : Db) :
  Forall (fun ev => sameFingerprint imageHashBuffer imageHash sha256hex ev = true) events ->
  run imageHashBuffer sha256hex db events = run imageHash sha256hex db events.
Proof.
  intros Hsame. revert db. induction Hsame as [|ev rest Hev _ IH]; intros db;
    [reflexivity|].
  cbn [run]. rewrite (onMessage_same_fingerprint db ev Hev).
  destruct (onMessage imageHash sha256hex db ev) as [db1 o]. now rewrite IH.
Qed.

(** X16: on [media], [userStats] and the duplicate entries the webhook
    scripts do what [src/bot.js] does, the fingerprints apart. [src/bot.js]
    hands image-hash the buffer and the webhook scripts hand it a temporary
    file, so the two can give an image different fingerprints. On messages
    to which they give the same fingerprint (a video always; an image when
    image-hash fails both ways or answers the same), and when every message
    carries text or a file but not a command together with a file, a run of
    either script leaves these three collections as the run of [src/bot.js]
    on the same messages leaves them, stores the same records, reports the
    same posts as duplicates of the same records and counts the same texts;
    it never writes [messageReactions]. *)
Theorem webhook_scripts_write_as_bot_js (script : WebhookBot.Script)
    (st : WebhookBot.State) (events : list Event) :
  Forall (fun ev => textOrMedia ev = true) events ->
  Forall (fun ev => sameFingerprint imageHashBuffer imageHash sha256hex ev = true) events ->
  let after := WebhookBot.run imageHash sha256hex script st events in
  let reference := run imageHashBuffer sha256hex (WebhookBot.dbOf st) events in
  WebhookBot.dbOf (fst after) = fst reference
  /\ map (fun eo => (fst eo, asBotJs (snd eo))) (snd after)
     = map (fun eo => (fst eo, written (snd eo))) (snd reference)
  /\ Webhook.messageReactions (WebhookBot.store (fst after))
     = Webhook.messageReactions (WebhookBot.store st).
Proof.
  intros Hshape Hsame. cbv zeta. rewrite (run_same_fingerprint events _ Hsame).
  now apply webhook_run_shared_body.
Qed.

Lemma webhook_onMessage_textCount (script : WebhookBot.Script) (st : WebhookBot.State)
    (ev : Event) (uid : Z) :
  statOf UserStats.textCount
         (WebhookBot.dbOf (fst (WebhookBot.onMessage imageHash sha256hex script st ev))) uid
  = statOf UserStats.textCount (WebhookBot.dbOf st) uid
    + oneIf (sentBy uid ev && plainTextInGroup ev).
Proof.
  pose proof (webhook_onMessage_step script st ev) as Hstep.
  pose proof (webhook_text_outcome script st ev) as Htext.
  cbv zeta in Hstep.
  destruct (WebhookBot.onMessage imageHash sha256hex script st ev) as [st1 o].
  cbn [fst snd] in Hstep, Htext |- *. rewrite <- Htext.
  destruct Hstep as [(-> & _ & -> & _)|(Hsame & _)].
  - cbn [isCountedText]. rewrite andb_false_r. cbn. lia.
  - pose proof (onMessage_counters imageHash sha256hex (WebhookBot.dbOf st) ev uid)
      as Hcounters.
    cbv zeta in Hcounters. rewrite Hsame in Hcounters. cbn [fst snd] in Hcounters.
    now destruct Hcounters as (_ & _ & _ & Hcount & _).
Qed.

Lemma webhook_run_textCount (script : WebhookBot.Script) (events : list Event)
    (st : WebhookBot.State) (uid : Z) :
  statOf UserStats.textCount
         (WebhookBot.dbOf (fst (WebhookBot.run imageHash sha256hex script st events))) uid
  = statOf UserStats.textCount (WebhookBot.dbOf st) uid
    + List.length (filter (fun ev => sentBy uid ev && plainTextInGroup ev) events).
Proof.
  revert st. induction events as [|ev rest IH]; intros st; [cbn; lia|].
  cbn [WebhookBot.run filter].
  pose proof (webhook_onMessage_textCount script st ev uid) as Hstep.
  destruct (WebhookBot.onMessage imageHash sha256hex script st ev) as [st1 o].
  cbn [fst] in Hstep. specialize (IH st1).
  destruct (WebhookBot.run imageHash sha256hex script st1 rest) as [st2 trace].
  cbn [fst] in IH |- *. rewrite IH, Hstep.
  destruct (sentBy uid ev && plainTextInGroup ev); cbn [oneIf List.length]; lia.
Qed.

Lemma webhook_onMessage_textLog (st : WebhookBot.State) (ev : Event) (uid : Z) :
  let st1 := fst (WebhookBot.onMessage imageHash sha256hex WebhookBot.Part000 st ev) in
  List.length (textsOf uid (Webhook.textMessages (WebhookBot.store st1)))
  = List.length (textsOf uid (Webhook.textMessages (WebhookBot.store st)))
    + oneIf (sentBy uid ev && plainTextInGroup ev).
Proof.
  cbv zeta.
  pose proof (webhook_onMessage_step WebhookBot.Part000 st ev) as Hstep.
  pose proof (webhook_text_outcome WebhookBot.Part000 st ev) as Htext.
  cbv zeta in Hstep.
  destruct (WebhookBot.onMessage imageHash sha256hex WebhookBot.Part000 st ev) as [st1 o].
  cbn [fst snd] in Hstep, Htext |- *. rewrite <- Htext.
  destruct Hstep as [(-> & _ & -> & _)|(_ & _ & -> & Hentry)].
  - cbn [isCountedText]. rewrite andb_false_r. cbn. lia.
  - unfold textsOf, loggedTexts. cbn [flat_map snd]. rewrite filter_app, length_app.
    f_equal. destruct o; cbn [asBotJs isCountedText app filter List.length];
      rewrite ?andb_false_r; try reflexivity.
    + destruct Hentry as [_ ->]. cbn [textEntry Webhook.TextMessage.userId].
      unfold sentBy. rewrite andb_true_r.
      now destruct (Z.eqb (Msg.from_id (msg ev)) uid).
    + discriminate Hentry.
Qed.

Lemma webhook_onMessage_media (script : WebhookBot.Script) (st : WebhookBot.State)
    (ev : Event) (uid : Z) :
  let st1 := fst (WebhookBot.onMessage imageHash sha256hex script st ev) in
  statOf UserStats.totalMessages (WebhookBot.dbOf st1) uid
  + List.length (filter (fun m => Z.eqb (Media.userId m) uid) (media (WebhookBot.dbOf st)))
  = statOf UserStats.totalMessages (WebhookBot.dbOf st) uid
    + List.length (filter (fun m => Z.eqb (Media.userId m) uid) (media (WebhookBot.dbOf st1)))
    + oneIf (sentBy uid ev && plainTextInGroup ev).
Proof.
  cbv zeta.
  pose proof (webhook_onMessage_step script st ev) as Hstep.
  pose proof (webhook_text_outcome script st ev) as Htext.
  cbv zeta in Hstep.
  destruct (WebhookBot.onMessage imageHash sha256hex script st ev) as [st1 o].
  cbn [fst snd] in Hstep, Htext |- *. rewrite <- Htext.
  destruct Hstep as [(-> & _ & -> & _)|(Hsame & _)].
  - cbn [isCountedText]. rewrite andb_false_r. cbn. lia.
  - pose proof (onMessage_counters imageHash sha256hex (WebhookBot.dbOf st) ev uid)
      as Hcounters.
    pose proof (onMessage_writes imageHash sha256hex (WebhookBot.dbOf st) ev) as [Hmedia _].
    pose proof (onMessage_effect imageHash sha256hex (WebhookBot.dbOf st) ev) as Heffect.
    cbv zeta in Hcounters, Hmedia, Heffect.
    rewrite Hsame in Hcounters, Hmedia, Heffect. cbn [fst snd] in Hcounters, Hmedia, Heffect.
    destruct Hcounters as (_ & _ & _ & _ & _ & Htotal).
    rewrite Htotal, Hmedia, filter_app, length_app.
    unfold storedRecords. cbn [flat_map snd].
    destruct (asBotJs o) as [| | | |mediaType existing reply_to|record|];
      cbn [isStored isCountedText app filter List.length];
      rewrite ?andb_false_r; cbn [oneIf]; try lia.
    destruct Heffect as (mediaHash & mediaType & _ & _ & -> & _).
    cbn [filter recordOf Media.userId]. unfold sentBy. rewrite andb_true_r.
    destruct (Z.eqb (Msg.from_id (msg ev)) uid); cbn [oneIf List.length]; lia.
Qed.

(** X17: in [part_000] the log of text messages and the text counter agree.
    After any messages handled one after the other from empty collections,
    a user's [textCount] is the number of that user's documents in
    [textMessages], which is the number of the user's texts that are no
    command, posted without a file in a group; and [totalMessages] is the
    number of the user's records in [media] plus the number of the user's
    documents in [textMessages]. *)
Theorem text_log_agrees_with_text_counter (events : list Event) (uid : Z) :
  let after :=
    fst (WebhookBot.run imageHash sha256hex WebhookBot.Part000 WebhookBot.emptyState events) in
  let texts := textsOf uid (Webhook.textMessages (WebhookBot.store after)) in
  statOf UserStats.textCount (WebhookBot.dbOf after) uid = List.length texts
  /\ List.length texts
     = List.length (filter (fun ev => sentBy uid ev && plainTextInGroup ev) events)
  /\ statOf UserStats.totalMessages (WebhookBot.dbOf after) uid
     = List.length (filter (fun m => Z.eqb (Media.userId m) uid)
                           (Webhook.media (WebhookBot.store after)))
       + List.length texts.
Proof.
  cbv zeta.
  assert (forall st,
    let after := fst (WebhookBot.run imageHash sha256hex WebhookBot.Part000 st events) in
    List.length (textsOf uid (Webhook.textMessages (WebhookBot.store after)))
    = List.length (textsOf uid (Webhook.textMessages (WebhookBot.store st)))
      + List.length (filter (fun ev => sentBy uid ev && plainTextInGroup ev) events)
    /\ statOf UserStats.totalMessages (WebhookBot.dbOf after) uid
       + List.length (filter (fun m => Z.eqb (Media.userId m) uid)
                             (media (WebhookBot.dbOf st)))
       = statOf UserStats.totalMessages (WebhookBot.dbOf st) uid
         + List.length (filter (fun m => Z.eqb (Media.userId m) uid)
                               (media (WebhookBot.dbOf after)))
         + List.length (filter (fun ev => sentBy uid ev && plainTextInGroup ev) events))
    as Hrun.
  { induction events as [|ev rest IH]; intros st; [cbn; lia|].
    cbn [WebhookBot.run filter].
    pose proof (webhook_onMessage_textLog st ev uid) as Hlog.
    pose proof (webhook_onMessage_media WebhookBot.Part000 st ev uid) as Hmedia.
    cbv zeta in Hlog, Hmedia.
    destruct (WebhookBot.onMessage imageHash sha256hex WebhookBot.Part000 st ev)
      as [st1 o].
    cbn [fst] in Hlog, Hmedia. specialize (IH st1). cbv zeta in IH.
    destruct (WebhookBot.run imageHash sha256hex WebhookBot.Part000 st1 rest)
      as [st2 trace].
    cbn [fst] in IH |- *. destruct IH as [IHlog IHmedia].
    destruct (sentBy uid ev && plainTextInGroup ev); cbn [oneIf List.length] in *; lia. }
  pose proof (webhook_run_textCount WebhookBot.Part000 events WebhookBot.emptyState uid)
    as Hcount.
  specialize (Hrun WebhookBot.emptyState). cbv zeta in Hrun.
  destruct Hrun as [Hlog Hmedia].
  cbn in Hlog, Hmedia, Hcount.
  repeat split; lia.
Qed.

(** X18: [part_001] counts text messages and logs none. Handling a text
    message raises the sender's [textCount], but the handler then fails on
    [db], which that branch does not define: however many messages are
    handled, [textMessages] stays as it was, so the text total of the weekly
    report is the number of documents of the last seven days that were there
    before (0 from empty collections), while [textCount] grows with every
    text. *)
Theorem part_001_counts_text_but_logs_none (st : WebhookBot.State)
    (events : list Event) (uid now : Z) :
  let after :=
    fst (WebhookBot.run imageHash sha256hex WebhookBot.Part001 st events) in
  Webhook.textMessages (WebhookBot.store after) = Webhook.textMessages (WebhookBot.store st)
  /\ Webhook.totalTexts (Webhook.generateWeeklyStats now (WebhookBot.store after))
     = List.length (Webhook.weeklyTextMessages now (WebhookBot.store st))
  /\ statOf UserStats.textCount (WebhookBot.dbOf after) uid
     = statOf UserStats.textCount (WebhookBot.dbOf st) uid
       + List.length (filter (fun ev => sentBy uid ev && plainTextInGroup ev) events).
Proof.
  cbv zeta.
  assert (Webhook.textMessages
            (WebhookBot.store
               (fst (WebhookBot.run imageHash sha256hex WebhookBot.Part001 st events)))
          = Webhook.textMessages (WebhookBot.store st)) as Hlog.
  { revert st. induction events as [|ev rest IH]; intros st; [reflexivity|].
    cbn [WebhookBot.run].
    pose proof (webhook_onMessage_step WebhookBot.Part001 st ev) as Hstep.
    cbv zeta in Hstep.
    destruct (WebhookBot.onMessage imageHash sha256hex WebhookBot.Part001 st ev)
      as [st1 o].
    cbn [fst snd] in Hstep. specialize (IH st1).
    destruct (WebhookBot.run imageHash sha256hex WebhookBot.Part001 st1 rest)
      as [st2 trace].
    cbn [fst] in IH |- *. rewrite IH.
    destruct Hstep as [(-> & _)|(_ & _ & -> & Hentry)]; [reflexivity|].
    unfold loggedTexts. cbn [flat_map snd].
    destruct o; now rewrite !app_nil_r. }
  split; [exact Hlog|]. split; [|apply webhook_run_textCount].
  unfold Webhook.weeklyTextMessages at 1. rewrite <- Hlog.
  unfold Webhook.generateWeeklyStats. cbn [Webhook.totalTexts].
  rewrite (webhook_total (fun e => orZero (Webhook.textCount e)) (fun _ => 0) 1);
    [|intros mediaType e; cbn; lia|intros e; cbn; lia|reflexivity|reflexivity].
  assert (forall l : list Media.t, list_sum (map (fun _ => 0) l) = 0) as ->
      by (induction l; cbn; auto).
  unfold Webhook.weeklyTextMessages. lia.
Qed.

End WebhookHandler.

(** A run on which the two scripts agree: a video, a text, and a photo whose
    bytes image-hash cannot decode, while image-hash fails on every buffer. *)
Lemma webhook_scripts_write_as_bot_js_witness :
  let video := mkEvent (withVideo "v" (sampleMsg (-100) 1 10)) true [Byte.x01] 1000 in
  let text := mkEvent (withText "hello" (sampleMsg (-100) 2 11)) true [] 2000 in
  let photo := mkEvent (withPhoto "p" (sampleMsg (-100) 1 12)) true [Byte.xff] 3000 in
  WebhookBot.dbOf
    (fst (WebhookBot.run sampleImageHash sampleDigest WebhookBot.Part000
                         WebhookBot.emptyState [video; video; text; photo]))
  = fst (run (fun _ _ _ => None) sampleDigest emptyDb [video; video; text; photo]).
Proof.
  cbv zeta.
  refine (proj1 (webhook_scripts_write_as_bot_js sampleImageHash sampleDigest
                   (fun _ _ _ => None)
                   WebhookBot.Part000 WebhookBot.emptyState
                   [mkEvent (withVideo "v" (sampleMsg (-100) 1 10)) true [Byte.x01] 1000;
                    mkEvent (withVideo "v" (sampleMsg (-100) 1 10)) true [Byte.x01] 1000;
                    mkEvent (withText "hello" (sampleMsg (-100) 2 11)) true [] 2000;
                    mkEvent (withPhoto "p" (sampleMsg (-100) 1 12)) true [Byte.xff] 3000]
                   _ _));
    repeat constructor.
Defined.

(** A photo image-hash decodes from the file and not from the buffer: the
    webhook scripts store its perceptual hash, [src/bot.js] the digest. *)
Lemma decoded_photo_is_stored_under_two_fingerprints :
  let photo := mkEvent (withPhoto "p" (sampleMsg (-100) 1 10)) true [Byte.x01] 1000 in
  map Media.hash
      (media (WebhookBot.dbOf
                (fst (WebhookBot.run sampleImageHash sampleDigest WebhookBot.Part000
                                     WebhookBot.emptyState [photo]))))
  = [pad64 "01"]
  /\ map Media.hash (media (fst (run (fun _ _ _ => None) sampleDigest emptyDb [photo])))
     = [pad64 "d501"]
  /\ sameFingerprint (fun _ _ _ => None) sampleImageHash sampleDigest photo = false.
Proof. cbv zeta. repeat split; vm_compute; reflexivity. Qed.

(** ** The weekly job *)

Section WeeklyJobFacts.

Variable getChat : Z -> option ChatType.
Variable parseInt : string -> option Z.

Lemma uniqueChats_In (db : Db) (chatId : Z) :
  In chatId (uniqueChats db) <-> exists m, In m (media db) /\ Media.chatId m = chatId.
Proof.
  unfold uniqueChats. rewrite nodup_In, in_map_iff. split; intros (m & H1 & H2); eauto.
Qed.

Lemma posts_to_chats (report : Report) (chats : list Z) :
  NoDup chats ->
  let posts :=
    flat_map (fun chatId => if isGroup getChat chatId then [(ToChat chatId, report)] else [])
             chats in
  NoDup (map fst posts)
  /\ (forall target, In target (map fst posts) ->
        exists chatId, target = ToChat chatId /\ In chatId chats
                       /\ isGroup getChat chatId = true)
  /\ (forall chatId, In chatId chats -> isGroup getChat chatId = true ->
        In (ToChat chatId) (map fst posts))
  /\ forall post, In post posts -> snd post = report.
Proof.
  cbv zeta. induction 1 as [|chatId chats Hnotin Hnodup IH]; cbn [flat_map].
  - repeat split; try constructor; intros ? [].
  - destruct IH as (IHnodup & IHonly & IHall & IHreport).
    destruct (isGroup getChat chatId) eqn:Hgroup; cbn [app map fst].
    + split; [|split; [|split]].
      * constructor; [|assumption]. intros Hin.
        destruct (IHonly _ Hin) as (c & [= <-] & Hc & _). contradiction.
      * intros target [<-|Hin];
          [exists chatId; split; [reflexivity|split; [now left|assumption]]|].
        destruct (IHonly _ Hin) as (c & -> & Hc & Hg).
        exists c. repeat split; [now right|assumption].
      * intros c [<-|Hc] Hg; [now left|right; now apply IHall].
      * intros post [<-|Hin]; [reflexivity|now apply IHreport].
    + split; [assumption|]. split; [|split; [|assumption]].
      * intros target Hin. destruct (IHonly _ Hin) as (c & -> & Hc & Hg).
        exists c. repeat split; [now right|assumption].
      * intros c [<-|Hc] Hg; [congruence|now apply IHall].
Qed.

Lemma posts_chats (resolve : string -> Z) (report : Report) (chats : list Z) :
  map (chatOf resolve)
      (map fst (flat_map (fun chatId =>
                            if isGroup getChat chatId then [(ToChat chatId, report)] else [])
                         chats))
  = filter (isGroup getChat) chats.
Proof.
  induction chats as [|chatId chats IH]; cbn [flat_map filter]; [reflexivity|].
  destruct (isGroup getChat chatId); cbn [app map fst chatOf]; now rewrite IH.
Qed.

(** X20: whom the weekly job of [src/bot.js] writes to. It sends no two
    messages to the same target. A chat is sent the report under its number
    exactly when [media] holds a record posted there and the platform gives
    its type as group or supergroup. The configured group is sent it under
    its configured id exactly when the id is set, not empty, and [parseInt]
    does not read it as the number of a chat with a record in [media],
    whatever the type of that chat; so an id that [parseInt] does not read
    (a public name) is always written to, also when the chat it names has
    records and gets the report under its number as well. When [parseInt]
    reads the configured id as the number of the chat it denotes, no chat is
    sent the report twice. A chat where only texts, commands or duplicates
    were posted is not written to, unless it is the configured group. Every
    message carries the one report of all chats together. *)
Theorem weekly_job_targets (resolve : string -> Z) (groupId : option string) (db : Db) :
  let posts := weeklyJob getChat parseInt groupId db in
  NoDup (map fst posts)
  /\ (forall chatId,
        In (ToChat chatId) (map fst posts)
        <-> (exists m, In m (media db) /\ Media.chatId m = chatId)
            /\ isGroup getChat chatId = true)
  /\ (forall g,
        In (ToConfigured g) (map fst posts)
        <-> groupId = Some g /\ g <> EmptyString
            /\ forall n m, parseInt g = Some n -> In m (media db) -> Media.chatId m <> n)
  /\ (forall post, In post posts -> snd post = generateWeeklyStats db)
  /\ ((forall g, groupId = Some g -> g <> EmptyString -> parseInt g = Some (resolve g)) ->
      NoDup (map (chatOf resolve) (map fst posts))).
Proof.
  cbv zeta. unfold weeklyJob.
  destruct (posts_to_chats (generateWeeklyStats db) (uniqueChats db)
              (NoDup_nodup Z.eq_dec _)) as (Hnodup & Honly & Hall & Hreport).
  set (toChats := flat_map _ (uniqueChats db)) in *.
  set (configured := match groupId with Some g => _ | None => [] end).
  assert (forall g, In (ToConfigured g) (map fst configured)
                    <-> groupId = Some g /\ g <> EmptyString
                        /\ forall n m, parseInt g = Some n -> In m (media db) ->
                                       Media.chatId m <> n) as Hconfigured.
  { intros g. subst configured. destruct groupId as [g1|]; [|split; [intros []|now intros []]].
    unfold includesConfigured.
    destruct g1 as [|c rest]; cbn [truthy andb]; [split; [intros []|now intros [[= <-] []]]|].
    destruct (parseInt (String c rest)) as [n|] eqn:Hparse.
    - destruct (existsb (Z.eqb n) (uniqueChats db)) eqn:Hhas; cbn [negb map fst In].
      + split; [intros []|]. intros ([= <-] & _ & Hfree). exfalso.
        apply existsb_exists in Hhas as (x & Hx & Heq). apply Z.eqb_eq in Heq. subst x.
        apply uniqueChats_In in Hx as (m & Hm & Hchat). exact (Hfree n m Hparse Hm Hchat).
      + split.
        * intros [[= <-]|[]]. split; [reflexivity|]. split; [discriminate|].
          intros n1 m Hn1 Hm Hchat. rewrite Hparse in Hn1. injection Hn1 as <-.
          assert (existsb (Z.eqb n) (uniqueChats db) = true); [|congruence].
          apply existsb_exists. exists n. split; [|apply Z.eqb_refl].
          apply uniqueChats_In. now exists m.
        * intros ([= <-] & _). now left.
    - cbn [negb map fst In]. split.
      + intros [[= <-]|[]]. split; [reflexivity|]. split; [discriminate|].
        intros n m Hn. rewrite Hparse in Hn. discriminate.
      + intros ([= <-] & _). now left. }
  assert (forall target, In target (map fst configured) ->
                         exists g, target = ToConfigured g) as Hkind.
  { intros target. subst configured. destruct groupId as [g|]; [|intros []].
    destruct (truthy (Some g) && negb (includesConfigured parseInt db g)); [|intros []].
    intros [<-|[]]. now exists g. }
  assert (NoDup (map fst (toChats ++ configured))
          /\ (forall chatId,
                In (ToChat chatId) (map fst (toChats ++ configured))
                <-> (exists m, In m (media db) /\ Media.chatId m = chatId)
                    /\ isGroup getChat chatId = true)
          /\ (forall g,
                In (ToConfigured g) (map fst (toChats ++ configured))
                <-> groupId = Some g /\ g <> EmptyString
                    /\ forall n m, parseInt g = Some n -> In m (media db) ->
                                   Media.chatId m <> n)
          /\ forall post, In post (toChats ++ configured) ->
                          snd post = generateWeeklyStats db) as (H1 & H2 & H3 & H4).
  { rewrite map_app. split; [|split; [|split]].
    - apply NoDup_app; [assumption| |].
      + subst configured. destruct groupId as [g|]; [|constructor].
        destruct (truthy (Some g) && negb (includesConfigured parseInt db g));
          repeat constructor. intros [].
      + intros target Hin Hin1. destruct (Honly _ Hin) as (c & -> & _).
        destruct (Hkind _ Hin1) as (g & [=]).
    - intros chatId. rewrite in_app_iff, <- uniqueChats_In. split.
      + intros [Hin|Hin].
        * destruct (Honly _ Hin) as (c & [= <-] & Hc & Hg). now split.
        * destruct (Hkind _ Hin) as (g & [=]).
      + intros [Hc Hg]. left. now apply Hall.
    - intros g. rewrite in_app_iff, <- Hconfigured. split; [|now right].
      intros [Hin|Hin]; [|assumption]. destruct (Honly _ Hin) as (c & [=] & _).
    - intros post Hin. apply in_app_or in Hin as [Hin|Hin]; [now apply Hreport|].
      subst configured. destruct groupId as [g|]; [|destruct Hin].
      destruct (truthy (Some g) && negb (includesConfigured parseInt db g)); [|destruct Hin].
      now destruct Hin as [<-|[]]. }
  split; [exact H1|]. split; [exact H2|]. split; [exact H3|]. split; [exact H4|].
  intros Hreads. rewrite !map_app. subst toChats. rewrite posts_chats.
  apply NoDup_app; [apply NoDup_filter, NoDup_nodup| |].
  - subst configured. destruct groupId as [g|]; [|constructor].
    destruct (truthy (Some g) && negb (includesConfigured parseInt db g));
      repeat constructor. intros [].
  - intros chatId Hchat Hconf. apply filter_In in Hchat as [Hchat _].
    subst configured. destruct groupId as [g|]; [|destruct Hconf].
    destruct (truthy (Some g)) eqn:Hset; cbn [andb] in Hconf; [|destruct Hconf].
    assert (g <> EmptyString) as Hne by (intros ->; discriminate Hset).
    unfold includesConfigured in Hconf. rewrite (Hreads g eq_refl Hne) in Hconf.
    destruct (existsb (Z.eqb (resolve g)) (uniqueChats db)) eqn:Hhas;
      cbn [negb map fst chatOf In] in Hconf; [destruct Hconf|].
    destruct Hconf as [<-|[]].
    assert (existsb (Z.eqb (resolve g)) (uniqueChats db) = true); [|congruence].
    apply existsb_exists. exists (resolve g). split; [assumption|apply Z.eqb_refl].
Qed.

End WeeklyJobFacts.

Lemma weekly_job_targets_witness :
  let getChat := fun _ : Z => Some SupergroupChat in
  let parseInt := fun g => if String.eqb g "-200" then Some (-200)%Z else None in
  let resolve := fun _ : string => (-200)%Z in
  let db := mkDb [samplePhoto "aa" 1 1000] [] [] in
  NoDup (map (chatOf resolve) (map fst (weeklyJob getChat parseInt (Some "-200"%string) db))).
Proof.
  cbv zeta.
  refine (proj2 (proj2 (proj2 (proj2
            (weekly_job_targets (fun _ => Some SupergroupChat)
               (fun g => if String.eqb g "-200" then Some (-200)%Z else None)
               (fun _ => (-200)%Z) (Some "-200"%string)
               (mkDb [samplePhoto "aa" 1 1000] [] []))))) _).
  intros g [= <-] _. reflexivity.
Defined.

(** The configured id is the public name of a group with records: the job
    writes to the group under its number and under its name. *)
Lemma weekly_job_writes_twice_to_a_named_group :
  let getChat := fun _ : Z => Some SupergroupChat in
  let parseInt := fun _ : string => @None Z in
  let resolve := fun _ : string => (-100)%Z in
  let db := mkDb [samplePhoto "aa" 1 1000] [] [] in
  map fst (weeklyJob getChat parseInt (Some "@mygroup"%string) db)
  = [ToChat (-100); ToConfigured "@mygroup"]
  /\ map (chatOf resolve) (map fst (weeklyJob getChat parseInt (Some "@mygroup"%string) db))
     = [(-100)%Z; (-100)%Z].
Proof. cbv zeta. split; reflexivity. Qed.

(** ** The older scripts *)

Lemma to_int_not_nil (z : Z) :
  Z.to_int z <> Decimal.Pos Decimal.Nil /\ Z.to_int z <> Decimal.Neg Decimal.Nil.
Proof.
  split; intros Hnil; pose proof (DecimalZ.of_to z) as Hback; rewrite Hnil in Hback;
    cbn in Hback; subst z; discriminate Hnil.
Qed.

Lemma decimal_read (z : Z) :
  NilZero.int_of_string (Legacy.decimal z) = Some (Z.to_int z).
Proof.
  destruct (to_int_not_nil z). now apply NilZero.isi.
Qed.

Lemma decimal_inj (z z1 : Z) : Legacy.decimal z = Legacy.decimal z1 -> z = z1.
Proof.
  intros Heq. pose proof (decimal_read z) as Hz. rewrite Heq, decimal_read in Hz.
  injection Hz as Hz. rewrite <- (DecimalZ.of_to z), <- (DecimalZ.of_to z1). now rewrite Hz.
Qed.

Lemma decimal_truthy (z : Z) : truthy (Some (Legacy.decimal z)) = true.
Proof.
  pose proof (decimal_read z) as Hz.
  destruct (Legacy.decimal z); [discriminate Hz|reflexivity].
Qed.

Lemma run_invariant {O : Type} (handler : Db -> Event -> Db * O) (holds : Db -> Prop) :
  (forall db ev, holds db -> holds (fst (handler db ev))) ->
  forall events db, holds db -> holds (fst (Legacy.run handler db events)).
Proof.
  intros Hstep events. induction events as [|ev rest IH]; intros db Hdb; [exact Hdb|].
  cbn [Legacy.run]. specialize (Hstep db ev Hdb).
  destruct (handler db ev) as [db1 o]. cbn [fst] in Hstep. specialize (IH db1 Hstep).
  now destruct (Legacy.run handler db1 rest).
Qed.

Section OlderScripts.

Variable sha256hex : Buffer -> string.
Variable isAdmin : Z -> Z -> bool.

(** What the media block leaves behind, by outcome. *)
Lemma processMedia_effect (db : Db) (ev : Event) :
  let digest := sha256hex (mediaBuffer ev) in
  let db1 := fst (Legacy.processMedia sha256hex db ev) in
  match snd (Legacy.processMedia sha256hex db ev) with
  | Stored record =>
      Media.hash record = digest
      /\ (forall m, In m (media db) -> Media.hash m <> digest)
      /\ media db1 = media db ++ [record]
  | DuplicateNotice _ existing _ =>
      In existing (media db) /\ Media.hash existing = digest /\ media db1 = media db
  | _ => media db1 = media db
  end.
Proof.
  cbv zeta. unfold Legacy.processMedia, Legacy.hashMedia, Legacy.findByHash.
  destruct (pickMedia (msg ev)) as [| |mediaFileId mediaType]; try reflexivity.
  destruct (truthy (Some mediaFileId)); [|reflexivity].
  unfold settleMedia.
  destruct (find _ (media db)) as [existing|] eqn:Hfound; cbn [fst snd].
  - apply find_some in Hfound as [Hin Heq]. apply String.eqb_eq in Heq.
    now repeat split.
  - split; [reflexivity|]. split.
    + intros m Hm Heq. pose proof (find_none _ _ Hfound m Hm) as Hno. cbn in Hno.
      apply String.eqb_neq in Hno. contradiction.
    + unfold updateUserStatistics. cbn [userStats media].
      now destruct (findOneUser _ _).
Qed.

Lemma processMedia_distinct (db : Db) (ev : Event) :
  NoDup (map Media.hash (media db)) ->
  NoDup (map Media.hash (media (fst (Legacy.processMedia sha256hex db ev)))).
Proof.
  intros Hnodup. pose proof (processMedia_effect db ev) as Heffect. cbv zeta in Heffect.
  destruct (snd (Legacy.processMedia sha256hex db ev));
    try (now rewrite Heffect).
  - destruct Heffect as (_ & _ & ->). assumption.
  - destruct Heffect as (Hdigest & Hnew & ->). rewrite map_app.
    apply NoDup_app; [assumption|repeat constructor; intros []|].
    intros h Hh [<-|[]]. apply in_map_iff in Hh as (m & Heq & Hm).
    apply (Hnew m Hm). congruence.
Qed.

Lemma onChannelMessage_distinct (db : Db) (ev : Event) :
  NoDup (map Media.hash (media db)) ->
  NoDup (map Media.hash (media (fst (Legacy.onChannelMessage sha256hex db ev)))).
Proof.
  intros Hnodup. unfold Legacy.onChannelMessage.
  destruct (hasMedia (msg ev)); [now apply processMedia_distinct|].
  destruct (truthy (Msg.text (msg ev))); [|assumption].
  cbn [fst]. unfold updateUserStatistics. now destruct (findOneUser _ _).
Qed.

Lemma onGroupMessage_distinct (groupId : option string) (db : Db) (ev : Event) :
  NoDup (map Media.hash (media db)) ->
  NoDup (map Media.hash
             (media (fst (Legacy.onGroupMessage sha256hex isAdmin groupId db ev)))).
Proof.
  intros Hnodup. unfold Legacy.onGroupMessage.
  destruct (negb (chatIsGroup ev)); [assumption|].
  destruct (negb (Legacy.inConfiguredGroup groupId (Msg.chat_id (msg ev)))); [assumption|].
  destruct (answeredCommand (msg ev)) as [[|]|];
    [destruct (isAdmin _ _); assumption|assumption|].
  destruct (hasMedia (msg ev)).
  - pose proof (processMedia_distinct db ev Hnodup) as Hstep.
    now destruct (Legacy.processMedia sha256hex db ev).
  - destruct (isPlainText (msg ev)); [|assumption].
    cbn [fst]. unfold updateUserStatistics. now destruct (findOneUser _ _).
Qed.

(** A file the media block takes up: stored when no record carries its
    digest, reported against the first record that does otherwise. *)
Lemma processMedia_taken_up (db : Db) (ev : Event) (mediaFileId : string)
    (mediaType : MediaType) :
  pickMedia (msg ev) = File mediaFileId mediaType ->
  truthy (Some mediaFileId) = true ->
  let digest := sha256hex (mediaBuffer ev) in
  let after := Legacy.processMedia sha256hex db ev in
  ((forall m, In m (media db) -> Media.hash m <> digest) ->
   snd after = Stored (recordOf ev digest mediaType)
   /\ media (fst after) = media db ++ [recordOf ev digest mediaType]
   /\ duplicateTracking (fst after) = duplicateTracking db)
  /\ ((exists m, In m (media db) /\ Media.hash m = digest) ->
      exists existing,
        In existing (media db) /\ Media.hash existing = digest
        /\ snd after = DuplicateNotice mediaType existing (Msg.message_id (msg ev))
        /\ media (fst after) = media db
        /\ duplicateTracking (fst after)
           = duplicateTracking db
             ++ [DuplicateEntry.mk (Msg.from_id (msg ev)) (senderName (msg ev)) (now ev)]).
Proof.
  intros Hpicked Hid. cbv zeta.
  unfold Legacy.processMedia, Legacy.hashMedia, Legacy.findByHash.
  rewrite Hpicked, Hid. unfold settleMedia.
  destruct (find _ (media db)) as [existing|] eqn:Hfound; cbn [fst snd].
  - apply find_some in Hfound as [Hin Heq]. apply String.eqb_eq in Heq. split.
    + intros Hnone. now destruct (Hnone existing Hin).
    + intros _. exists existing. now repeat split.
  - split.
    + intros _. split; [reflexivity|].
      unfold updateUserStatistics. cbn [userStats media duplicateTracking].
      now destruct (findOneUser _ _).
    + intros (m & Hin & Heq). pose proof (find_none _ _ Hfound m Hin) as Hno.
      cbn in Hno. apply String.eqb_neq in Hno. contradiction.
Qed.

(** X21: the older scripts match by equality of the SHA-256 digest, whatever
    the media type. Both handlers pass a message with a file (in the second
    script: of the configured group, and no answered command) to the same
    media block. A file the block takes up is stored, as one new record with
    the digest as fingerprint and without a duplicate entry, when no record
    carries its digest; when a record does, it is reported against a stored
    record with that digest, one duplicate entry is written and [media]
    stays as it is. So after any messages handled one after the other from
    an empty store, by either script, no two records in [media] have the same
    fingerprint. *)
Theorem older_scripts_store_each_digest_once (groupId : option string)
    (events : list Event) (db : Db) (ev : Event) :
  NoDup (map Media.hash
             (media (fst (Legacy.run (Legacy.onChannelMessage sha256hex) emptyDb events))))
  /\ NoDup (map Media.hash
                (media (fst (Legacy.run (Legacy.onGroupMessage sha256hex isAdmin groupId)
                                        emptyDb events))))
  /\ (hasMedia (msg ev) = true ->
      Legacy.onChannelMessage sha256hex db ev = Legacy.processMedia sha256hex db ev)
  /\ (hasMedia (msg ev) = true -> inScope groupId ev = true ->
      answeredCommand (msg ev) = None ->
      Legacy.onGroupMessage sha256hex isAdmin groupId db ev
      = (fst (Legacy.processMedia sha256hex db ev),
         Legacy.Answered (snd (Legacy.processMedia sha256hex db ev))))
  /\ (forall mediaFileId mediaType,
        pickMedia (msg ev) = File mediaFileId mediaType ->
        truthy (Some mediaFileId) = true ->
        let digest := sha256hex (mediaBuffer ev) in
        let after := Legacy.processMedia sha256hex db ev in
        ((forall m, In m (media db) -> Media.hash m <> digest) ->
         snd after = Stored (recordOf ev digest mediaType)
         /\ media (fst after) = media db ++ [recordOf ev digest mediaType]
         /\ duplicateTracking (fst after) = duplicateTracking db)
        /\ ((exists m, In m (media db) /\ Media.hash m = digest) ->
            exists existing,
              In existing (media db) /\ Media.hash existing = digest
              /\ snd after = DuplicateNotice mediaType existing (Msg.message_id (msg ev))
              /\ media (fst after) = media db
              /\ duplicateTracking (fst after)
                 = duplicateTracking db
                   ++ [DuplicateEntry.mk (Msg.from_id (msg ev)) (senderName (msg ev))
                                         (now ev)])).
Proof.
  split; [|split; [|split; [|split]]].
  - apply (run_invariant _ (fun db => NoDup (map Media.hash (media db))));
      [apply onChannelMessage_distinct|constructor].
  - apply (run_invariant _ (fun db => NoDup (map Media.hash (media db))));
      [apply onGroupMessage_distinct|constructor].
  - unfold Legacy.onChannelMessage. now intros ->.
  - unfold Legacy.onGroupMessage, inScope. intros -> Hscope ->.
    apply andb_prop in Hscope as [-> ->]. cbn [negb].
    now destruct (Legacy.processMedia sha256hex db ev).
  - intros mediaFileId mediaType. apply processMedia_taken_up.
Qed.

Lemma onGroupMessage_out_of_scope (groupId : option string) (db : Db) (ev : Event) :
  inScope groupId ev = false ->
  Legacy.onGroupMessage sha256hex isAdmin groupId db ev = (db, Legacy.Answered Ignored).
Proof.
  unfold inScope, Legacy.onGroupMessage.
  destruct (chatIsGroup ev); cbn [negb andb]; [|reflexivity].
  now intros ->.
Qed.

(** X22: the second of the older scripts sees the configured group alone.
    With a group id configured, a message from any other chat, and any
    message from a chat that is no group, is dropped without a write or an
    answer: the store after a run is the store after the run of the messages
    of the configured group alone. The configured group is the chat whose
    number prints as the configured id. Without an id the script takes the
    messages of every group. *)
Theorem group_script_sees_configured_group_only (groupId : option string) (db : Db)
    (events : list Event) (chatId : Z) (ev : Event) :
  let handler := Legacy.onGroupMessage sha256hex isAdmin groupId in
  fst (Legacy.run handler db events)
  = fst (Legacy.run handler db (filter (inScope groupId) events))
  /\ Forall (fun eo => inScope groupId (fst eo) = false -> snd eo = Legacy.Answered Ignored)
            (snd (Legacy.run handler db events))
  /\ inScope (Some (Legacy.decimal chatId)) ev
     = chatIsGroup ev && Z.eqb (Msg.chat_id (msg ev)) chatId
  /\ inScope None ev = chatIsGroup ev.
Proof.
  cbv zeta. split; [|split; [|split]].
  - revert db. induction events as [|e rest IH]; intros db; [reflexivity|].
    cbn [Legacy.run filter]. destruct (inScope groupId e) eqn:Hscope.
    + cbn [Legacy.run].
      destruct (Legacy.onGroupMessage sha256hex isAdmin groupId db e) as [db1 o].
      specialize (IH db1).
      destruct (Legacy.run _ db1 rest) as [db2 trace].
      destruct (Legacy.run _ db1 (filter (inScope groupId) rest)) as [db3 trace1].
      exact IH.
    + rewrite (onGroupMessage_out_of_scope groupId db e Hscope).
      specialize (IH db). now destruct (Legacy.run _ db rest) as [db2 trace].
  - revert db. induction events as [|e rest IH]; intros db; [constructor|].
    cbn [Legacy.run].
    pose proof (onGroupMessage_out_of_scope groupId db e) as Hout.
    destruct (Legacy.onGroupMessage sha256hex isAdmin groupId db e) as [db1 o].
    specialize (IH db1). destruct (Legacy.run _ db1 rest) as [db2 trace].
    cbn [snd] in IH |- *. constructor; [|assumption].
    cbn [fst snd]. intros Hscope. specialize (Hout Hscope). congruence.
  - unfold inScope, Legacy.inConfiguredGroup. rewrite decimal_truthy. cbn [negb orb].
    f_equal. destruct (Z.eqb_spec (Msg.chat_id (msg ev)) chatId) as [->|Hneq].
    + apply String.eqb_refl.
    + apply String.eqb_neq. intros Heq. apply Hneq. now apply decimal_inj.
  - unfold inScope, Legacy.inConfiguredGroup. cbn. now rewrite andb_true_r.
Qed.

Lemma pickMedia_not_text (m : Msg.t) (mediaFileId : string) (mediaType : MediaType) :
  pickMedia m = File mediaFileId mediaType -> mediaType <> Text.
Proof.
  unfold pickMedia.
  destruct (Msg.photo m) as [sizes|].
  - destruct (rev sizes); [discriminate|]. now intros [= _ <-].
  - destruct (Msg.video m) as [file_id|]; [now intros [= _ <-]|].
    destruct (Msg.document m) as [[file_id mime_type]|]; [|discriminate].
    destruct (String.prefix _ _); [|discriminate]. now intros [= _ <-].
Qed.

Lemma processMedia_textCount (db : Db) (ev : Event) (uid : Z) :
  statOf UserStats.textCount (fst (Legacy.processMedia sha256hex db ev)) uid
  = statOf UserStats.textCount db uid.
Proof.
  unfold Legacy.processMedia.
  destruct (pickMedia (msg ev)) as [| |mediaFileId mediaType] eqn:Hpick; try reflexivity.
  destruct (truthy (Some mediaFileId)); [|reflexivity].
  apply pickMedia_not_text in Hpick. unfold settleMedia.
  destruct (Legacy.findByHash db _) as [existing|]; cbn [fst].
  - rewrite (trackDuplicate_stat UserStats.textCount 0);
      [lia|intros u; cbn; lia|reflexivity].
  - rewrite (updateUserStatistics_stat UserStats.textCount 0).
    + unfold statOf. cbn [userStats]. lia.
    + intros u. destruct mediaType; cbn; try lia. contradiction.
    + destruct mediaType; cbn; try reflexivity. contradiction.
Qed.

Lemma run_count {O : Type} (handler : Db -> Event -> Db * O) (stat : Db -> nat)
    (counted : Event -> bool) :
  (forall db ev, stat (fst (handler db ev)) = stat db + oneIf (counted ev)) ->
  forall events db,
    stat (fst (Legacy.run handler db events))
    = stat db + List.length (filter counted events).
Proof.
  intros Hstep events. induction events as [|ev rest IH]; intros db; [cbn; lia|].
  cbn [Legacy.run filter]. specialize (Hstep db ev).
  destruct (handler db ev) as [db1 o]. cbn [fst] in Hstep. specialize (IH db1).
  destruct (Legacy.run handler db1 rest) as [db2 trace]. cbn [fst] in IH |- *.
  rewrite IH, Hstep. destruct (counted ev); cbn [oneIf List.length]; lia.
Qed.

(** X23: what the older scripts count as text. The first counts every text
    that comes without a file, a command like any other, from whatever chat;
    the second counts, as [src/bot.js] does for a group, the texts that are
    no command and come without a file, and only those of the chats it takes
    up. After any messages handled one after the other, [textCount] of a user
    has grown by the number of such messages of that user. *)
Theorem older_scripts_text_counts (groupId : option string) (db : Db)
    (events : list Event) (uid : Z) :
  statOf UserStats.textCount
         (fst (Legacy.run (Legacy.onChannelMessage sha256hex) db events)) uid
  = statOf UserStats.textCount db uid
    + List.length (filter (fun ev => sentBy uid ev && anyText ev) events)
  /\ statOf UserStats.textCount
            (fst (Legacy.run (Legacy.onGroupMessage sha256hex isAdmin groupId) db events)) uid
     = statOf UserStats.textCount db uid
       + List.length (filter (fun ev => sentBy uid ev
                                        && (inScope groupId ev && plainTextInGroup ev))
                             events).
Proof.
  split.
  - apply (run_count _ (fun db => statOf UserStats.textCount db uid)).
    clear db. intros db ev. unfold Legacy.onChannelMessage, anyText.
    destruct (hasMedia (msg ev)); cbn [negb andb].
    + rewrite processMedia_textCount, andb_false_r. cbn. lia.
    + destruct (truthy (Msg.text (msg ev))); cbn [fst].
      * rewrite (updateUserStatistics_stat UserStats.textCount 1);
          [|intros u; cbn; lia|reflexivity].
        unfold sentBy. rewrite andb_true_r.
        destruct (Z.eqb (Msg.from_id (msg ev)) uid); cbn; lia.
      * rewrite andb_false_r. cbn. lia.
  - apply (run_count _ (fun db => statOf UserStats.textCount db uid)).
    clear db. intros db ev.
    destruct (inScope groupId ev) eqn:Hscope.
    + unfold Legacy.onGroupMessage, plainTextInGroup. unfold inScope in Hscope.
      apply andb_prop in Hscope as [-> ->]. cbn [negb andb].
      destruct (answeredCommand (msg ev)) as [[|]|] eqn:Hcommand.
      * assert (isPlainText (msg ev) = false) as ->.
        { apply command_is_not_plain_text. unfold answeredCommand in Hcommand.
          destruct (Msg.text (msg ev)) as [t|]; [|discriminate].
          destruct (isCommand (msg ev)); [reflexivity|discriminate]. }
        rewrite !andb_false_r.
        destruct (isAdmin _ _); cbn; lia.
      * assert (isPlainText (msg ev) = false) as ->.
        { apply command_is_not_plain_text. unfold answeredCommand in Hcommand.
          destruct (Msg.text (msg ev)) as [t|]; [|discriminate].
          destruct (isCommand (msg ev)); [reflexivity|discriminate]. }
        rewrite !andb_false_r. cbn. lia.
      * destruct (hasMedia (msg ev)); cbn [negb andb].
        -- pose proof (processMedia_textCount db ev uid) as Hmedia.
           destruct (Legacy.processMedia sha256hex db ev) as [db1 o].
           cbn [fst] in Hmedia |- *. rewrite Hmedia, andb_false_r. cbn. lia.
        -- destruct (isPlainText (msg ev)); cbn [fst].
           ++ rewrite (updateUserStatistics_stat UserStats.textCount 1);
                [|intros u; cbn; lia|reflexivity].
              unfold sentBy. rewrite andb_true_r.
              destruct (Z.eqb (Msg.from_id (msg ev)) uid); cbn; lia.
           ++ rewrite andb_false_r. cbn. lia.
    + rewrite (onGroupMessage_out_of_scope groupId db ev Hscope).
      cbn [fst andb]. rewrite andb_false_r. cbn. lia.
Qed.

End OlderScripts.

(** The same clip sent as a video and then as a photo: the second is reported
    against the record of the first. *)
Lemma older_scripts_store_each_digest_once_witness :
  let clip := [Byte.x00; Byte.x01] in
  let video := mkEvent (withVideo "v" (sampleMsg (-100) 1 10)) true clip 1000 in
  let photo := mkEvent (withPhoto "p" (sampleMsg (-100) 2 20)) true clip 2000 in
  let db := fst (Legacy.run (Legacy.onChannelMessage sampleDigest) emptyDb [video]) in
  exists existing,
    In existing (media db) /\ Media.hash existing = sampleDigest clip
    /\ snd (Legacy.processMedia sampleDigest db photo) = DuplicateNotice Photo existing 20
    /\ media (fst (Legacy.processMedia sampleDigest db photo)) = media db
    /\ duplicateTracking (fst (Legacy.processMedia sampleDigest db photo))
       = duplicateTracking db ++ [DuplicateEntry.mk 2 "user" 2000].
Proof.
  cbv zeta.
  refine (proj2 (proj2 (proj2 (proj2 (proj2
            (older_scripts_store_each_digest_once sampleDigest (fun _ _ => true) None []
               (fst (Legacy.run (Legacy.onChannelMessage sampleDigest) emptyDb
                       [mkEvent (withVideo "v" (sampleMsg (-100) 1 10)) true
                                [Byte.x00; Byte.x01] 1000]))
               (mkEvent (withPhoto "p" (sampleMsg (-100) 2 20)) true
                        [Byte.x00; Byte.x01] 2000)))))
            "p"%string Photo eq_refl eq_refl) _).
  eexists. split; [left; reflexivity|reflexivity].
Defined.

(** ** Escaped characters *)

Lemma markdownRules_shape (rule : ascii * string) :
  In rule markdownRules -> snd rule = String "\" (String (fst rule) EmptyString).
Proof.
  intros Hin. cbn in Hin.
  repeat (destruct Hin as [<-|Hin]; [reflexivity|]). contradiction.
Qed.

Lemma substitute_escaped (text : string) (previous : option ascii) :
  escapedAfter previous (substitute markdownRules text) = true.
Proof.
  revert previous. induction text as [|x rest IH]; intros previous; [reflexivity|].
  cbn [substitute].
  destruct (find (fun rule => Ascii.eqb (fst rule) x) markdownRules) as [rule|] eqn:Hfound.
  - apply find_some in Hfound as [Hin Hx]. apply Ascii.eqb_eq in Hx.
    rewrite (markdownRules_shape rule Hin), Hx.
    cbn [String.append escapedAfter]. rewrite IH, andb_true_r.
    assert (existsb (fun rule => Ascii.eqb (fst rule) "\"%char) markdownRules = false) as ->
        by reflexivity.
    rewrite Ascii.eqb_refl. cbn [negb orb andb]. now rewrite orb_true_r.
  - cbn [escapedAfter]. rewrite IH, andb_true_r.
    assert (existsb (fun rule => Ascii.eqb (fst rule) x) markdownRules = false) as ->;
      [|reflexivity].
    destruct (existsb _ markdownRules) eqn:E; [|reflexivity].
    apply existsb_exists in E as (rule & Hin & Hx).
    now rewrite (find_none _ _ Hfound rule Hin) in Hx.
Qed.

(** X25: in the result of [escapeMarkdown] every one of the eighteen
    characters comes right after a backslash, whatever the text was. A
    backslash of the text is copied as it is: a backslash followed by one of
    the characters becomes two backslashes followed by the character. *)
Theorem escapeMarkdown_escapes_every_special_character (text : string) :
  escapedAfter None (escapeMarkdown text) = true
  /\ forall c, In c (map fst markdownRules) ->
       escapeMarkdown (String "\" (String c EmptyString))
       = String "\" (String "\" (String c EmptyString)).
Proof.
  split.
  - unfold escapeMarkdown. destruct text as [|x rest]; [reflexivity|].
    cbn [truthy]. rewrite <- (substitute_nil (String x rest)) at 1.
    rewrite (replaceChain_pass [] markdownRules _ independent_markdownRules).
    apply substitute_escaped.
  - intros c Hc. cbn in Hc.
    repeat (destruct Hc as [<-|Hc]; [reflexivity|]). contradiction.
Qed.
